(** * fleetd device agent (examples/agents/python-raspberry-pi/fleetd_agent.py)

    A shallow embedding of [FleetDeviceAgent]: the command executor, the
    OTA update handler, enrollment/startup and the wake queue shared by the
    heartbeat and command threads, with the properties of its specification
    stated over that embedding.

    Conventions.
    - Python values that come from JSON are terms of [json]; [None] is
      [JNull].
    - Every call that leaves the process (HTTP, subprocess, file system,
      clock) appends an [Event] to the trace; what the outside world answers
      is read from an [Env], an arbitrary function of the history so far.
    - Code that can raise is written in the monad [M]: a state transformer
      that returns [Ok v] or [Raise e], keeping the state changes made before
      the exception, as Python does.
    - Calls to [logger] have no effect the properties depend on and are left
      out. *)

From Stdlib Require Import ZArith QArith List Lia Bool Ascii.
From stdpp Require Import gmap strings list.

Import ListNotations.
Local Open Scope Z_scope.
Set Warnings "-register-all".

(** ** Python values *)

Module Py.

(** Values produced by [json.load] / [response.json()]. *)
Inductive json : Type :=
| JNull
| JBool (b : bool)
| JInt (z : Z)
| JFloat (q : Q)
| JStr (s : string)
| JList (l : list json)
| JDict (d : list (string * json)).

(** A raised exception: its class name and [str(e)]. *)
Record exn : Type := Exn { exn_class : string; exn_text : string }.

Inductive Res (A : Type) : Type :=
| Ok (a : A)
| Raise (e : exn).
Arguments Ok {A} a.
Arguments Raise {A} e.

(** [bool(v)] *)
Definition truthy (v : json) : bool :=
  match v with
  | JNull => false
  | JBool b => b
  | JInt z => negb (z =? 0)
  | JFloat q => negb (Qeq_bool q 0)
  | JStr s => negb (String.eqb s "")
  | JList l => match l with [] => false | _ => true end
  | JDict d => match d with [] => false | _ => true end
  end.

(** [v == s] for a string literal [s] *)
Definition eq_str (v : json) (s : string) : bool :=
  match v with
  | JStr s' => String.eqb s' s
  | _ => false
  end.

(** Lookup in a dict held as its list of items. *)
Fixpoint assoc (k : string) (d : list (string * json)) : option json :=
  match d with
  | [] => None
  | (k', v) :: d' => if String.eqb k k' then Some v else assoc k d'
  end.

(** The name Python prints for the type of a value. *)
Definition type_name (v : json) : string :=
  match v with
  | JNull => "NoneType"
  | JBool _ => "bool"
  | JInt _ => "int"
  | JFloat _ => "float"
  | JStr _ => "str"
  | JList _ => "list"
  | JDict _ => "dict"
  end.

(** [v[k]] for a string key [k]: [KeyError] on a dict without the key,
    [TypeError] on every other type (a list or a string wants an integer
    index, the rest are not subscriptable). *)
Definition getitem (v : json) (k : string) : Res json :=
  match v with
  | JDict d =>
      match assoc k d with
      | Some x => Ok x
      | None => Raise (Exn "KeyError" ("'" +:+ k +:+ "'"))
      end
  | JList _ => Raise (Exn "TypeError" "list indices must be integers or slices, not str")
  | JStr _ => Raise (Exn "TypeError" "string indices must be integers, not 'str'")
  | _ => Raise (Exn "TypeError" ("'" +:+ type_name v +:+ "' object is not subscriptable"))
  end.

(** [v.get(k, dflt)]: only a dict has the method. *)
Definition get (v : json) (k : string) (dflt : json) : Res json :=
  match v with
  | JDict d => Ok (match assoc k d with Some x => x | None => dflt end)
  | _ => Raise (Exn "AttributeError"
                  ("'" +:+ type_name v +:+ "' object has no attribute 'get'"))
  end.

(** [v > 0]: numbers and booleans compare, anything else raises. *)
Definition gt_zero (v : json) : Res bool :=
  match v with
  | JBool b => Ok b
  | JInt z => Ok (0 <? z)
  | JFloat q => Ok (negb (Qle_bool q 0))
  | _ => Raise (Exn "TypeError"
                  ("'>' not supported between instances of '" +:+ type_name v +:+ "' and 'int'"))
  end.

(** The values a [for] loop over [v] visits. *)
Definition iterate (v : json) : Res (list json) :=
  match v with
  | JList l => Ok l
  | JDict d => Ok (map (fun kv => JStr (fst kv)) d)
  | JStr s => Ok (map (fun c => JStr (String c EmptyString)) (String.list_ascii_of_string s))
  | _ => Raise (Exn "TypeError" ("'" +:+ type_name v +:+ "' object is not iterable"))
  end.

End Py.
Export Py.

(** ** [hashlib.sha256]

    SHA-256 (FIPS 180-4) over byte strings, words held as [Z] below [2^32].
    The round constants are derived the way the standard defines them, from
    the cube and square roots of the first primes. *)

Module Sha256.

Definition first_primes : list Z :=
  [2; 3; 5; 7; 11; 13; 17; 19; 23; 29; 31; 37; 41; 43; 47; 53;
   59; 61; 67; 71; 73; 79; 83; 89; 97; 101; 103; 107; 109; 113; 127; 131;
   137; 139; 149; 151; 157; 163; 167; 173; 179; 181; 191; 193; 197; 199; 211; 223;
   227; 229; 233; 239; 241; 251; 257; 263; 269; 271; 277; 281; 283; 293; 307; 311].

(** Integer cube root, one bit at a time from bit [k-1] down. *)
Fixpoint cube_root_bits (k : nat) (n acc : Z) : Z :=
  match k with
  | O => acc
  | S k' =>
      let cand := acc + 2 ^ Z.of_nat k' in
      cube_root_bits k' n (if cand * cand * cand <=? n then cand else acc)
  end.

Definition wrap32 (x : Z) : Z := x mod 2 ^ 32.

(** First 32 bits of the fractional part of the cube root of each of the
    64 primes. *)
Definition round_constants : list Z :=
  Eval vm_compute in
    map (fun p => wrap32 (cube_root_bits 40 (p * 2 ^ 96) 0)) first_primes.

(** First 32 bits of the fractional part of the square root of each of the
    first 8 primes. *)
Definition initial_hash : list Z :=
  Eval vm_compute in
    map (fun p => wrap32 (Z.sqrt (p * 2 ^ 64))) (firstn 8 first_primes).

Definition rotr (n x : Z) : Z :=
  Z.lor (Z.shiftr x n) (wrap32 (Z.shiftl x (32 - n))).

Definition choose (x y z : Z) : Z :=
  Z.lxor (Z.land x y) (Z.land (Z.lxor x (2 ^ 32 - 1)) z).
Definition majority (x y z : Z) : Z :=
  Z.lxor (Z.lxor (Z.land x y) (Z.land x z)) (Z.land y z).
Definition big_sigma0 (x : Z) : Z :=
  Z.lxor (Z.lxor (rotr 2 x) (rotr 13 x)) (rotr 22 x).
Definition big_sigma1 (x : Z) : Z :=
  Z.lxor (Z.lxor (rotr 6 x) (rotr 11 x)) (rotr 25 x).
Definition small_sigma0 (x : Z) : Z :=
  Z.lxor (Z.lxor (rotr 7 x) (rotr 18 x)) (Z.shiftr x 3).
Definition small_sigma1 (x : Z) : Z :=
  Z.lxor (Z.lxor (rotr 17 x) (rotr 19 x)) (Z.shiftr x 10).

Definition byte_val (b : Byte.byte) : Z := Z.of_N (Byte.to_N b).

(** Big-endian bytes of [x], [n] of them. *)
Fixpoint be_bytes (n : nat) (x : Z) : list Z :=
  match n with
  | O => []
  | S n' => (x / 2 ^ (8 * Z.of_nat n')) mod 256 :: be_bytes n' x
  end.

(** The message, a single 1 bit, zeros up to 56 mod 64 bytes, then the
    bit length on 8 bytes. *)
Definition pad (msg : list Byte.byte) : list Z :=
  let len := Z.of_nat (List.length msg) in
  let zeros := Z.to_nat ((55 - len) mod 64) in
  map byte_val msg ++ [128] ++ repeat 0 zeros ++ be_bytes 8 (8 * len).

Definition word_of_bytes (bs : list Z) : Z :=
  fold_left (fun acc b => acc * 256 + b) bs 0.

(** Cut [l] into consecutive pieces of [n] elements. *)
Fixpoint pieces {A} (fuel n : nat) (l : list A) : list (list A) :=
  match fuel with
  | O => []
  | S fuel' =>
      match l with
      | [] => []
      | _ => firstn n l :: pieces fuel' n (skipn n l)
      end
  end.

Definition block_words (block : list Z) : list Z :=
  map word_of_bytes (pieces 16 4 block).

(** Message schedule, newest word first: [rw] holds W(t-1), W(t-2), ... *)
Fixpoint schedule (k : nat) (rw : list Z) : list Z :=
  match k with
  | O => rw
  | S k' =>
      let w := wrap32 (small_sigma1 (nth 1 rw 0) + nth 6 rw 0
                       + small_sigma0 (nth 14 rw 0) + nth 15 rw 0) in
      schedule k' (w :: rw)
  end.

Definition round (st : list Z) (kw : Z * Z) : list Z :=
  match st with
  | [a; b; c; d; e; f; g; h] =>
      let t1 := h + big_sigma1 e + choose e f g + fst kw + snd kw in
      let t2 := big_sigma0 a + majority a b c in
      [wrap32 (t1 + t2); a; b; c; wrap32 (d + t1); e; f; g]
  | _ => st
  end.

Definition compress (hs : list Z) (block : list Z) : list Z :=
  let ws := rev (schedule 48 (rev (block_words block))) in
  let st := fold_left round (combine round_constants ws) hs in
  map (fun p => wrap32 (fst p + snd p)) (combine hs st).

Definition digest_words (msg : list Byte.byte) : list Z :=
  let padded := pad msg in
  fold_left compress (pieces (List.length padded) 64 padded) initial_hash.

Definition hex_digit (n : Z) : Ascii.ascii :=
  Ascii.ascii_of_N (Z.to_N (if n <? 10 then 48 + n else 87 + n)).

Definition hex_of_byte (b : Z) : list Ascii.ascii :=
  [hex_digit ((b / 16) mod 16); hex_digit (b mod 16)].

(** [hashlib.sha256(msg).hexdigest()] *)
Definition hexdigest (msg : list Byte.byte) : string :=
  String.string_of_list_ascii
    (flat_map hex_of_byte (flat_map (be_bytes 4) (digest_words msg))).

End Sha256.

(** ** Python floats

    A finite non-negative binary64 value is an integer multiple of [2^-1074]
    with a 53-bit significand; it is held as that multiple, so the order on
    floats is the order on [Z].  Only the operations of
    [int((downloaded / total_size) * 50)] are needed. *)

Module Float64.

(** Nearest integer to [n/d] ([d > 0]), ties to the even one. *)
Definition half_even (n d : Z) : Z :=
  let q := n / d in
  let r := n mod d in
  if 2 * r <? d then q
  else if d <? 2 * r then q + 1
  else if Z.even q then q else q + 1.

(** Nearest value with a 53-bit significand to [n/d] units ([n >= 0],
    [d > 0]), ties to even: between [2^(52+s)] and [2^(53+s)] the
    representable values are the multiples of [2^s]. *)
Definition round_units (n d : Z) : Z :=
  let s := Z.max 0 (Z.log2 (n / d) - 52) in
  half_even n (d * 2 ^ s) * 2 ^ s.


(** The binade of [n/d]: how many low bits the 53-bit significand drops. *)
Definition shift_of (n d : Z) : Z := Z.max 0 (Z.log2 (n / d) - 52).

(** [2^1024], the first value too large for a float, in units. *)
Definition overflow_threshold : Z := 2 ^ 2098.

(** One, in units. *)
Definition one : Z := 2 ^ 1074.

(** [a / b] on ints, [a >= 0], [b > 0]: the correctly rounded quotient, or
    [OverflowError]. *)
Definition int_truediv (a b : Z) : Res Z :=
  let r := round_units (a * one) b in
  if r <? overflow_threshold then Ok r
  else Raise (Exn "OverflowError" "integer division result too large for a float").

(** [x * k] for a float [x] and a small non-negative int [k]; [None] is
    [inf]. *)
Definition mul_int (x k : Z) : option Z :=
  let r := round_units (x * k) 1 in
  if r <? overflow_threshold then Some r else None.

(** [int(x)]: truncation; [inf] raises. *)
Definition to_int (x : option Z) : Res Z :=
  match x with
  | Some u => Ok (u / one)
  | None => Raise (Exn "OverflowError" "cannot convert float infinity to integer")
  end.

(** What [int((a / b) * 50)] evaluates to when nothing overflows. *)
Definition raw_progress (a b : Z) : Z :=
  round_units (round_units (a * one) b * 50) 1 / one.

End Float64.

(** ** The agent and the world around it *)

Module Agent.

(** The server endpoints the agent talks to, [f"{server_url}/api/v1/..."]. *)
Inductive Endpoint : Type :=
| EpDiscovery
| EpEnroll
| EpSystem
| EpHeartbeat
| EpTelemetry
| EpCommands
| EpLogs
| EpAck (command_id : json)
| EpUpdateStatus (update_id : json).

(** Calls that leave the process, in the order they are made. *)
Inductive Event : Type :=
| EvPost (ep : Endpoint) (body : json)          (* session.post(url, json=body) *)
| EvPut (ep : Endpoint) (body : json)           (* session.put(url, json=body) *)
| EvGet (ep : Endpoint)                         (* session.get(url) *)
| EvDownload (url : json)                       (* requests.get(url, stream=True) *)
| EvRun (argv : list string) (check : bool)     (* subprocess.run(argv, check=...) *)
| EvShell (script timeout : json)               (* subprocess.run(script, shell=True, ...) *)
| EvJournal (since : json)                      (* subprocess.check_output(journalctl) *)
| EvSleep (seconds : Z)                         (* time.sleep *)
| EvMakedirs (path : string)                    (* os.makedirs(path, exist_ok=True) *)
| EvOpen (path : string) (mode : string)        (* open(path, mode) *)
| EvWrite (path : string) (data : list Byte.byte)  (* f.write(data) *)
| EvChmod (path : string) (mode : Z)            (* os.chmod *)
| EvInstall (update_file : string)              (* _install_update entered *)
| EvThreadStart (target : string).              (* threading.Thread(...).start() *)

(** An HTTP response: status code, the message [raise_for_status] raises
    with when the code is an error, and what [response.json()] gives. *)
Record Response : Type := {
  status_code : Z;
  reason_text : string;
  json_body : Res json
}.

Inductive HttpResult : Type :=
| HttpFail (e : exn)              (* the request itself raised *)
| HttpDone (r : Response).

(** A streamed download: the headers, then the chunks [iter_content]
    yields, then possibly the exception that interrupts the stream. *)
Record Download : Type := {
  dl_status : Z;
  dl_reason : string;
  dl_content_length : option (Res Z);   (* int() of the header, when present *)
  dl_chunks : list (list Byte.byte);
  dl_broken : option exn
}.

Inductive DownloadResult : Type :=
| DlFail (e : exn)
| DlOpen (d : Download).

Inductive ProcResult : Type :=
| ProcFail (e : exn)              (* OSError, TimeoutExpired, TypeError, ... *)
| ProcExit (returncode : Z) (stdout stderr : string).

(** The Python runtime and the outside world.  Every answer may depend on
    everything the agent did before. *)
Record Env : Type := {
  py_str : json -> string;                          (* str(v), as in an f-string *)
  json_dumps : json -> list Byte.byte;              (* json.dump *)
  json_loads : list Byte.byte -> Res json;          (* json.load *)
  home : string;                                    (* os.path.expanduser('~') *)
  http : list Event -> Event -> HttpResult;
  download : list Event -> Event -> DownloadResult;
  proc : list Event -> Event -> ProcResult;
  os_fault : list Event -> Event -> option exn;     (* an OSError on a file operation *)
  called_process_error : Z -> string;               (* str(CalledProcessError) *)
  system_info : list Event -> json;                 (* _get_system_info() *)
  telemetry_metrics : list Event -> json;           (* _get_telemetry_metrics() *)
  utcnow : list Event -> string;                    (* datetime.utcnow().isoformat() *)
  uptime : list Event -> Z;                         (* int(time.time() - psutil.boot_time()) *)
  detected_hardware_id : string;                    (* _get_hardware_id() *)
  default_headers : gmap string json                (* headers of a fresh requests.Session() *)
}.

(** [AgentConfig] *)
Record AgentConfig : Type := {
  server_url : string;
  device_token : json;
  hardware_id : json;
  heartbeat_interval : Z;
  telemetry_interval : Z;
  command_poll_interval : Z;
  log_level : string;
  enrollment_token : json;
  device_type : string;
  ca_cert_path : json
}.

(** The agent object, the files it touches, and the trace of its calls. *)
Record St : Type := {
  config : AgentConfig;
  device_id : json;
  running : bool;
  command_queue : list string;              (* queue.Queue(): FIFO, no bound *)
  session_headers : gmap string json;
  fs : gmap string (list Byte.byte);
  trace : list Event
}.

Definition set_device_token (v : json) (c : AgentConfig) : AgentConfig :=
  {| server_url := server_url c; device_token := v; hardware_id := hardware_id c;
     heartbeat_interval := heartbeat_interval c;
     telemetry_interval := telemetry_interval c;
     command_poll_interval := command_poll_interval c;
     log_level := log_level c; enrollment_token := enrollment_token c;
     device_type := device_type c; ca_cert_path := ca_cert_path c |}.

Definition set_hardware_id (v : json) (c : AgentConfig) : AgentConfig :=
  {| server_url := server_url c; device_token := device_token c; hardware_id := v;
     heartbeat_interval := heartbeat_interval c;
     telemetry_interval := telemetry_interval c;
     command_poll_interval := command_poll_interval c;
     log_level := log_level c; enrollment_token := enrollment_token c;
     device_type := device_type c; ca_cert_path := ca_cert_path c |}.

Definition with_config (f : AgentConfig -> AgentConfig) (s : St) : St :=
  {| config := f (config s); device_id := device_id s; running := running s;
     command_queue := command_queue s; session_headers := session_headers s;
     fs := fs s; trace := trace s |}.
Definition with_device_id (v : json) (s : St) : St :=
  {| config := config s; device_id := v; running := running s;
     command_queue := command_queue s; session_headers := session_headers s;
     fs := fs s; trace := trace s |}.
Definition with_running (b : bool) (s : St) : St :=
  {| config := config s; device_id := device_id s; running := b;
     command_queue := command_queue s; session_headers := session_headers s;
     fs := fs s; trace := trace s |}.
Definition with_queue (q : list string) (s : St) : St :=
  {| config := config s; device_id := device_id s; running := running s;
     command_queue := q; session_headers := session_headers s;
     fs := fs s; trace := trace s |}.
Definition with_headers (h : gmap string json) (s : St) : St :=
  {| config := config s; device_id := device_id s; running := running s;
     command_queue := command_queue s; session_headers := h;
     fs := fs s; trace := trace s |}.
Definition with_fs (m : gmap string (list Byte.byte)) (s : St) : St :=
  {| config := config s; device_id := device_id s; running := running s;
     command_queue := command_queue s; session_headers := session_headers s;
     fs := m; trace := trace s |}.
Definition with_trace (t : list Event) (s : St) : St :=
  {| config := config s; device_id := device_id s; running := running s;
     command_queue := command_queue s; session_headers := session_headers s;
     fs := fs s; trace := t |}.

(** *** The monad of agent code *)

Definition M (A : Type) : Type := St -> Res A * St.

Definition ret {A} (a : A) : M A := fun s => (Ok a, s).
Definition raise {A} (e : exn) : M A := fun s => (Raise e, s).
Definition bind {A B} (m : M A) (k : A -> M B) : M B :=
  fun s =>
    match m s with
    | (Ok a, s') => k a s'
    | (Raise e, s') => (Raise e, s')
    end.
Definition lift {A} (r : Res A) : M A := fun s => (r, s).

(** [try: body except Exception as e: handler(e)] *)
Definition try_except {A} (body : M A) (handler : exn -> M A) : M A :=
  fun s =>
    match body s with
    | (Ok a, s') => (Ok a, s')
    | (Raise e, s') => handler e s'
    end.

Notation "'let*' x ':=' m 'in' k" := (bind m (fun x => k))
  (at level 10, x name, m at level 100, k at level 200).
Notation "m ';>' k" := (bind m (fun _ => k))
  (at level 100, k at level 200, right associativity).

(** The state after the calls [evs] were made and nothing else changed. *)
Definition extend (evs : list Event) (s : St) : St :=
  with_trace (trace s ++ evs) s.

Definition emit (ev : Event) : M unit :=
  fun s => (Ok tt, extend [ev] s).

Section Operations.

Variable env : Env.

(** *** Calls to the outside *)

Definition http_call (ev : Event) : M Response :=
  fun s =>
    let s' := extend [ev] s in
    match http env (trace s) ev with
    | HttpFail e => (Raise e, s')
    | HttpDone r => (Ok r, s')
    end.

(** [response.raise_for_status()] *)
Definition raise_for_status (code : Z) (reason : string) : M unit :=
  if (400 <=? code) && (code <? 600)
  then raise (Exn "HTTPError" reason)
  else ret tt.

Definition proc_call (ev : Event) : M (Z * string * string) :=
  fun s =>
    let s' := extend [ev] s in
    match proc env (trace s) ev with
    | ProcFail e => (Raise e, s')
    | ProcExit rc out err => (Ok (rc, out, err), s')
    end.

(** A process started with [check=True] (or by [check_output]) raises on a
    non-zero exit status. *)
Definition proc_call_checked (ev : Event) : M (Z * string * string) :=
  let* r := proc_call ev in
  if fst (fst r) =? 0 then ret r
  else raise (Exn "CalledProcessError" (called_process_error env (fst (fst r)))).

(** A file operation: recorded, and failed when the system says so. *)
Definition os_call (ev : Event) : M unit :=
  fun s =>
    let s' := extend [ev] s in
    match os_fault env (trace s) ev with
    | Some e => (Raise e, s')
    | None => (Ok tt, s')
    end.

(** [datetime.utcnow().isoformat()] *)
Definition clock : M string :=
  fun s => (Ok (utcnow env (trace s)), s).

(** [os.path.join(dir, name)]: an absolute [name] replaces [dir]. *)
Definition path_join (dir name : string) : string :=
  match name with
  | String "/"%char _ => name
  | _ => dir +:+ "/" +:+ name
  end.

Definition no_such_file (path : string) : exn :=
  Exn "FileNotFoundError" ("[Errno 2] No such file or directory: '" +:+ path +:+ "'").

(** [open(path, 'w')] / [open(path, 'wb')]: creates or truncates. *)
Definition open_write (path mode : string) : M unit :=
  os_call (EvOpen path mode) ;>
  fun s => (Ok tt, with_fs (<[path := []]> (fs s)) s).

(** [f.write(data)]: appends to what was written since the open. *)
Definition file_write (path : string) (data : list Byte.byte) : M unit :=
  os_call (EvWrite path data) ;>
  fun s =>
    (Ok tt, with_fs (<[path := default [] (fs s !! path) ++ data]> (fs s)) s).

(** [open(path, 'r')] / [open(path, 'rb')] and reading it all. *)
Definition open_read (path mode : string) : M (list Byte.byte) :=
  os_call (EvOpen path mode) ;>
  fun s =>
    match fs s !! path with
    | Some data => (Ok data, s)
    | None => (Raise (no_such_file path), s)
    end.

(** *** Reporting *)

Definition opt_field (k : string) (v : option string) : list (string * json) :=
  match v with
  | Some t => if truthy (JStr t) then [(k, JStr t)] else []
  | None => []
  end.

(** [_acknowledge_command]: the body posted is [status] plus each of
    [message], [result], [error] that is given and truthy; a failed post is
    swallowed. *)
Definition ack_data (status : string) (message : option string)
    (result : option json) (error : option string) : json :=
  JDict ([("status", JStr status)]
         ++ opt_field "message" message
         ++ match result with
            | Some r => if truthy r then [("result", r)] else []
            | None => []
            end
         ++ opt_field "error" error).

Definition _acknowledge_command (command_id : json) (status : string)
    (message : option string) (result : option json) (error : option string)
    : M unit :=
  try_except
    (let* r := http_call (EvPost (EpAck command_id)
                            (ack_data status message result error)) in
     raise_for_status (status_code r) (reason_text r))
    (fun _ => ret tt).

(** [_report_update_status]: [progress] is sent whenever it is not [None]
    (so [0] is sent), [error] when truthy. *)
Definition status_data (status : string) (progress : option Z)
    (error : option string) : json :=
  JDict ([("status", JStr status)]
         ++ match progress with
            | Some p => [("progress", JInt p)]
            | None => []
            end
         ++ opt_field "error" error).

Definition _report_update_status (update_id : json) (status : string)
    (progress : option Z) (error : option string) : M unit :=
  try_except
    (let* r := http_call (EvPost (EpUpdateStatus update_id)
                            (status_data status progress error)) in
     raise_for_status (status_code r) (reason_text r))
    (fun _ => ret tt).

(** *** OTA update *)

(** [int((downloaded / total_size) * 50)] *)
Definition download_progress (downloaded total_size : Z) : Res Z :=
  match Float64.int_truediv downloaded total_size with
  | Ok x => Float64.to_int (Float64.mul_int x 50)
  | Raise e => Raise e
  end.

Definition download_call (ev : Event) : M Download :=
  fun s =>
    let s' := extend [ev] s in
    match download env (trace s) ev with
    | DlFail e => (Raise e, s')
    | DlOpen d => (Ok d, s')
    end.

(** The body of [for chunk in r.iter_content(chunk_size=8192)]; returns
    the final [downloaded]. *)
Fixpoint download_chunks (update_id : json) (update_file : string)
    (total_size downloaded : Z) (chunks : list (list Byte.byte)) : M Z :=
  match chunks with
  | [] => ret downloaded
  | chunk :: rest =>
      file_write update_file chunk ;>
      let downloaded' := downloaded + Z.of_nat (List.length chunk) in
      (if 0 <? total_size then
         let* progress := lift (download_progress downloaded' total_size) in
         _report_update_status update_id "downloading" (Some progress) None
       else ret tt) ;>
      download_chunks update_id update_file total_size downloaded' rest
  end.

Definition _download_update (url update_id : json) : M string :=
  let update_dir := home env +:+ "/.fleetd/updates" in
  os_call (EvMakedirs update_dir) ;>
  let update_file := path_join update_dir (py_str env update_id +:+ ".bin") in
  let* r := download_call (EvDownload url) in
  raise_for_status (dl_status r) (dl_reason r) ;>
  let* total_size := lift (match dl_content_length r with
                           | Some v => v
                           | None => Ok 0
                           end) in
  open_write update_file "wb" ;>
  download_chunks update_id update_file total_size 0 (dl_chunks r) ;>
  match dl_broken r with
  | Some e => raise e
  | None => ret update_file
  end.

(** [iter(lambda: f.read(4096), b"")]: blocks of at most 4096 bytes until
    an empty read. *)
Definition read_size : nat := 4096.

Fixpoint read_blocks (fuel : nat) (data : list Byte.byte) : list (list Byte.byte) :=
  match fuel with
  | O => []
  | S fuel' =>
      match firstn read_size data with
      | [] => []
      | block => block :: read_blocks fuel' (skipn read_size data)
      end
  end.

(** The hash object is what it was fed so far; [hexdigest] hashes it. *)
Definition sha256_update (fed block : list Byte.byte) : list Byte.byte :=
  fed ++ block.

Definition _verify_checksum (file_path : string) (expected_checksum : json)
    : M bool :=
  let* data := open_read file_path "rb" in
  let fed := fold_left sha256_update (read_blocks (S (List.length data)) data) [] in
  let actual_checksum := Sha256.hexdigest fed in
  ret (eq_str expected_checksum actual_checksum).

(** [_install_update] is a placeholder: entering it is all it does. *)
Definition _install_update (update_file : string) : M unit :=
  emit (EvInstall update_file).

(** The [try] block of [_handle_update_command]. *)
Definition update_body (command_id payload update_id update_url checksum : json)
    : M unit :=
  _report_update_status update_id "downloading" (Some 0) None ;>
  let* update_file := _download_update update_url update_id in
  _report_update_status update_id "verifying" (Some 50) None ;>
  let* ok := _verify_checksum update_file checksum in
  if negb ok then raise (Exn "ValueError" "Checksum verification failed")
  else
    _report_update_status update_id "installing" (Some 75) None ;>
    _install_update update_file ;>
    _report_update_status update_id "completed" (Some 100) None ;>
    _acknowledge_command command_id "completed" None None None ;>
    let* reboot_required := lift (get payload "reboot_required" JNull) in
    if truthy reboot_required then
      emit (EvSleep 10) ;>
      let* _ := proc_call (EvRun ["sudo"; "reboot"] false) in
      ret tt
    else ret tt.

Definition _handle_update_command (command_id payload : json) : M unit :=
  let* update_id := lift (get payload "update_id" JNull) in
  let* update_url := lift (get payload "download_url" JNull) in
  let* checksum := lift (get payload "checksum" JNull) in
  try_except
    (update_body command_id payload update_id update_url checksum)
    (fun e =>
       _report_update_status update_id "failed" None (Some (exn_text e)) ;>
       _acknowledge_command command_id "failed" None None (Some (exn_text e))).

(** *** Log collection *)

Definition dquote : string := String (Ascii.ascii_of_nat 34) EmptyString.

(** ["..." + log_type] *)
Definition str_concat (prefix : string) (v : json) : Res string :=
  match v with
  | JStr s => Ok (prefix +:+ s)
  | _ => Raise (Exn "TypeError"
                  ("can only concatenate str (not " +:+ dquote +:+ type_name v
                   +:+ dquote +:+ ") to str"))
  end.

(** The [try] block of [_collect_and_upload_logs]. *)
Definition collect_logs_body (command_id payload : json) : M unit :=
  let* log_type := lift (get payload "log_type" (JStr "system")) in
  let* since := lift (get payload "since" (JStr "1h")) in
  let* logs :=
    (if eq_str log_type "system" then
       let* r := proc_call_checked (EvJournal since) in
       ret (snd (fst r))
     else lift (str_concat "Log collection not implemented for type: " log_type)) in
  let* now := clock in
  let* response :=
    http_call (EvPost EpLogs
      (JDict [("logs",
         JList [JDict [("timestamp", JStr (now +:+ "Z"));
                       ("level", JStr "info");
                       ("message", JStr logs)]])])) in
  raise_for_status (status_code response) (reason_text response) ;>
  _acknowledge_command command_id "completed" None None None.

Definition _collect_and_upload_logs (command_id payload : json) : M unit :=
  try_except
    (collect_logs_body command_id payload)
    (fun e => _acknowledge_command command_id "failed" None None (Some (exn_text e))).

(** *** Command executor *)

(** The [try] block of [_execute_command]. *)
Definition execute_body (command_id command_type payload : json) : M unit :=
  _acknowledge_command command_id "received" None None None ;>
  if eq_str command_type "reboot" then
    _acknowledge_command command_id "executing" None None None ;>
    let* _ := proc_call_checked (EvRun ["sudo"; "reboot"] true) in
    ret tt
  else if eq_str command_type "execute" then
    _acknowledge_command command_id "executing" None None None ;>
    let* script := lift (get payload "script" (JStr "")) in
    let* timeout := lift (get payload "timeout" (JInt 60)) in
    let* result := proc_call (EvShell script timeout) in
    let returncode := fst (fst result) in
    _acknowledge_command command_id
      (if returncode =? 0 then "completed" else "failed")
      None
      (Some (JDict [("stdout", JStr (snd (fst result)));
                    ("stderr", JStr (snd result));
                    ("returncode", JInt returncode)]))
      None
  else if eq_str command_type "update" then
    _handle_update_command command_id payload
  else if eq_str command_type "collect_logs" then
    _collect_and_upload_logs command_id payload
  else
    _acknowledge_command command_id "failed" None None
      (Some ("Unknown command type: " +:+ py_str env command_type)).

Definition _execute_command (command : json) : M unit :=
  let* command_id := lift (getitem command "id") in
  let* command_type := lift (getitem command "command") in
  let* payload := lift (get command "payload" (JDict [])) in
  try_except
    (execute_body command_id command_type payload)
    (fun e => _acknowledge_command command_id "failed" None None (Some (exn_text e))).

(** [for command in commands: self._execute_command(command)] *)
Fixpoint execute_all (commands : list json) : M unit :=
  match commands with
  | [] => ret tt
  | command :: rest => _execute_command command ;> execute_all rest
  end.

Definition poll_commands : M unit :=
  try_except
    (let* response := http_call (EvGet EpCommands) in
     if status_code response =? 204 then ret tt
     else
       raise_for_status (status_code response) (reason_text response) ;>
       let* body := lift (json_body response) in
       let* commands := lift (get body "commands" (JList [])) in
       let* items := lift (iterate commands) in
       execute_all items)
    (fun _ => ret tt).

(** *** Heartbeat and telemetry *)

(** [self.command_queue.put(item)] on an unbounded [Queue]: always
    appends, never blocks. *)
Definition queue_put (item : string) : M unit :=
  fun s => (Ok tt, with_queue (command_queue s ++ [item]) s).

Definition send_heartbeat : M bool :=
  try_except
    (let* now := clock in
     let* up := (fun s => (Ok (uptime env (trace s)), s)) in
     let heartbeat_data :=
       JDict [("timestamp", JStr (now +:+ "Z")); ("uptime", JInt up);
              ("status", JStr "idle"); ("version", JStr "1.0.0")] in
     let* response := http_call (EvPost EpHeartbeat heartbeat_data) in
     raise_for_status (status_code response) (reason_text response) ;>
     let* result := lift (json_body response) in
     let* pending := lift (get result "pending_commands" (JInt 0)) in
     let* positive := lift (gt_zero pending) in
     (if positive then queue_put "poll_commands" else ret tt) ;>
     ret true)
    (fun _ => ret false).

Definition send_telemetry : M bool :=
  try_except
    (let* now := clock in
     let* metrics := (fun s => (Ok (telemetry_metrics env (trace s)), s)) in
     let* response :=
       http_call (EvPost EpTelemetry
         (JDict [("device_time", JStr (now +:+ "Z")); ("metrics", metrics)])) in
     raise_for_status (status_code response) (reason_text response) ;>
     ret true)
    (fun _ => ret false).

(** *** Credentials and enrollment *)

Definition credentials_dir : string := home env +:+ "/.fleetd".
Definition credentials_file : string := credentials_dir +:+ "/credentials.json".

Definition set_credentials (id token : json) : M unit :=
  fun s =>
    (Ok tt,
     with_headers (<["X-Device-Token" := token]> (session_headers s))
       (with_config (set_device_token token) (with_device_id id s))).

Definition _save_credentials (enrollment_data : json) : M unit :=
  os_call (EvMakedirs credentials_dir) ;>
  open_write credentials_file "w" ;>
  let* id := lift (getitem enrollment_data "device_id") in
  let* token := lift (getitem enrollment_data "device_token") in
  let* fleet := lift (get enrollment_data "fleet_id" JNull) in
  let* now := clock in
  file_write credentials_file
    (json_dumps env (JDict [("device_id", id); ("device_token", token);
                            ("fleet_id", fleet); ("enrolled_at", JStr now)])) ;>
  os_call (EvChmod credentials_file 384).

Definition _load_credentials : M bool :=
  fun s =>
    match fs s !! credentials_file with
    | None => (Ok false, s)
    | Some _ =>
        try_except
          (let* data := open_read credentials_file "r" in
           let* credentials := lift (json_loads env data) in
           let* id := lift (getitem credentials "device_id") in
           (fun s1 => (Ok tt, with_device_id id s1)) ;>
           let* token := lift (getitem credentials "device_token") in
           (fun s1 => (Ok tt,
              with_headers (<["X-Device-Token" := token]> (session_headers s1))
                (with_config (set_device_token token) s1))) ;>
           ret true)
          (fun _ => ret false) s
    end.

(** The body of the enrollment request. *)
Definition enrollment_data (cfg : AgentConfig) (metadata : json) : json :=
  JDict ([("hardware_id", hardware_id cfg);
          ("device_type", JStr (device_type cfg));
          ("capabilities", JList [JStr "telemetry"; JStr "remote_command";
                                  JStr "ota_update"; JStr "log_upload"]);
          ("metadata", metadata)]
         ++ (if truthy (enrollment_token cfg)
             then [("enrollment_token", enrollment_token cfg)] else [])).

Definition enroll : M bool :=
  try_except
    (let* cfg := (fun s => (Ok (config s), s)) in
     let* metadata := (fun s => (Ok (system_info env (trace s)), s)) in
     let* response := http_call (EvPost EpEnroll (enrollment_data cfg metadata)) in
     if status_code response =? 409 then ret true
     else
       raise_for_status (status_code response) (reason_text response) ;>
       let* enrollment_response := lift (json_body response) in
       let* id := lift (getitem enrollment_response "device_id") in
       (fun s => (Ok tt, with_device_id id s)) ;>
       let* token := lift (getitem enrollment_response "device_token") in
       (fun s => (Ok tt,
          with_headers (<["X-Device-Token" := token]> (session_headers s))
            (with_config (set_device_token token) s))) ;>
       _save_credentials enrollment_response ;>
       ret true)
    (fun _ => ret false).

(** *** Startup *)

(** [start] up to the point where the three threads run; [false] is the
    early [return False], [true] means the duties were started (the main
    thread then sleeps until [stop]). *)
Definition start : M bool :=
  let* loaded := _load_credentials in
  let* enrolled := (if negb loaded then enroll else ret true) in
  if negb enrolled then ret false
  else
    try_except
      (let* info := (fun s => (Ok (system_info env (trace s)), s)) in
       let* response := http_call (EvPut EpSystem info) in
       raise_for_status (status_code response) (reason_text response))
      (fun _ => ret tt) ;>
    (fun s => (Ok tt, with_running true s)) ;>
    emit (EvThreadStart "_heartbeat_loop") ;>
    emit (EvThreadStart "_telemetry_loop") ;>
    emit (EvThreadStart "_command_loop") ;>
    ret true.

(** *** Construction *)

(** [FleetDeviceAgent.__init__], on a machine whose files are [files].
    ([session.verify], set from [ca_cert_path], only configures TLS and is
    not part of the state.) *)
Definition init (cfg : AgentConfig) (files : gmap string (list Byte.byte)) : St :=
  let cfg' := if truthy (hardware_id cfg) then cfg
              else set_hardware_id (JStr (detected_hardware_id env)) cfg in
  {| config := cfg';
     device_id := JNull;
     running := false;
     command_queue := [];
     session_headers :=
       if truthy (device_token cfg)
       then <["X-Device-Token" := device_token cfg]> (default_headers env)
       else default_headers env;
     fs := files;
     trace := [] |}.

(** *** The three duty threads

    The threads share the agent object.  An interleaving is a list of
    actions: one iteration of the heartbeat or telemetry loop, or, for the
    command loop, first its [command_queue.get(timeout=...)] and then its
    [poll_commands()].  While the command loop is between the two it is
    busy, and the other threads keep running. *)

Inductive Poller : Type := Waiting | Busy.

Record Sys : Type := { agent : St; poller : Poller }.

Inductive Action : Type :=
| ActHeartbeat      (* _heartbeat_loop: send_heartbeat() *)
| ActTelemetry      (* _telemetry_loop: send_telemetry() *)
| ActGet            (* _command_loop: get() returns an item, or Empty after the timeout *)
| ActPoll.          (* _command_loop: poll_commands() *)

(** [self.command_queue.get(timeout=...)]: takes the oldest item if there
    is one; otherwise [Empty] is raised after the timeout (and passed). *)
Definition queue_get (s : St) : St :=
  match command_queue s with
  | [] => s
  | _ :: rest => with_queue rest s
  end.

(** One action; [None] when the thread cannot take it: [while self.running]
    has stopped the loop, or the command loop is in its other phase. *)
Definition step (a : Action) (y : Sys) : option Sys :=
  match a, poller y with
  | ActHeartbeat, p =>
      if running (agent y)
      then Some {| agent := snd (send_heartbeat (agent y)); poller := p |}
      else None
  | ActTelemetry, p =>
      if running (agent y)
      then Some {| agent := snd (send_telemetry (agent y)); poller := p |}
      else None
  | ActGet, Waiting =>
      if running (agent y)
      then Some {| agent := queue_get (agent y); poller := Busy |}
      else None
  | ActPoll, Busy =>
      Some {| agent := snd (poll_commands (agent y)); poller := Waiting |}
  | _, _ => None
  end.

Fixpoint run (acts : list Action) (y : Sys) : option Sys :=
  match acts with
  | [] => Some y
  | a :: rest =>
      match step a y with
      | Some y' => run rest y'
      | None => None
      end
  end.

End Operations.

(** *** What a trace shows *)

(** The first two acknowledgments of a command. *)
Definition received (id : json) : Event :=
  EvPost (EpAck id) (JDict [("status", JStr "received")]).
Definition executing (id : json) : Event :=
  EvPost (EpAck id) (JDict [("status", JStr "executing")]).

(** An update-status post and an acknowledgment post. *)
Definition report (update_id : json) (status : string) (progress : option Z)
    (error : option string) : Event :=
  EvPost (EpUpdateStatus update_id) (status_data status progress error).
Definition ack (command_id : json) (status : string) (error : option string) : Event :=
  EvPost (EpAck command_id) (ack_data status None None error).

(** What a successful download is followed by, and what a successful
    verification is followed by. *)
Definition after_download (uid : json) (file : string) : list Event :=
  [report uid "verifying" (Some 50) None; EvOpen file "rb"].

Definition after_verify (id uid : json) (file : string) : list Event :=
  [report uid "installing" (Some 75) None; EvInstall file;
   report uid "completed" (Some 100) None; ack id "completed" None].

(** The two posts of the [except] block of the update handler. *)
Definition closing (id uid : json) (e : exn) : list Event :=
  [report uid "failed" None (Some (exn_text e)); ack id "failed" (Some (exn_text e))].

(** The status of an acknowledgment post. *)
Definition ack_status_of (ev : Event) : option string :=
  match ev with
  | EvPost (EpAck _) (JDict (("status", JStr st) :: _)) => Some st
  | _ => None
  end.

Definition acks (tr : list Event) : list string := omap ack_status_of tr.

(** The status and progress of an update-status post. *)
Definition report_of (ev : Event) : option (string * option Z) :=
  match ev with
  | EvPost (EpUpdateStatus _) (JDict (("status", JStr st) :: rest)) =>
      Some (st, match rest with
                | ("progress", JInt p) :: _ => Some p
                | _ => None
                end)
  | _ => None
  end.

Definition reports (tr : list Event) : list (string * option Z) :=
  omap report_of tr.

Definition is_terminal (status : string) : bool :=
  String.eqb status "completed" || String.eqb status "failed".

(** The progress values reported up to and including the first terminal
    report. *)
Fixpoint progress_until_terminal (rs : list (string * option Z)) : list Z :=
  match rs with
  | [] => []
  | (st, p) :: rest =>
      match p with Some v => [v] | None => [] end
      ++ (if is_terminal st then [] else progress_until_terminal rest)
  end.

Fixpoint nondecreasing (l : list Z) : bool :=
  match l with
  | x :: ((y :: _) as rest) => (x <=? y) && nondecreasing rest
  | _ => true
  end.

Definition is_install (ev : Event) : bool :=
  match ev with EvInstall _ => true | _ => false end.

Definition is_file_write (ev : Event) : bool :=
  match ev with
  | EvOpen _ "w" | EvOpen _ "wb" | EvWrite _ _ | EvChmod _ _ | EvMakedirs _ => true
  | _ => false
  end.

Definition is_chunk_write (ev : Event) : bool :=
  match ev with EvWrite _ _ => true | _ => false end.

(** The bytes written to [path], in order. *)
Definition written_to (path : string) (tr : list Event) : list Byte.byte :=
  concat (omap (fun ev => match ev with
                          | EvWrite p data => if String.eqb p path then Some data else None
                          | _ => None
                          end) tr).

(** From [s] to [s'] the calls [evs] were made, files may have changed,
    and nothing else did. *)
Definition grows (s s' : St) (evs : list Event) : Prop :=
  s' = with_fs (fs s') (extend evs s).

Definition is_ok {A} (r : Res A) : bool :=
  match r with Ok _ => true | Raise _ => false end.

(** The calls made between state [s] and the later state [s']. *)
Definition new_events (s s' : St) : list Event :=
  drop (List.length (trace s)) (trace s').

(** Where [_download_update] stores the artifact of [update_id]. *)
Definition update_path (env : Env) (update_id : json) : string :=
  path_join (home env +:+ "/.fleetd/updates") (py_str env update_id +:+ ".bin").

(** Every request is answered without error, with a body that reports
    pending commands. *)
Definition always_pending (env : Env) : Prop :=
  forall hist ev,
    exists r body pending,
      http env hist ev = HttpDone r
      /\ (400 <=? status_code r) && (status_code r <? 600) = false
      /\ json_body r = Ok body
      /\ get body "pending_commands" (JInt 0) = Ok pending
      /\ gt_zero pending = Ok true.

(** The enrollment post made from state [s]. *)
Definition enroll_post (env : Env) (s : St) : Event :=
  EvPost EpEnroll (enrollment_data (config s) (system_info env (trace s))).

(** What [start] does after enrollment succeeded: the inventory push and
    the three threads. *)
Definition startup_tail (env : Env) (hist : list Event) : list Event :=
  [EvPut EpSystem (system_info env hist);
   EvThreadStart "_heartbeat_loop"; EvThreadStart "_telemetry_loop";
   EvThreadStart "_command_loop"].

(** The bytes taken from a stream in the calls [evs]: every chunk the
    download loop takes is passed to [f.write]. *)
Definition bytes_received (evs : list Event) : Z :=
  Z.of_nat (List.length (concat (omap (fun ev => match ev with
                                                 | EvWrite _ data => Some data
                                                 | _ => None
                                                 end) evs))).

(** In the calls [evs], made after [hist], the bytes received after a
    download request never exceed the content-length announced for it.
    Nothing is asked of a request that fails, or that announces no length,
    an unreadable one, or one that is not positive. *)
Fixpoint within_announced_length (env : Env) (hist evs : list Event) : bool :=
  match evs with
  | [] => true
  | ev :: rest =>
      match ev with
      | EvDownload _ =>
          match download env hist ev with
          | DlOpen d =>
              match dl_content_length d with
              | Some (Ok n) => (n <=? 0) || (bytes_received rest <=? n)
              | _ => true
              end
          | DlFail _ => true
          end
      | _ => true
      end
      && within_announced_length env (hist ++ [ev]) rest
  end.

(** [c.lower()] on ASCII. *)
Definition lower_char (c : ascii) : ascii :=
  let n := Ascii.nat_of_ascii c in
  if (Nat.leb 65 n && Nat.leb n 90)%bool then Ascii.ascii_of_nat (n + 32) else c.

Fixpoint lower (s : string) : string :=
  match s with
  | EmptyString => EmptyString
  | String c rest => String (lower_char c) (lower rest)
  end.

(** *** Shutdown *)

(** [stop]: clears the flag the three loops test. *)
Definition stop : M unit :=
  fun s => (Ok tt, with_running false s).

(** *** Frames *)

(** Agent code that only makes calls and changes files: it leaves the
    configuration, the device id, the flag, the queue and the session
    headers alone, whether it returns or raises. *)
Definition frames {A} (m : M A) : Prop :=
  forall s, exists evs, grows s (snd (m s)) evs.

(** The fields the duties read but are not meant to write. *)
Definition identity (s : St) : AgentConfig * json * bool * gmap string json :=
  (config s, device_id s, running s, session_headers s).

(** A command descriptor the executor can look into. *)
Definition has_id_and_type (command : json) : bool :=
  is_ok (getitem command "id") && is_ok (getitem command "command").

Definition is_thread_start (ev : Event) : bool :=
  match ev with EvThreadStart _ => true | _ => false end.

(** Agent code every run of which relates the state before to the state
    after by [R]. *)
Definition preserves {A} (R : St -> St -> Prop) (m : M A) : Prop :=
  forall s, R s (snd (m s)).

(** Before the duties run: the flag and the queue are untouched and no
    thread was started. *)
Definition before_duties (s s' : St) : Prop :=
  running s' = running s
  /\ command_queue s' = command_queue s
  /\ exists evs, trace s' = trace s ++ evs
                 /\ Forall (fun ev => is_thread_start ev = false) evs.

(** No file operation ever fails. *)
Definition no_faults (env : Env) : Prop :=
  forall hist ev, os_fault env hist ev = None.

(** What [_save_credentials] writes for an enrollment response. *)
Definition credentials_record (id token fleet : json) (now : string) : json :=
  JDict [("device_id", id); ("device_token", token);
         ("fleet_id", fleet); ("enrolled_at", JStr now)].

Definition is_journal (ev : Event) : bool :=
  match ev with EvJournal _ => true | _ => false end.

(** *** Failures *)

(** The exception a call raises where it is made: the exception with
    which the request, the process or the file operation [ev], made after
    [hist], fails, or [None] when it returns.  A process started with
    [check=True] or by [check_output] also fails on a non-zero exit status,
    a download and the upload of logs also on an error status
    ([raise_for_status]), a download also on a content-length that [int]
    rejects.  The posts of [_acknowledge_command] and
    [_report_update_status] never fail where they are made: those two
    functions swallow their own exceptions. *)
Definition call_failure (env : Env) (hist : list Event) (ev : Event) : option exn :=
  match ev with
  | EvShell _ _ | EvRun _ false =>
      match proc env hist ev with
      | ProcFail e => Some e
      | ProcExit _ _ _ => None
      end
  | EvRun _ true | EvJournal _ =>
      match proc env hist ev with
      | ProcFail e => Some e
      | ProcExit rc _ _ =>
          if rc =? 0 then None
          else Some (Exn "CalledProcessError" (called_process_error env rc))
      end
  | EvMakedirs _ | EvOpen _ _ | EvWrite _ _ | EvChmod _ _ => os_fault env hist ev
  | EvDownload _ =>
      match download env hist ev with
      | DlFail e => Some e
      | DlOpen d =>
          if (400 <=? dl_status d) && (dl_status d <? 600)
          then Some (Exn "HTTPError" (dl_reason d))
          else match dl_content_length d with
               | Some (Raise e) => Some e
               | _ => None
               end
      end
  | EvPost EpLogs _ =>
      match http env hist ev with
      | HttpFail e => Some e
      | HttpDone r =>
          if (400 <=? status_code r) && (status_code r <? 600)
          then Some (Exn "HTTPError" (reason_text r))
          else None
      end
  | _ => None
  end.

(** Agent code that contains the failures of its calls: when a call it
    makes fails with [e], either the code raises [e] at once, or it returns
    normally and the calls it made after the failing one are [good] for
    [e]. *)
Definition contains {A} (env : Env) (good : exn -> list Event -> Prop) (m : M A)
    : Prop :=
  forall s, exists evs,
    trace (snd (m s)) = trace s ++ evs
    /\ forall before ev after e,
         evs = before ++ ev :: after ->
         call_failure env (trace s ++ before) ev = Some e ->
         (fst (m s) = Raise e /\ after = [])
         \/ (is_ok (fst (m s)) = true /\ good e after).

(** Code that stops at the first call that fails. *)
Definition stops {A} (env : Env) (m : M A) : Prop :=
  contains env (fun _ _ => False) m.

(** A call that never fails where it is made. *)
Definition never_fails (env : Env) (ev : Event) : Prop :=
  forall hist, call_failure env hist ev = None.

(** What answers a failing call of a command: the acknowledgment of the
    command as failed, built with the text of the exception; for an update
    job the failed update-status report comes before it. *)
Definition answered (id : json) (e : exn) (after : list Event) : Prop :=
  after = [ack id "failed" (Some (exn_text e))]
  \/ exists uid, after = closing id uid e.

(** *** Hardware id *)

(** ['{:02x}'.format(v)] for a byte [v]. *)
Definition hex2 (v : Z) : string :=
  String (Sha256.hex_digit (v / 16)) (String (Sha256.hex_digit (v mod 16)) EmptyString).

(** [sep.join(parts)] *)
Fixpoint join (sep : string) (parts : list string) : string :=
  match parts with
  | [] => EmptyString
  | [part] => part
  | part :: rest => part +:+ sep +:+ join sep rest
  end.

(** [[(node >> ele) & 0xff for ele in range(0, 8*6, 8)][::-1]] *)
Definition mac_octets (node : Z) : list Z :=
  rev (map (fun ele => Z.land (Z.shiftr node ele) 255) [0; 8; 16; 24; 32; 40]).

(** The fallback of [_get_hardware_id]: the MAC address of
    [uuid.getnode()]. *)
Definition mac_address (node : Z) : string :=
  join ":" (map hex2 (mac_octets node)).

(** [c.isspace()] for a character below 256. *)
Definition is_space (c : ascii) : bool :=
  let n := Z.of_nat (Ascii.nat_of_ascii c) in
  ((9 <=? n) && (n <=? 13)) || ((28 <=? n) && (n <=? 32)) || (n =? 133) || (n =? 160).

Fixpoint lstrip (s : string) : string :=
  match s with
  | EmptyString => EmptyString
  | String c rest => if is_space c then lstrip rest else s
  end.

Definition reverse (s : string) : string :=
  String.string_of_list_ascii (rev (String.list_ascii_of_string s)).

(** [s.strip()] *)
Definition strip (s : string) : string :=
  reverse (lstrip (reverse (lstrip s))).

(** [s.split(sep)] for a one-character separator. *)
Fixpoint split (sep : ascii) (s : string) : list string :=
  match s with
  | EmptyString => [EmptyString]
  | String c rest =>
      if Ascii.eqb c sep then EmptyString :: split sep rest
      else match split sep rest with
           | piece :: pieces => String c piece :: pieces
           | [] => [String c EmptyString]
           end
  end.

(** The loop over the lines of /proc/cpuinfo: the first line that starts
    with "Serial" decides; [None] when there is none, or when that line has
    no colon (the IndexError is swallowed by the bare [except]). *)
Fixpoint scan_cpuinfo (lines : list string) : option string :=
  match lines with
  | [] => None
  | line :: rest =>
      if String.prefix "Serial" line then
        match split ":" line with
        | _ :: value :: _ => Some (strip value)
        | _ => None
        end
      else scan_cpuinfo rest
  end.

(** [_get_hardware_id], given the lines of /proc/cpuinfo ([None] when the
    file cannot be read) and [uuid.getnode()]. *)
Definition _get_hardware_id (cpuinfo : option (list string)) (node : Z) : string :=
  match cpuinfo with
  | Some lines =>
      match scan_cpuinfo lines with
      | Some serial => serial
      | None => mac_address node
      end
  | None => mac_address node
  end.

End Agent.

(** ** Concrete scenarios *)

Module Scenario.
Import Agent.

(** [str()] of the values that occur below: strings, [None], booleans. *)
Definition str_of (v : json) : string :=
  match v with
  | JNull => "None"
  | JBool true => "True"
  | JBool false => "False"
  | JStr s => s
  | _ => "<" +:+ type_name v +:+ ">"
  end.

Definition ok_response (body : json) : Response :=
  {| status_code := 200; reason_text := "OK"; json_body := Ok body |}.

(** A world where every request answers [r], every download is [d], every
    process gives [p], and no file operation fails. *)
Definition world (r : Response) (d : DownloadResult) (p : ProcResult) : Env :=
  {| py_str := str_of;
     json_dumps := fun _ => [];
     json_loads := fun _ => Raise (Exn "JSONDecodeError" "Expecting value");
     home := "/home/pi";
     http := fun _ _ => HttpDone r;
     download := fun _ _ => d;
     proc := fun _ _ => p;
     os_fault := fun _ _ => None;
     called_process_error := fun _ => "Command returned non-zero exit status.";
     system_info := fun _ => JDict [];
     telemetry_metrics := fun _ => JList [];
     utcnow := fun _ => "2024-01-01T00:00:00";
     uptime := fun _ => 1;
     detected_hardware_id := "00000000deadbeef";
     default_headers := ∅ |}.

(** The configuration [main] builds: [device_token] and [hardware_id] are
    left at their default [None]. *)
Definition main_config (url : string) (token : json) (hb tm : Z) (level : string)
    : AgentConfig :=
  {| server_url := url; device_token := JNull; hardware_id := JNull;
     heartbeat_interval := hb; telemetry_interval := tm;
     command_poll_interval := 10; log_level := level;
     enrollment_token := token; device_type := "raspberry-pi";
     ca_cert_path := JNull |}.

Definition config0 : AgentConfig :=
  main_config "https://devices.fleet.yourdomain.com" JNull 60 30 "INFO".

Definition no_download : DownloadResult :=
  DlFail (Exn "ConnectionError" "connection refused").
Definition exit0 : ProcResult := ProcExit 0 "" "".

(** A server that answers every request with [pending_commands: 1]. *)
Definition busy_world : Env :=
  world (ok_response (JDict [("pending_commands", JInt 1)])) no_download exit0.

(** A server that answers every request with 409 Conflict. *)
Definition conflict_world : Env :=
  world {| status_code := 409; reason_text := "409 Client Error: Conflict";
           json_body := Ok (JDict [("error", JStr "already enrolled")]) |}
        no_download exit0.

(** A download of [chunks] announced as [announced] bytes. *)
Definition download_world (announced : option Z) (chunks : list (list Byte.byte))
    : Env :=
  world (ok_response (JDict []))
        (DlOpen {| dl_status := 200; dl_reason := "OK";
                   dl_content_length := option_map Ok announced;
                   dl_chunks := chunks; dl_broken := None |})
        exit0.

(** A world whose server answers every request with [r], whose
    [json.dump] writes [{}] and whose [json.load] finds [stored]. *)
Definition enrolling_world (r : Response) (stored : json) : Env :=
  {| py_str := str_of;
     json_dumps := fun _ => [Byte.x7b; Byte.x7d];
     json_loads := fun _ => Ok stored;
     home := "/home/pi";
     http := fun _ _ => HttpDone r;
     download := fun _ _ => no_download;
     proc := fun _ _ => exit0;
     os_fault := fun _ _ => None;
     called_process_error := fun _ => "Command returned non-zero exit status.";
     system_info := fun _ => JDict [];
     telemetry_metrics := fun _ => JList [];
     utcnow := fun _ => "2024-01-01T00:00:00";
     uptime := fun _ => 1;
     detected_hardware_id := "00000000deadbeef";
     default_headers := ∅ |}.

(** The answer to a first enrollment. *)
Definition enrolled_response : Response :=
  ok_response (JDict [("device_id", JStr "dev-7"); ("device_token", JStr "tok-7")]).

Definition state0 (env : Env) : St := init env config0 ∅.

Definition five_bytes : list Byte.byte :=
  [Byte.x00; Byte.x01; Byte.x02; Byte.x03; Byte.x04].

(** The same five bytes in two chunks, announced as ten. *)
Definition two_chunks : list (list Byte.byte) :=
  [[Byte.x00; Byte.x01; Byte.x02]; [Byte.x03; Byte.x04]].

Definition update_payload (checksum : string) : json :=
  JDict [("update_id", JStr "u1");
         ("download_url", JStr "https://cdn/u1.bin");
         ("checksum", JStr checksum)].

(** SHA-256 of [five_bytes], as [hexdigest] prints it and in upper case. *)
Definition digest_lower : string :=
  "08bb5e5d6eaac1049ede0893d30ed022b1a4d9b5b48db414871f51c9cb35283d".
Definition digest_upper : string :=
  "08BB5E5D6EAAC1049EDE0893D30ED022B1A4D9B5B48DB414871F51C9CB35283D".

Definition update_command (checksum : string) : json :=
  JDict [("id", JStr "c1"); ("command", JStr "update");
         ("payload", update_payload checksum)].

End Scenario.

(** * Properties *)

(** ** Rounding to a float is monotone *)

Module FloatFacts.
Import Float64.

Lemma floor_mono (n1 d1 n2 d2 : Z) :
  0 < d1 -> 0 < d2 -> n1 * d2 <= n2 * d1 -> n1 / d1 <= n2 / d2.
Proof.
  intros H1 H2 H.
  apply Z.div_le_lower_bound; [lia |].
  pose proof (Z.mul_div_le n1 d1 H1).
  nia.
Qed.

Lemma half_even_choice (n d : Z) :
  half_even n d = n / d \/ half_even n d = n / d + 1.
Proof.
  unfold half_even.
  destruct (2 * (n mod d) <? d); [by left |].
  destruct (d <? 2 * (n mod d)); [by right |].
  destruct (Z.even (n / d)); [left | right]; reflexivity.
Qed.

Lemma half_even_mono (n1 d1 n2 d2 : Z) :
  0 < d1 -> 0 < d2 -> n1 * d2 <= n2 * d1 ->
  half_even n1 d1 <= half_even n2 d2.
Proof.
  intros H1 H2 H.
  pose proof (floor_mono n1 d1 n2 d2 H1 H2 H) as Hq.
  destruct (Z.eq_dec (n1 / d1) (n2 / d2)) as [Heq | Hne].
  - pose proof (Z.div_mod n1 d1 ltac:(lia)) as E1.
    pose proof (Z.div_mod n2 d2 ltac:(lia)) as E2.
    pose proof (Z.mod_pos_bound n1 d1 H1) as B1.
    pose proof (Z.mod_pos_bound n2 d2 H2) as B2.
    assert (Hr : (n1 mod d1) * d2 <= (n2 mod d2) * d1) by nia.
    unfold half_even. rewrite <- Heq.
    destruct (Z.ltb_spec (2 * (n1 mod d1)) d1) as [L1 | L1].
    + destruct (2 * (n2 mod d2) <? d2); [lia |].
      destruct (d2 <? 2 * (n2 mod d2)); [lia |].
      destruct (Z.even (n1 / d1)); lia.
    + assert (G2 : d2 <= 2 * (n2 mod d2)) by nia.
      destruct (Z.ltb_spec (2 * (n2 mod d2)) d2) as [L2 | L2]; [lia |].
      destruct (Z.ltb_spec d2 (2 * (n2 mod d2))) as [M2 | M2].
      * destruct (d1 <? 2 * (n1 mod d1)); [lia |].
        destruct (Z.even (n1 / d1)); lia.
      * assert (T1 : 2 * (n1 mod d1) <= d1) by nia.
        destruct (Z.ltb_spec d1 (2 * (n1 mod d1))) as [M1 | M1]; [lia |].
        destruct (Z.even (n1 / d1)); lia.
  - destruct (half_even_choice n1 d1), (half_even_choice n2 d2); lia.
Qed.

Lemma half_even_exact (k d : Z) : 0 < d -> half_even (k * d) d = k.
Proof.
  intros H. unfold half_even.
  rewrite Z.div_mul by lia. rewrite Z.mod_mul by lia.
  destruct (Z.ltb_spec (2 * 0) d); [reflexivity | lia].
Qed.

Lemma half_even_le (n d k : Z) : 0 < d -> n <= k * d -> half_even n d <= k.
Proof.
  intros H Hn. rewrite <- (half_even_exact k d H).
  apply half_even_mono; nia.
Qed.

Lemma half_even_ge (n d k : Z) : 0 < d -> k * d <= n -> k <= half_even n d.
Proof.
  intros H Hn. rewrite <- (half_even_exact k d H).
  apply half_even_mono; nia.
Qed.

Lemma quotient_below_binade (n d : Z) :
  0 <= n -> 0 < d -> n < 2 ^ (shift_of n d + 53) * d.
Proof.
  intros Hn Hd. unfold shift_of.
  assert (Hq : 0 <= n / d) by (apply Z.div_pos; lia).
  assert (Hlt : n / d < 2 ^ (Z.max 0 (Z.log2 (n / d) - 52) + 53)).
  { destruct (Z.eq_dec (n / d) 0) as [-> | Hnz].
    - apply Z.pow_pos_nonneg; lia.
    - pose proof (Z.log2_spec (n / d) ltac:(lia)) as [_ Hup].
      eapply Z.lt_le_trans; [exact Hup |].
      apply Z.pow_le_mono_r; lia. }
  pose proof (Z.div_mod n d ltac:(lia)).
  pose proof (Z.mod_pos_bound n d Hd).
  nia.
Qed.

Lemma round_units_mono (n1 d1 n2 d2 : Z) :
  0 <= n1 -> 0 < d1 -> 0 < d2 -> n1 * d2 <= n2 * d1 ->
  round_units n1 d1 <= round_units n2 d2.
Proof.
  intros Hn1 H1 H2 H.
  assert (Hn2 : 0 <= n2) by nia.
  pose proof (floor_mono n1 d1 n2 d2 H1 H2 H) as Hq.
  assert (Hq1 : 0 <= n1 / d1) by (apply Z.div_pos; lia).
  pose proof (Z.log2_le_mono _ _ Hq) as Hlog.
  unfold round_units. fold (shift_of n1 d1) (shift_of n2 d2).
  assert (Hs1 : 0 <= shift_of n1 d1) by (unfold shift_of; lia).
  assert (Hs : shift_of n1 d1 <= shift_of n2 d2) by (unfold shift_of; lia).
  set (s1 := shift_of n1 d1) in *. set (s2 := shift_of n2 d2) in *.
  assert (P1 : 0 < 2 ^ s1) by (apply Z.pow_pos_nonneg; lia).
  assert (P2 : 0 < 2 ^ s2) by (apply Z.pow_pos_nonneg; lia).
  destruct (Z.eq_dec s1 s2) as [Heq | Hne].
  - rewrite <- Heq. apply Z.mul_le_mono_nonneg_r; [lia |].
    apply half_even_mono; nia.
  - (* the two quotients lie in different binades *)
    apply Z.le_trans with (2 ^ (s1 + 53)).
    + pose proof (quotient_below_binade n1 d1 Hn1 H1) as Hb. fold s1 in Hb.
      rewrite Z.pow_add_r in * by lia.
      assert (half_even n1 (d1 * 2 ^ s1) <= 2 ^ 53) by (apply half_even_le; nia).
      nia.
    + assert (Hs2 : s2 = Z.log2 (n2 / d2) - 52) by (unfold s2, shift_of in *; lia).
      assert (Hpos : 0 < n2 / d2).
      { destruct (Z.eq_dec (n2 / d2) 0) as [E | E]; [| lia].
        rewrite E in Hs2. simpl in Hs2. lia. }
      pose proof (Z.log2_spec (n2 / d2) Hpos) as [Hlow _].
      replace (Z.log2 (n2 / d2)) with (s2 + 52) in Hlow by lia.
      pose proof (Z.mul_div_le n2 d2 H2) as Hfloor.
      rewrite Z.pow_add_r in Hlow by lia.
      assert (2 ^ 52 <= half_even n2 (d2 * 2 ^ s2)) by (apply half_even_ge; nia).
      assert (2 ^ (s1 + 53) <= 2 ^ (s2 + 52)) by (apply Z.pow_le_mono_r; lia).
      rewrite (Z.pow_add_r 2 s2 52) in * by lia.
      nia.
Qed.

Lemma round_units_nonneg (n d : Z) : 0 <= n -> 0 < d -> 0 <= round_units n d.
Proof.
  intros Hn Hd.
  replace 0 with (round_units 0 1) by reflexivity.
  apply round_units_mono; lia.
Qed.


Lemma one_pos : 0 < one.
Proof. unfold one. apply Z.pow_pos_nonneg; lia. Qed.

Lemma download_progress_value (a b p : Z) :
  Agent.download_progress a b = Ok p -> p = raw_progress a b.
Proof.
  unfold Agent.download_progress, int_truediv, mul_int, to_int, raw_progress.
  destruct (_ <? _); [| discriminate].
  destruct (_ <? _); [| discriminate].
  by intros [= <-].
Qed.

Lemma quotient_mono (a1 a2 b : Z) :
  0 <= a1 <= a2 -> 0 < b ->
  0 <= round_units (a1 * one) b <= round_units (a2 * one) b.
Proof.
  intros Ha Hb. pose proof one_pos as Hone. split.
  - apply round_units_nonneg; nia.
  - apply round_units_mono; try nia.
    apply Z.mul_le_mono_nonneg_r; [lia |].
    apply Z.mul_le_mono_nonneg_r; lia.
Qed.

Lemma raw_progress_mono (a1 a2 b : Z) :
  0 <= a1 <= a2 -> 0 < b -> raw_progress a1 b <= raw_progress a2 b.
Proof.
  intros Ha Hb. unfold raw_progress.
  pose proof one_pos as Hone.
  apply Z.div_le_mono; [lia |].
  pose proof (quotient_mono a1 a2 b Ha Hb).
  apply round_units_mono; lia.
Qed.

Lemma round_units_same (b : Z) : 0 < b -> round_units (b * one) b = one.
Proof.
  intros Hb. pose proof one_pos as Hone.
  assert (E : round_units one 1 = one) by (vm_compute; reflexivity).
  rewrite <- E at 2.
  apply Z.le_antisymm; apply round_units_mono; nia.
Qed.

Lemma raw_progress_full (b : Z) : 0 < b -> raw_progress b b = 50.
Proof.
  intros Hb. unfold raw_progress. rewrite round_units_same by lia.
  vm_compute. reflexivity.
Qed.

Lemma raw_progress_zero (b : Z) : 0 < b -> raw_progress 0 b = 0.
Proof.
  intros Hb. unfold raw_progress.
  assert (E : round_units (0 * one) b = 0).
  { replace 0 with (round_units 0 1) at 2 by reflexivity.
    apply Z.le_antisymm; apply round_units_mono; lia. }
  rewrite E. vm_compute. reflexivity.
Qed.

Lemma raw_progress_bounds (a b : Z) :
  0 <= a <= b -> 0 < b -> 0 <= raw_progress a b <= 50.
Proof.
  intros Ha Hb. split.
  - rewrite <- (raw_progress_zero b Hb). apply raw_progress_mono; lia.
  - rewrite <- (raw_progress_full b Hb). apply raw_progress_mono; lia.
Qed.

(** Within the announced size the computation cannot overflow. *)
Lemma download_progress_defined (a b : Z) :
  0 <= a <= b -> 0 < b -> Agent.download_progress a b = Ok (raw_progress a b).
Proof.
  intros Ha Hb. pose proof one_pos as Hone.
  pose proof (quotient_mono a b b Ha Hb) as [X0 X1].
  rewrite round_units_same in X1 by lia.
  assert (Y1 : round_units (round_units (a * one) b * 50) 1 <= 50 * one).
  { replace (50 * one) with (round_units (one * 50) 1) by (vm_compute; reflexivity).
    apply round_units_mono; lia. }
  assert (T1 : one < overflow_threshold) by (vm_compute; reflexivity).
  assert (T2 : 50 * one < overflow_threshold) by (vm_compute; reflexivity).
  unfold Agent.download_progress, int_truediv, mul_int, to_int, raw_progress.
  destruct (Z.ltb_spec (round_units (a * one) b) overflow_threshold); [| lia].
  destruct (Z.ltb_spec (round_units (round_units (a * one) b * 50) 1) overflow_threshold);
    [reflexivity | lia].
Qed.

End FloatFacts.

(** ** Hashing what was read *)

Module HashFacts.
Import Agent.

Lemma firstn_read_size_nil (data : list Byte.byte) :
  firstn read_size data = [] -> data = [].
Proof. destruct data; [reflexivity | discriminate]. Qed.

Lemma read_blocks_feed (fuel : nat) : forall (data fed : list Byte.byte),
  (List.length data < fuel)%nat ->
  fold_left sha256_update (read_blocks fuel data) fed = fed ++ data.
Proof.
  induction fuel as [| fuel IH]; intros data fed Hlen; [lia |].
  cbn [read_blocks].
  destruct (firstn read_size data) as [| b block] eqn:E.
  - apply firstn_read_size_nil in E. subst. by rewrite app_nil_r.
  - cbn [fold_left]. rewrite IH.
    + unfold sha256_update. rewrite <- app_assoc, <- E.
      by rewrite firstn_skipn.
    + destruct data as [| x data]; [discriminate |].
      rewrite length_skipn. unfold read_size. simpl List.length in *. lia.
Qed.

(** Feeding the file block by block hashes the whole file. *)
Lemma read_blocks_whole (data : list Byte.byte) :
  fold_left sha256_update (read_blocks (S (List.length data)) data) [] = data.
Proof. rewrite read_blocks_feed; [reflexivity | lia]. Qed.

Lemma lower_string_of_list (l : list ascii) :
  lower (String.string_of_list_ascii l) = String.string_of_list_ascii (map lower_char l).
Proof. induction l as [| c l IH]; simpl; [reflexivity | by rewrite IH]. Qed.

Lemma hex_digit_lower (n : Z) : lower_char (Sha256.hex_digit (n mod 16)) = Sha256.hex_digit (n mod 16).
Proof.
  pose proof (Z.mod_pos_bound n 16 ltac:(lia)) as B.
  assert (C : n mod 16 = 0 \/ n mod 16 = 1 \/ n mod 16 = 2 \/ n mod 16 = 3 \/
              n mod 16 = 4 \/ n mod 16 = 5 \/ n mod 16 = 6 \/ n mod 16 = 7 \/
              n mod 16 = 8 \/ n mod 16 = 9 \/ n mod 16 = 10 \/ n mod 16 = 11 \/
              n mod 16 = 12 \/ n mod 16 = 13 \/ n mod 16 = 14 \/ n mod 16 = 15) by lia.
  repeat destruct C as [C | C]; rewrite C; reflexivity.
Qed.

Lemma hex_of_bytes_lower (bs : list Z) :
  map lower_char (flat_map Sha256.hex_of_byte bs) = flat_map Sha256.hex_of_byte bs.
Proof.
  induction bs as [| b bs IH]; [reflexivity |].
  cbn [flat_map Sha256.hex_of_byte app map].
  by rewrite !hex_digit_lower, IH.
Qed.

(** [hexdigest] is lower-case. *)
Lemma hexdigest_lower (msg : list Byte.byte) :
  lower (Sha256.hexdigest msg) = Sha256.hexdigest msg.
Proof.
  unfold Sha256.hexdigest. by rewrite lower_string_of_list, hex_of_bytes_lower.
Qed.

End HashFacts.

(** ** The command executor *)

Module ExecutorFacts.
Import Agent.

Lemma extend_extend (a b : list Event) (s : St) :
  extend b (extend a s) = extend (a ++ b) s.
Proof. destruct s; unfold extend, with_trace; simpl. by rewrite <- app_assoc. Qed.

Lemma extend_nil (s : St) : extend [] s = s.
Proof. destruct s; unfold extend, with_trace; simpl. by rewrite app_nil_r. Qed.

Lemma trace_extend (evs : list Event) (s : St) :
  trace (extend evs s) = trace s ++ evs.
Proof. reflexivity. Qed.

(** Reporting never raises and only adds its post to the trace. *)
Lemma acknowledge_run env id st m r e s :
  _acknowledge_command env id st m r e s
  = (Ok tt, extend [EvPost (EpAck id) (ack_data st m r e)] s).
Proof.
  unfold _acknowledge_command, try_except, bind, http_call, raise_for_status.
  destruct (http env _ _) as [x | resp]; [reflexivity |].
  destruct (_ && _); reflexivity.
Qed.

Lemma report_run env id st p e s :
  _report_update_status env id st p e s
  = (Ok tt, extend [EvPost (EpUpdateStatus id) (status_data st p e)] s).
Proof.
  unfold _report_update_status, try_except, bind, http_call, raise_for_status.
  destruct (http env _ _) as [x | resp]; [reflexivity |].
  destruct (_ && _); reflexivity.
Qed.

Lemma getitem_dict (v : json) (k : string) (x : json) :
  getitem v k = Ok x -> exists d, v = JDict d.
Proof. destruct v; try discriminate. eauto. Qed.

(** C3. A command whose type is none of reboot, execute, update,
    collect_logs makes exactly two calls: the post acknowledging it as
    received, then the post acknowledging it as failed with the
    unknown-command-type error.  Nothing else is called and nothing else in
    the agent or on disk changes. *)
Theorem unknown_command_received_then_failed env command id ty s :
  getitem command "id" = Ok id ->
  getitem command "command" = Ok ty ->
  eq_str ty "reboot" = false ->
  eq_str ty "execute" = false ->
  eq_str ty "update" = false ->
  eq_str ty "collect_logs" = false ->
  _execute_command env command s
  = (Ok tt,
     extend [received id;
             EvPost (EpAck id)
               (JDict [("status", JStr "failed");
                       ("error", JStr ("Unknown command type: " +:+ py_str env ty))])]
            s)
  /\ acks (new_events s (snd (_execute_command env command s))) = ["received"; "failed"].
Proof.
  intros Hid Hty H1 H2 H3 H4.
  destruct (getitem_dict _ _ _ Hid) as [d ->].
  assert (E : _execute_command env (JDict d) s
              = (Ok tt,
                 extend [received id;
                         EvPost (EpAck id)
                           (JDict [("status", JStr "failed");
                                   ("error", JStr ("Unknown command type: " +:+ py_str env ty))])]
                        s)).
  { unfold _execute_command, bind, lift, try_except. rewrite Hid, Hty. cbn [get].
    unfold execute_body, bind. rewrite acknowledge_run, H1, H2, H3, H4.
    rewrite acknowledge_run, extend_extend. reflexivity. }
  split; [exact E |].
  rewrite E. unfold new_events. cbn [snd]. rewrite trace_extend, drop_app_length.
  reflexivity.
Qed.

Lemma unknown_command_witness :
  let env := Scenario.busy_world in
  let command := JDict [("id", JInt 3); ("command", JStr "dance")] in
  acks (new_events (Scenario.state0 env)
          (snd (_execute_command env command (Scenario.state0 env))))
  = ["received"; "failed"].
Proof.
  intros env command.
  apply (unknown_command_received_then_failed env command (JInt 3) (JStr "dance"));
    reflexivity.
Defined.


(** C4. When the script of an execute command runs to completion with exit
    code [rc], output [out] and error output [err], the command makes four
    calls: received, executing, the script, and a last acknowledgment whose
    status is completed exactly when [rc] is zero and failed otherwise; that
    last acknowledgment carries the triple as its result in both cases. *)
Theorem execute_status_matches_exit_code env command id payload script timeout
    rc out err s :
  getitem command "id" = Ok id ->
  getitem command "command" = Ok (JStr "execute") ->
  get command "payload" (JDict []) = Ok payload ->
  get payload "script" (JStr "") = Ok script ->
  get payload "timeout" (JInt 60) = Ok timeout ->
  proc env (trace s ++ [received id; executing id]) (EvShell script timeout)
    = ProcExit rc out err ->
  exists final,
    _execute_command env command s
    = (Ok tt,
       extend [received id; executing id; EvShell script timeout;
               EvPost (EpAck id)
                 (JDict [("status", JStr final);
                         ("result", JDict [("stdout", JStr out);
                                           ("stderr", JStr err);
                                           ("returncode", JInt rc)])])]
              s)
    /\ (final = "completed" <-> rc = 0)
    /\ (final = "failed" <-> rc <> 0).
Proof.
  intros Hid Hty Hpl Hscript Htimeout Hproc.
  exists (if rc =? 0 then "completed" else "failed").
  split.
  - unfold _execute_command, bind, lift, try_except. rewrite Hid, Hty, Hpl.
    unfold execute_body, bind, lift. rewrite acknowledge_run. cbn [eq_str String.eqb].
    simpl (Ascii.eqb _ _). cbv beta iota.
    rewrite acknowledge_run, extend_extend, Hscript, Htimeout.
    unfold proc_call. rewrite trace_extend. cbn [app].
    unfold received, executing in Hproc.
    unfold ack_data, opt_field; cbn [app]. rewrite Hproc.
    rewrite extend_extend. cbn [fst snd app].
    rewrite acknowledge_run, extend_extend. reflexivity.
  - destruct (Z.eqb_spec rc 0); split; split; intros; try congruence; try lia.
Qed.

Lemma execute_status_witness :
  let env := Scenario.world (Scenario.ok_response (JDict [])) Scenario.no_download
               (ProcExit 2 "" "ls: cannot access 'x'") in
  let command := JDict [("id", JStr "c7"); ("command", JStr "execute");
                        ("payload", JDict [("script", JStr "ls x")])] in
  exists final,
    acks (new_events (Scenario.state0 env)
            (snd (_execute_command env command (Scenario.state0 env))))
    = ["received"; "executing"; final]
    /\ final = "failed".
Proof.
  intros env command.
  destruct (execute_status_matches_exit_code env command (JStr "c7")
              (JDict [("script", JStr "ls x")]) (JStr "ls x") (JInt 60)
              2 "" "ls: cannot access 'x'" (Scenario.state0 env))
    as (final & Hrun & _ & Hfailed); try reflexivity.
  exists final. split.
  - rewrite Hrun. unfold new_events. cbn [snd]. rewrite trace_extend, drop_app_length.
    reflexivity.
  - apply Hfailed. lia.
Defined.

(** The handler of each failure boundary never raises. *)
Lemma handle_update_total env id payload s :
  (exists d, payload = JDict d) ->
  exists s', _handle_update_command env id payload s = (Ok tt, s').
Proof.
  intros [d ->]. unfold _handle_update_command, bind, lift, try_except. cbn [get].
  destruct (update_body _ _ _ _ _ _ _) as [[[] | e] s1]; [eauto |].
  rewrite report_run, acknowledge_run. eauto.
Qed.

End ExecutorFacts.

(** ** Failures of calls and where they end *)

Module ContainmentFacts.
Import Agent ExecutorFacts.

Section Containment.

Variable env : Env.

Lemma contains_ext {A} good (m m' : M A) :
  (forall s, m s = m' s) -> contains env good m' -> contains env good m.
Proof.
  intros E H s. destruct (H s) as (evs & Ht & Hf). exists evs. rewrite E. auto.
Qed.

Lemma contains_weaken {A} (good good' : exn -> list Event -> Prop) (m : M A) :
  (forall e after, good e after -> good' e after) ->
  contains env good m -> contains env good' m.
Proof.
  intros Himp H s. destruct (H s) as (evs & Ht & Hf). exists evs.
  split; [exact Ht |]. intros before ev after e Hsplit Hfail.
  destruct (Hf _ _ _ _ Hsplit Hfail) as [? | [? ?]]; auto.
Qed.

(** Where a call lies in the calls of two steps. *)
Lemma split_in_app (a b before after : list Event) (ev : Event) :
  a ++ b = before ++ ev :: after ->
  (exists rest, a = before ++ ev :: rest /\ after = rest ++ b)
  \/ (exists more, before = a ++ more /\ b = more ++ ev :: after).
Proof.
  revert before. induction a as [| x a IH]; intros before H.
  - right. exists before. auto.
  - destruct before as [| y before].
    + injection H as -> <-. left. exists a. auto.
    + injection H as -> H. destruct (IH _ H) as [(rest & -> & ->) | (more & -> & ->)].
      * left. exists rest. auto.
      * right. exists more. auto.
Qed.

(** Code whose calls never fail where they are made. *)
Lemma contains_quiet {A} good (m : M A) :
  (forall s, exists evs,
     trace (snd (m s)) = trace s ++ evs /\ Forall (never_fails env) evs) ->
  contains env good m.
Proof.
  intros H s. destruct (H s) as (evs & Ht & Hq). exists evs. split; [exact Ht |].
  intros before ev after e -> Hfail.
  apply Forall_app in Hq as [_ Hq]. apply Forall_cons_1 in Hq as [Hq _].
  rewrite Hq in Hfail. discriminate.
Qed.

Lemma contains_silent {A} good (m : M A) :
  (forall s, trace (snd (m s)) = trace s) -> contains env good m.
Proof.
  intros H. apply contains_quiet. intros s. exists [].
  rewrite H, app_nil_r. auto.
Qed.

Lemma contains_ret {A} good (a : A) : contains env good (ret a).
Proof. by apply contains_silent. Qed.

Lemma contains_raise {A} good e : contains env good (raise e : M A).
Proof. by apply contains_silent. Qed.

Lemma contains_lift {A} good (r : Res A) : contains env good (lift r).
Proof. by apply contains_silent. Qed.

Lemma contains_bind {A B} good (m : M A) (k : A -> M B) :
  stops env m -> (forall a, contains env good (k a)) ->
  contains env good (bind m k).
Proof.
  intros Hm Hk s. unfold bind.
  destruct (Hm s) as (evs1 & T1 & F1).
  destruct (m s) as [[a | e0] s1] eqn:Hrun; cbn [fst snd] in *.
  - destruct (Hk a s1) as (evs2 & T2 & F2).
    exists (evs1 ++ evs2). split; [by rewrite T2, T1, app_assoc |].
    intros before ev after e Hsplit Hfail.
    apply split_in_app in Hsplit as [(rest & E1 & ->) | (more & -> & E2)].
    + destruct (F1 _ _ _ _ E1 Hfail) as [[? _] | [_ []]]. discriminate.
    + apply (F2 more ev after e E2). by rewrite T1, <- app_assoc.
  - exists evs1. split; [exact T1 |].
    intros before ev after e Hsplit Hfail.
    destruct (F1 _ _ _ _ Hsplit Hfail) as [[[= ->] ->] | [_ []]]. by left.
Qed.

(** One call that raises exactly when it fails. *)
Lemma stops_call {A} (m : M A) (ev : Event) :
  (forall s,
     trace (snd (m s)) = trace s ++ [ev]
     /\ forall e, call_failure env (trace s) ev = Some e -> fst (m s) = Raise e) ->
  stops env m.
Proof.
  intros H s. destruct (H s) as [Ht Hf]. exists [ev]. split; [exact Ht |].
  intros before ev' after e Hsplit Hfail.
  destruct before as [| x before].
  - injection Hsplit as <- <-. rewrite app_nil_r in Hfail. left. auto.
  - injection Hsplit as _ Hsplit. by destruct before.
Qed.

(** [try: body except Exception as e: handler(e)], when the handler makes
    the calls [closes e], none of which fails, and returns. *)
Lemma contains_try {A} good (closes : exn -> list Event) (body : M A)
    (handler : exn -> M A) :
  contains env good body ->
  (forall e s, exists a, handler e s = (Ok a, extend (closes e) s)) ->
  (forall e, Forall (never_fails env) (closes e)) ->
  contains env (fun e after => good e after \/ after = closes e)
    (try_except body handler).
Proof.
  intros Hbody Hhandler Hquiet s. unfold try_except.
  destruct (Hbody s) as (evs1 & T1 & F1).
  destruct (body s) as [[a | e0] s1] eqn:Hrun; cbn [fst snd] in *.
  - exists evs1. split; [exact T1 |].
    intros before ev after e Hsplit Hfail.
    destruct (F1 _ _ _ _ Hsplit Hfail) as [[? _] | [_ ?]]; [discriminate |].
    right. auto.
  - destruct (Hhandler e0 s1) as [a ->]. cbn [fst snd].
    exists (evs1 ++ closes e0). split; [by rewrite trace_extend, T1, app_assoc |].
    intros before ev after e Hsplit Hfail.
    apply split_in_app in Hsplit as [(rest & E1 & ->) | (more & -> & E2)].
    + destruct (F1 _ _ _ _ E1 Hfail) as [[[= ->] ->] | [[=] _]]. right. auto.
    + specialize (Hquiet e0). rewrite E2 in Hquiet.
      apply Forall_app in Hquiet as [_ Hq]. apply Forall_cons_1 in Hq as [Hq _].
      rewrite Hq in Hfail. discriminate.
Qed.

(** *** The calls of the agent *)

Lemma never_fails_ack id body : never_fails env (EvPost (EpAck id) body).
Proof. by intros hist. Qed.

Lemma never_fails_report uid body : never_fails env (EvPost (EpUpdateStatus uid) body).
Proof. by intros hist. Qed.

Lemma stops_acknowledge id st m r e :
  stops env (_acknowledge_command env id st m r e).
Proof.
  apply contains_quiet. intros s. rewrite acknowledge_run. eexists.
  split; [apply trace_extend |]. constructor; [apply never_fails_ack | constructor].
Qed.

Lemma stops_report uid st p e : stops env (_report_update_status env uid st p e).
Proof.
  apply contains_quiet. intros s. rewrite report_run. eexists.
  split; [apply trace_extend |]. constructor; [apply never_fails_report | constructor].
Qed.

Lemma stops_emit ev : never_fails env ev -> stops env (emit ev).
Proof.
  intros H. apply contains_quiet. intros s. exists [ev]. split; [reflexivity |].
  by repeat constructor.
Qed.

Lemma stops_os_call ev :
  (forall hist, call_failure env hist ev = os_fault env hist ev) ->
  stops env (os_call env ev).
Proof.
  intros H. apply (stops_call _ ev). intros s. unfold os_call. rewrite H.
  destruct (os_fault env (trace s) ev) as [e |]; cbn [fst snd].
  - split; [reflexivity |]. by intros e' [= <-].
  - split; [reflexivity | discriminate].
Qed.

Lemma stops_proc_call ev :
  (forall hist,
     call_failure env hist ev
     = match proc env hist ev with ProcFail e => Some e | ProcExit _ _ _ => None end) ->
  stops env (proc_call env ev).
Proof.
  intros H. apply (stops_call _ ev). intros s. unfold proc_call. rewrite H.
  destruct (proc env (trace s) ev) as [e | rc out err]; cbn [fst snd].
  - split; [reflexivity |]. by intros e' [= <-].
  - split; [reflexivity | discriminate].
Qed.

Lemma stops_proc_call_checked ev :
  (forall hist,
     call_failure env hist ev
     = match proc env hist ev with
       | ProcFail e => Some e
       | ProcExit rc _ _ =>
           if rc =? 0 then None
           else Some (Exn "CalledProcessError" (called_process_error env rc))
       end) ->
  stops env (proc_call_checked env ev).
Proof.
  intros H. apply (stops_call _ ev). intros s.
  unfold proc_call_checked, bind, proc_call. rewrite H.
  destruct (proc env (trace s) ev) as [e | rc out err]; cbn [fst snd].
  - split; [reflexivity |]. by intros e' [= <-].
  - destruct (rc =? 0); cbn [fst snd].
    + split; [reflexivity | discriminate].
    + split; [reflexivity |]. by intros e' [= <-].
Qed.

Lemma stops_open_write path mode : stops env (open_write env path mode).
Proof.
  unfold open_write. apply contains_bind; [by apply stops_os_call |].
  intros _. by apply contains_silent.
Qed.

Lemma stops_file_write path data : stops env (file_write env path data).
Proof.
  unfold file_write. apply contains_bind; [by apply stops_os_call |].
  intros _. by apply contains_silent.
Qed.

Lemma stops_open_read path mode : stops env (open_read env path mode).
Proof.
  unfold open_read. apply contains_bind; [by apply stops_os_call |].
  intros _. apply contains_silent. intros s. by destruct (fs s !! path).
Qed.

(** *** The update handler *)

Lemma stops_download_chunks uid file total : forall chunks downloaded,
  stops env (download_chunks env uid file total downloaded chunks).
Proof.
  induction chunks as [| chunk rest IH]; intros downloaded; cbn [download_chunks].
  - apply contains_ret.
  - apply contains_bind; [apply stops_file_write |]. intros _.
    apply contains_bind; [| intros _; apply IH].
    destruct (0 <? total); [| apply contains_ret].
    apply contains_bind; [apply contains_lift | intros p; apply stops_report].
Qed.

(** A call that fails and ends the code, and a call that returns and is
    followed by more code. *)
Lemma failed_call_stops {A} (m : M A) s ev e :
  m s = (Raise e, extend [ev] s) ->
  call_failure env (trace s) ev = Some e ->
  exists evs,
    trace (snd (m s)) = trace s ++ evs
    /\ forall before ev' after e',
         evs = before ++ ev' :: after ->
         call_failure env (trace s ++ before) ev' = Some e' ->
         (fst (m s) = Raise e' /\ after = [])
         \/ (is_ok (fst (m s)) = true /\ False).
Proof.
  intros -> Hfail. exists [ev]. split; [reflexivity |].
  intros before ev' after e' Hsplit Hfail'.
  destruct before as [| x before].
  - injection Hsplit as <- <-. rewrite app_nil_r in Hfail'. left.
    cbn [fst]. split; [congruence | reflexivity].
  - injection Hsplit as _ Hsplit. by destruct before.
Qed.

Lemma passed_call_stops {A} (m k : M A) s ev :
  m s = k (extend [ev] s) ->
  call_failure env (trace s) ev = None ->
  stops env k ->
  exists evs,
    trace (snd (m s)) = trace s ++ evs
    /\ forall before ev' after e',
         evs = before ++ ev' :: after ->
         call_failure env (trace s ++ before) ev' = Some e' ->
         (fst (m s) = Raise e' /\ after = [])
         \/ (is_ok (fst (m s)) = true /\ False).
Proof.
  intros -> Hpass Hk. destruct (Hk (extend [ev] s)) as (evs & Ht & Hf).
  exists (ev :: evs). split; [rewrite Ht, trace_extend; by rewrite <- app_assoc |].
  intros before ev' after e' Hsplit Hfail.
  destruct before as [| x before].
  - injection Hsplit as <- <-. rewrite app_nil_r in Hfail. congruence.
  - injection Hsplit as <- Hsplit. apply (Hf before ev' after e' Hsplit).
    rewrite trace_extend. by rewrite <- app_assoc.
Qed.

Lemma call_failure_download hist url :
  call_failure env hist (EvDownload url)
  = match download env hist (EvDownload url) with
    | DlFail e => Some e
    | DlOpen d =>
        if (400 <=? dl_status d) && (dl_status d <? 600)
        then Some (Exn "HTTPError" (dl_reason d))
        else match dl_content_length d with
             | Some (Raise e) => Some e
             | _ => None
             end
    end.
Proof. reflexivity. Qed.

Lemma call_failure_upload hist body :
  call_failure env hist (EvPost EpLogs body)
  = match http env hist (EvPost EpLogs body) with
    | HttpFail e => Some e
    | HttpDone r =>
        if (400 <=? status_code r) && (status_code r <? 600)
        then Some (Exn "HTTPError" (reason_text r))
        else None
    end.
Proof. reflexivity. Qed.

(** The request of a download, up to the point where the total size is
    known. *)
Lemma stops_download_request {A} url (k : Download -> Z -> M A) :
  (forall d total, stops env (k d total)) ->
  stops env
    (let* r := download_call env (EvDownload url) in
     raise_for_status (dl_status r) (dl_reason r) ;>
     let* total_size := lift (match dl_content_length r with
                              | Some v => v
                              | None => Ok 0
                              end) in
     k r total_size).
Proof.
  intros Hk s.
  destruct (download env (trace s) (EvDownload url)) as [e | d] eqn:Hd.
  { apply (failed_call_stops _ s (EvDownload url) e).
    - unfold bind, download_call. by rewrite Hd.
    - by rewrite call_failure_download, Hd. }
  destruct ((400 <=? dl_status d) && (dl_status d <? 600)) eqn:Hstatus.
  { apply (failed_call_stops _ s (EvDownload url) (Exn "HTTPError" (dl_reason d))).
    - unfold bind, download_call, raise_for_status. by rewrite Hd, Hstatus.
    - by rewrite call_failure_download, Hd, Hstatus. }
  destruct (dl_content_length d) as [[total | e] |] eqn:Hcl.
  - apply (passed_call_stops _ (k d total) s (EvDownload url)).
    + unfold bind, download_call, raise_for_status, lift. by rewrite Hd, Hstatus, Hcl.
    + by rewrite call_failure_download, Hd, Hstatus, Hcl.
    + apply Hk.
  - apply (failed_call_stops _ s (EvDownload url) e).
    + unfold bind, download_call, raise_for_status, lift. by rewrite Hd, Hstatus, Hcl.
    + by rewrite call_failure_download, Hd, Hstatus, Hcl.
  - apply (passed_call_stops _ (k d 0) s (EvDownload url)).
    + unfold bind, download_call, raise_for_status, lift. by rewrite Hd, Hstatus, Hcl.
    + by rewrite call_failure_download, Hd, Hstatus, Hcl.
    + apply Hk.
Qed.

Lemma stops_download_update url uid : stops env (_download_update env url uid).
Proof.
  unfold _download_update. cbv zeta.
  apply contains_bind; [by apply stops_os_call |]. intros _.
  apply (stops_download_request url
           (fun r total_size =>
              open_write env _ "wb" ;>
              download_chunks env uid _ total_size 0 (dl_chunks r) ;>
              match dl_broken r with
              | Some e => raise e
              | None => ret _
              end)).
  intros d total.
  apply contains_bind; [apply stops_open_write |]. intros _.
  apply contains_bind; [apply stops_download_chunks |]. intros _.
  destruct (dl_broken d); [apply contains_raise | apply contains_ret].
Qed.

Lemma stops_verify path expected : stops env (_verify_checksum env path expected).
Proof.
  unfold _verify_checksum. apply contains_bind; [apply stops_open_read |].
  intros data. apply contains_ret.
Qed.

Lemma stops_update_body id payload uid url checksum :
  stops env (update_body env id payload uid url checksum).
Proof.
  unfold update_body.
  apply contains_bind; [apply stops_report |]. intros _.
  apply contains_bind; [apply stops_download_update |]. intros file.
  apply contains_bind; [apply stops_report |]. intros _.
  apply contains_bind; [apply stops_verify |]. intros ok.
  destruct (negb ok); [apply contains_raise |].
  apply contains_bind; [apply stops_report |]. intros _.
  apply contains_bind; [by apply stops_emit |]. intros _.
  apply contains_bind; [apply stops_report |]. intros _.
  apply contains_bind; [apply stops_acknowledge |]. intros _.
  apply contains_bind; [apply contains_lift |]. intros flag.
  destruct (truthy flag); [| apply contains_ret].
  apply contains_bind; [by apply stops_emit |]. intros _.
  apply contains_bind; [by apply stops_proc_call |]. intros _.
  apply contains_ret.
Qed.

Lemma closing_never_fails id uid e : Forall (never_fails env) (closing id uid e).
Proof.
  constructor; [apply never_fails_report |]. constructor; [apply never_fails_ack | constructor].
Qed.

(** A failing call of an update job is answered by the failed report and
    the failed acknowledgment. *)
Lemma handle_update_contains id payload :
  contains env (fun e after => exists uid, after = closing id uid e)
    (_handle_update_command env id payload).
Proof.
  unfold _handle_update_command.
  apply contains_bind; [apply contains_lift |]. intros uid.
  apply contains_bind; [apply contains_lift |]. intros url.
  apply contains_bind; [apply contains_lift |]. intros checksum.
  eapply contains_weaken;
    [| apply (contains_try (fun _ _ => False) (closing id uid));
       [apply stops_update_body | | apply closing_never_fails]].
  - intros e after [[] | ->]. eauto.
  - intros e s. exists tt. unfold bind.
    rewrite report_run, acknowledge_run, extend_extend. reflexivity.
Qed.

(** *** The log collector *)

(** The upload of the logs and what follows it. *)
Lemma stops_upload {A} body (k : M A) :
  stops env k ->
  stops env
    (let* response := http_call env (EvPost EpLogs body) in
     raise_for_status (status_code response) (reason_text response) ;> k).
Proof.
  intros Hk s.
  destruct (http env (trace s) (EvPost EpLogs body)) as [e | r] eqn:Hhttp.
  { apply (failed_call_stops _ s (EvPost EpLogs body) e).
    - unfold bind, http_call. by rewrite Hhttp.
    - by rewrite call_failure_upload, Hhttp. }
  destruct ((400 <=? status_code r) && (status_code r <? 600)) eqn:Hstatus.
  - apply (failed_call_stops _ s (EvPost EpLogs body) (Exn "HTTPError" (reason_text r))).
    + unfold bind, http_call, raise_for_status. by rewrite Hhttp, Hstatus.
    + by rewrite call_failure_upload, Hhttp, Hstatus.
  - apply (passed_call_stops _ k s (EvPost EpLogs body)).
    + unfold bind, http_call, raise_for_status. by rewrite Hhttp, Hstatus.
    + by rewrite call_failure_upload, Hhttp, Hstatus.
    + exact Hk.
Qed.

Lemma stops_collect_logs_body id payload :
  stops env (collect_logs_body env id payload).
Proof.
  unfold collect_logs_body.
  apply contains_bind; [apply contains_lift |]. intros log_type.
  apply contains_bind; [apply contains_lift |]. intros since.
  apply contains_bind.
  { destruct (eq_str log_type "system"); [| apply contains_lift].
    apply contains_bind; [by apply stops_proc_call_checked |].
    intros r. apply contains_ret. }
  intros logs.
  apply contains_bind; [by apply contains_silent |]. intros now.
  apply stops_upload. apply stops_acknowledge.
Qed.

Lemma collect_logs_contains id payload :
  contains env (fun e after => after = [ack id "failed" (Some (exn_text e))])
    (_collect_and_upload_logs env id payload).
Proof.
  unfold _collect_and_upload_logs.
  eapply contains_weaken;
    [| apply (contains_try (fun _ _ => False)
                (fun e => [ack id "failed" (Some (exn_text e))]));
       [apply stops_collect_logs_body | | ]].
  - by intros e after [[] | ->].
  - intros e s. exists tt. apply acknowledge_run.
  - intros e. constructor; [apply never_fails_ack | constructor].
Qed.

(** *** The executor *)

Lemma execute_body_contains id ty payload :
  contains env (answered id) (execute_body env id ty payload).
Proof.
  unfold execute_body.
  apply contains_bind; [apply stops_acknowledge |]. intros _.
  destruct (eq_str ty "reboot").
  { apply (contains_weaken (fun _ _ => False)); [by intros ? ? [] |].
    apply contains_bind; [apply stops_acknowledge |]. intros _.
    apply contains_bind; [by apply stops_proc_call_checked |]. intros _.
    apply contains_ret. }
  destruct (eq_str ty "execute").
  { apply (contains_weaken (fun _ _ => False)); [by intros ? ? [] |].
    apply contains_bind; [apply stops_acknowledge |]. intros _.
    apply contains_bind; [apply contains_lift |]. intros script.
    apply contains_bind; [apply contains_lift |]. intros timeout.
    apply contains_bind; [by apply stops_proc_call |]. intros result.
    apply stops_acknowledge. }
  destruct (eq_str ty "update").
  { eapply contains_weaken; [| apply handle_update_contains].
    intros e after [uid ->]. right. eauto. }
  destruct (eq_str ty "collect_logs").
  { eapply contains_weaken; [| apply collect_logs_contains].
    intros e after ->. by left. }
  apply (contains_weaken (fun _ _ => False)); [by intros ? ? [] |].
  apply stops_acknowledge.
Qed.

(** The executor, for a command that has an id and a type. *)
Lemma execute_command_contains command id ty :
  getitem command "id" = Ok id ->
  getitem command "command" = Ok ty ->
  contains env (answered id) (_execute_command env command).
Proof.
  intros Hid Hty. destruct (getitem_dict _ _ _ Hid) as [d ->].
  set (payload := match assoc "payload" d with Some x => x | None => JDict [] end).
  apply (contains_ext _ _
           (try_except (execute_body env id ty payload)
              (fun e => _acknowledge_command env id "failed" None None
                          (Some (exn_text e))))).
  { intros s. unfold _execute_command, bind, lift. rewrite Hid, Hty. reflexivity. }
  eapply contains_weaken;
    [| apply (contains_try (answered id)
                (fun e => [ack id "failed" (Some (exn_text e))]));
       [apply execute_body_contains | | ]].
  - intros e after [H | ->]; [exact H | by left].
  - intros e s. exists tt. apply acknowledge_run.
  - intros e. constructor; [apply never_fails_ack | constructor].
Qed.

End Containment.

(** C7.  A command that has an id and a type never makes
    [_execute_command] raise.  Whenever a call made for the command fails
    (the script or the reboot times out or cannot be started, a process
    required to succeed exits with an error, a file operation or the
    download of the update fails, the upload of the logs is refused or does
    not get through), the exception is caught, and what follows the failing
    call is the acknowledgment of the command as failed, built with the text
    of the exception (for an update, after the failed update-status report
    built with the same text); that acknowledgment carries the text as its
    error whenever the text is not empty.  The same holds for whatever else
    raises inside the [try] block of the executor, of the update handler or
    of the log collector. *)
Theorem execute_command_contains_failures env command id ty s :
  getitem command "id" = Ok id ->
  getitem command "command" = Ok ty ->
  let run := _execute_command env command s in
  fst run = Ok tt
  /\ (forall before ev after e,
        new_events s (snd run) = before ++ ev :: after ->
        call_failure env (trace s ++ before) ev = Some e ->
        after = [ack id "failed" (Some (exn_text e))]
        \/ exists uid, after = closing id uid e)
  /\ (forall e,
        exn_text e <> "" ->
        ack id "failed" (Some (exn_text e))
        = EvPost (EpAck id)
            (JDict [("status", JStr "failed"); ("error", JStr (exn_text e))]))
  /\ (forall payload e s1,
        get command "payload" (JDict []) = Ok payload ->
        execute_body env id ty payload s = (Raise e, s1) ->
        run = (Ok tt, extend [ack id "failed" (Some (exn_text e))] s1))
  /\ (forall payload uid url checksum s0 e s1,
        get payload "update_id" JNull = Ok uid ->
        get payload "download_url" JNull = Ok url ->
        get payload "checksum" JNull = Ok checksum ->
        update_body env id payload uid url checksum s0 = (Raise e, s1) ->
        _handle_update_command env id payload s0
        = (Ok tt, extend (closing id uid e) s1))
  /\ (forall payload s0 e s1,
        collect_logs_body env id payload s0 = (Raise e, s1) ->
        _collect_and_upload_logs env id payload s0
        = (Ok tt, extend [ack id "failed" (Some (exn_text e))] s1)).
Proof.
  intros Hid Hty run.
  assert (Hok : fst run = Ok tt).
  { destruct (getitem_dict _ _ _ Hid) as [d ->].
    unfold run, _execute_command, bind, lift, try_except. rewrite Hid, Hty. cbn [get].
    destruct (execute_body _ _ _ _ _) as [[[] | e] s1]; [reflexivity |].
    by rewrite acknowledge_run. }
  split; [exact Hok |]. split; [| split; [| split; [| split]]].
  - destruct (execute_command_contains env command id ty Hid Hty s) as (evs & Ht & Hf).
    fold run in Ht, Hf. unfold new_events. rewrite Ht, drop_app_length.
    intros before ev after e Hsplit Hfail.
    destruct (Hf before ev after e Hsplit Hfail) as [[Hraise _] | [_ H]]; [| exact H].
    rewrite Hok in Hraise. discriminate.
  - intros e Htext. unfold ack, ack_data, opt_field. cbn [truthy].
    apply String.eqb_neq in Htext. by rewrite Htext.
  - intros payload e s1 Hpl Hbody.
    unfold run, _execute_command, bind, lift, try_except. rewrite Hid, Hty, Hpl, Hbody.
    apply acknowledge_run.
  - intros payload uid url checksum s0 e s1 H1 H2 H3 Hbody.
    unfold _handle_update_command, bind, lift, try_except.
    rewrite H1, H2, H3, Hbody, report_run, acknowledge_run, extend_extend.
    reflexivity.
  - intros payload s0 e s1 Hbody.
    unfold _collect_and_upload_logs, try_except. rewrite Hbody.
    apply acknowledge_run.
Qed.

Lemma execute_command_contains_failures_witness :
  let timeout := Exn "TimeoutExpired" "Command 'sleep 100' timed out after 5 seconds" in
  let env := Scenario.world (Scenario.ok_response (JDict [])) Scenario.no_download
               (ProcFail timeout) in
  let id := JStr "c9" in
  let command := JDict [("id", id); ("command", JStr "execute");
                        ("payload", JDict [("script", JStr "sleep 100");
                                           ("timeout", JInt 5)])] in
  let s := Scenario.state0 env in
  let failed :=
    EvPost (EpAck id)
      (JDict [("status", JStr "failed");
              ("error", JStr "Command 'sleep 100' timed out after 5 seconds")]) in
  new_events s (snd (_execute_command env command s))
  = [received id; executing id; EvShell (JStr "sleep 100") (JInt 5); failed]
  /\ call_failure env (trace s ++ [received id; executing id])
       (EvShell (JStr "sleep 100") (JInt 5)) = Some timeout
  /\ ([failed] = [ack id "failed" (Some (exn_text timeout))]
      \/ exists uid, [failed] = closing id uid timeout).
Proof.
  intros timeout env id command s failed.
  split; [reflexivity |]. split; [reflexivity |].
  destruct (execute_command_contains_failures env command id (JStr "execute") s
              eq_refl eq_refl) as (_ & Hfail & _).
  apply (Hfail [received id; executing id] (EvShell (JStr "sleep 100") (JInt 5))
           [failed] timeout); reflexivity.
Defined.

End ContainmentFacts.


(** ** The update handler *)

Module UpdateFacts.
Import Agent ExecutorFacts.

Lemma grows_refl (s : St) : grows s s [].
Proof. unfold grows. rewrite extend_nil. by destruct s. Qed.

Lemma grows_extend (evs : list Event) (s : St) : grows s (extend evs s) evs.
Proof. unfold grows. by destruct s. Qed.

Lemma grows_with_fs m (evs : list Event) (s : St) :
  grows s (with_fs m (extend evs s)) evs.
Proof. unfold grows. by destruct s. Qed.

Lemma grows_trans (s1 s2 s3 : St) (a b : list Event) :
  grows s1 s2 a -> grows s2 s3 b -> grows s1 s3 (a ++ b).
Proof.
  unfold grows, extend, with_fs, with_trace.
  destruct s1, s2, s3; simpl. intros H1 H2.
  injection H1 as -> -> -> -> -> ->. injection H2 as -> -> -> -> -> ->.
  by rewrite app_assoc.
Qed.

Lemma grows_trace (s s' : St) (evs : list Event) :
  grows s s' evs -> trace s' = trace s ++ evs.
Proof. unfold grows. intros ->. reflexivity. Qed.

Lemma grows_new_events (s s' : St) (evs : list Event) :
  grows s s' evs -> new_events s s' = evs.
Proof.
  intros H. unfold new_events. rewrite (grows_trace _ _ _ H).
  apply drop_app_length.
Qed.

Lemma os_call_cases env ev s :
  (exists e, os_call env ev s = (Raise e, extend [ev] s))
  \/ os_call env ev s = (Ok tt, extend [ev] s).
Proof. unfold os_call. destruct (os_fault env _ _); eauto. Qed.

(** One turn of the download loop. *)
Lemma download_chunks_cons env uid file total downloaded chunk rest s r s' :
  download_chunks env uid file total downloaded (chunk :: rest) s = (r, s') ->
  let written :=
    with_fs (<[file := default [] (fs s !! file) ++ chunk]> (fs s))
      (extend [EvWrite file chunk] s) in
  let downloaded' := downloaded + Z.of_nat (List.length chunk) in
  (exists e, r = Raise e /\ s' = extend [EvWrite file chunk] s)
  \/ (0 < total /\ exists e, r = Raise e /\ s' = written)
  \/ (0 < total /\ exists p,
        download_progress downloaded' total = Ok p
        /\ download_chunks env uid file total downloaded' rest
             (extend [EvPost (EpUpdateStatus uid)
                        (status_data "downloading" (Some p) None)] written)
           = (r, s'))
  \/ (total <= 0
      /\ download_chunks env uid file total downloaded' rest written = (r, s')).
Proof.
  cbn [download_chunks]. unfold bind at 1. unfold file_write, bind at 1.
  destruct (os_call_cases env (EvWrite file chunk) s) as [[e ->] | ->].
  - intros [= <- <-]. left. eauto.
  - cbv beta iota. intros H. right.
    destruct (Z.ltb_spec 0 total) as [Hpos | Hneg].
    + unfold bind at 1 in H. unfold bind at 1 in H. unfold lift in H.
      destruct (download_progress _ _) as [p | e] eqn:Hp.
      * right. left. split; [lia |]. exists p. split; [reflexivity |].
        rewrite report_run in H. exact H.
      * left. split; [lia |]. injection H as <- <-. eauto.
    + right. right. split; [lia |]. exact H.
Qed.


Lemma nondecreasing_cons (p : Z) (l : list Z) :
  Forall (fun q => p <= q) l -> nondecreasing l = true ->
  nondecreasing (p :: l) = true.
Proof.
  destruct l as [| q l]; [reflexivity |].
  intros Hall Hl. apply Forall_cons_1 in Hall as [Hq _].
  change (nondecreasing (p :: q :: l)) with ((p <=? q) && nondecreasing (q :: l)).
  rewrite Hl, andb_true_r. by apply Z.leb_le.
Qed.

Lemma written_to_cons_here file data evs :
  written_to file (EvWrite file data :: evs) = data ++ written_to file evs.
Proof. unfold written_to. cbn. by rewrite String.eqb_refl. Qed.

Lemma written_to_post file ep body evs :
  written_to file (EvPost ep body :: evs) = written_to file evs.
Proof. reflexivity. Qed.

Lemma bytes_received_nonneg (evs : list Event) : 0 <= bytes_received evs.
Proof. unfold bytes_received. lia. Qed.

Lemma bytes_received_app (a b : list Event) :
  bytes_received (a ++ b) = bytes_received a + bytes_received b.
Proof. unfold bytes_received. rewrite omap_app, concat_app, length_app. lia. Qed.

Lemma bytes_received_write file data evs :
  bytes_received (EvWrite file data :: evs)
  = Z.of_nat (List.length data) + bytes_received evs.
Proof. unfold bytes_received. cbn. rewrite length_app. lia. Qed.

(** What [within_announced_length] says of a download request in the
    calls. *)
Lemma within_announced_length_at env before url after : forall hist d n,
  within_announced_length env hist (before ++ EvDownload url :: after) = true ->
  download env (hist ++ before) (EvDownload url) = DlOpen d ->
  dl_content_length d = Some (Ok n) ->
  0 < n ->
  bytes_received after <= n.
Proof.
  induction before as [| ev before IH]; intros hist d n H Hd Hn Hpos.
  - cbn [app within_announced_length] in H. rewrite app_nil_r in Hd.
    rewrite Hd, Hn in H. apply andb_true_iff in H as [H _].
    apply orb_true_iff in H as [H | H]; lia.
  - cbn [app within_announced_length] in H. apply andb_true_iff in H as [_ H].
    apply (IH (hist ++ [ev]) d n H); [| assumption | assumption].
    by rewrite <- app_assoc.
Qed.

Lemma within_announced_length_prefix env a b : forall hist,
  within_announced_length env hist (a ++ b) = true ->
  within_announced_length env hist a = true.
Proof.
  induction a as [| ev a IH]; intros hist H; [reflexivity |].
  cbn [app within_announced_length] in *.
  apply andb_true_iff in H as [H1 H2]. apply andb_true_iff. split; [| by apply IH].
  destruct ev; try reflexivity.
  destruct (download env hist _) as [e | d]; [reflexivity |].
  destruct (dl_content_length d) as [[n | e] |]; try reflexivity.
  apply orb_true_iff in H1 as [H1 | H1]; apply orb_true_iff; [by left | right].
  rewrite bytes_received_app in H1. pose proof (bytes_received_nonneg b). lia.
Qed.

Lemma within_announced_length_suffix env a b : forall hist,
  within_announced_length env hist (a ++ b) = true ->
  within_announced_length env (hist ++ a) b = true.
Proof.
  induction a as [| ev a IH]; intros hist H; [by rewrite app_nil_r |].
  cbn [app within_announced_length] in H. apply andb_true_iff in H as [_ H].
  apply IH in H. by rewrite <- app_assoc in H.
Qed.

(** What the download loop does: it writes chunks and posts "downloading"
    reports, nothing else; while the bytes received stay within the
    announced size the reported values never decrease and never pass 50. *)
Lemma download_chunks_shape env uid file total :
  forall chunks downloaded s r s',
    download_chunks env uid file total downloaded chunks s = (r, s') ->
    exists evs ps,
      grows s s' evs
      /\ Forall (fun ev => is_install ev = false) evs
      /\ (is_ok r = true -> forall cur, fs s !! file = Some cur ->
            fs s' !! file = Some (cur ++ written_to file evs))
      /\ reports evs = map (fun p => ("downloading", Some p)) ps
      /\ (total <= 0 -> ps = [])
      /\ (0 <= downloaded ->
          downloaded + bytes_received evs <= total ->
          Forall (fun p => Float64.raw_progress downloaded total <= p <= 50) ps
          /\ nondecreasing ps = true)
      /\ (is_ok r = true ->
          List.length (List.filter is_chunk_write evs) = List.length chunks
          /\ (0 < total -> List.length ps = List.length chunks)).
Proof.
  induction chunks as [| chunk rest IH]; intros downloaded s r s' Hrun.
  - injection Hrun as <- <-. exists [], [].
    repeat split; auto using grows_refl.
    intros _ cur ->. unfold written_to. cbn. by rewrite app_nil_r.
  - apply download_chunks_cons in Hrun. cbv zeta in Hrun.
    set (written := with_fs _ _) in Hrun.
    assert (Hw : grows s written [EvWrite file chunk]) by apply grows_with_fs.
    assert (Hfs : forall cur, fs s !! file = Some cur ->
                    fs written !! file = Some (cur ++ chunk)).
    { intros cur Hcur. unfold written. cbn. rewrite Hcur. cbn.
      apply lookup_insert_eq. }
    destruct Hrun as [(e & -> & ->) | [(Hpos & e & -> & ->) | [(Hpos & p & Hp & Hrest) | (Hneg & Hrest)]]].
    + (* the write failed *)
      exists [EvWrite file chunk], [].
      repeat split; auto using grows_extend; discriminate.
    + (* the progress computation overflowed *)
      exists [EvWrite file chunk], [].
      repeat split; auto; try discriminate; lia.
    + (* a report, then the rest *)
      apply IH in Hrest as (evs & ps & Hg & Hni & Hfile & Hrep & Hnone & Hmono & Hcount).
      set (post := EvPost (EpUpdateStatus uid) (status_data "downloading" (Some p) None)) in *.
      exists (EvWrite file chunk :: post :: evs), (p :: ps).
      split; [| split; [| split; [| split; [| split; [| split]]]]].
      * change (EvWrite file chunk :: post :: evs)
          with ([EvWrite file chunk] ++ [post] ++ evs).
        eapply grows_trans; [exact Hw |].
        eapply grows_trans; [apply grows_extend | exact Hg].
      * repeat constructor; auto.
      * intros Hok cur Hcur. rewrite written_to_cons_here. unfold post.
        rewrite written_to_post, app_assoc. apply Hfile; [exact Hok |]. cbn. auto.
      * change (reports (EvWrite file chunk :: post :: evs))
          with (("downloading", Some p) :: reports evs).
        by rewrite Hrep.
      * lia.
      * intros H0 Hle. rewrite bytes_received_write in Hle.
        change (bytes_received (post :: evs)) with (bytes_received evs) in Hle.
        pose proof (bytes_received_nonneg evs) as Hnonneg.
        apply FloatFacts.download_progress_value in Hp.
        destruct Hmono as [Hall Hsorted]; [lia | lia |].
        assert (Hstep : Float64.raw_progress downloaded total <= p <= 50).
        { rewrite Hp. split.
          - apply FloatFacts.raw_progress_mono; lia.
          - apply FloatFacts.raw_progress_bounds; lia. }
        split.
        -- constructor; [exact Hstep |].
           eapply Forall_impl; [exact Hall |]. cbv beta. rewrite <- Hp. lia.
        -- apply nondecreasing_cons; [| exact Hsorted].
           eapply Forall_impl; [exact Hall |]. cbv beta. rewrite <- Hp. lia.
      * intros Hok. destruct (Hcount Hok) as [Hc1 Hc2].
        cbn [List.filter is_chunk_write post List.length]. split; [lia |].
        intros _. specialize (Hc2 Hpos). lia.
    + (* no announced size: no report *)
      apply IH in Hrest as (evs & ps & Hg & Hni & Hfile & Hrep & Hnone & Hmono & Hcount).
      specialize (Hnone Hneg). subst ps.
      exists (EvWrite file chunk :: evs), [].
      split; [| split; [| split; [| split; [| split; [| split]]]]].
      * change (EvWrite file chunk :: evs) with ([EvWrite file chunk] ++ evs).
        eapply grows_trans; [exact Hw | exact Hg].
      * constructor; auto.
      * intros Hok cur Hcur. rewrite written_to_cons_here, app_assoc. apply Hfile; auto.
      * exact Hrep.
      * reflexivity.
      * intros _ _. split; [constructor | reflexivity].
      * intros Hok. destruct (Hcount Hok) as [Hc1 _].
        cbn [List.filter is_chunk_write List.length]. split; [lia | lia].
Qed.


Lemma raise_for_status_cases code reason s :
  (exists e, raise_for_status code reason s = (Raise e, s))
  \/ raise_for_status code reason s = (Ok tt, s).
Proof. unfold raise_for_status. destruct (_ && _); cbn; eauto. Qed.

(** What [_download_update] does: some preparation, then the loop. *)
Lemma download_update_shape env url uid s r s' :
  _download_update env url uid s = (r, s') ->
  exists evs ps,
    grows s s' evs
    /\ Forall (fun ev => is_install ev = false) evs
    /\ reports evs = map (fun p => ("downloading", Some p)) ps
    /\ (within_announced_length env (trace s) evs = true ->
        Forall (fun p => 0 <= p <= 50) ps /\ nondecreasing ps = true)
    /\ (forall file, r = Ok file ->
          file = update_path env uid
          /\ fs s' !! file = Some (written_to file evs)).
Proof.
  unfold _download_update. fold (update_path env uid).
  set (dir := home env +:+ "/.fleetd/updates"). set (file := update_path env uid).
  set (mk := EvMakedirs dir). set (dl := EvDownload url).
  intros Hrun.
  assert (Stop : forall evs, grows s s' evs ->
            Forall (fun ev => is_install ev = false) evs -> reports evs = [] ->
            is_ok r = false ->
            exists evs ps,
              grows s s' evs
              /\ Forall (fun ev => is_install ev = false) evs
              /\ reports evs = map (fun p => ("downloading", Some p)) ps
              /\ (within_announced_length env (trace s) evs = true ->
                  Forall (fun p => 0 <= p <= 50) ps /\ nondecreasing ps = true)
              /\ (forall f, r = Ok f ->
                    f = file /\ fs s' !! f = Some (written_to f evs))).
  { intros evs Hg Hni Hrep Hr. exists evs, [].
    repeat split; auto; intros; subst; discriminate. }
  unfold bind at 1 in Hrun.
  destruct (os_call_cases env mk s) as [[e Hmk] | Hmk]; rewrite Hmk in Hrun.
  { injection Hrun as <- <-. apply (Stop [mk]); auto using grows_extend;
      repeat constructor. }
  unfold bind at 1, download_call in Hrun. rewrite trace_extend in Hrun.
  destruct (download env (trace s ++ [mk]) dl) as [e | d] eqn:Hd.
  { rewrite extend_extend in Hrun. injection Hrun as <- <-.
    apply (Stop ([mk] ++ [dl])); auto using grows_extend; repeat constructor. }
  rewrite extend_extend in Hrun. unfold bind at 1 in Hrun.
  destruct (raise_for_status_cases (dl_status d) (dl_reason d) (extend ([mk] ++ [dl]) s))
    as [[e Hst] | Hst]; rewrite Hst in Hrun.
  { injection Hrun as <- <-.
    apply (Stop ([mk] ++ [dl])); auto using grows_extend; repeat constructor. }
  unfold bind at 1, lift in Hrun.
  destruct (match dl_content_length d with Some v => v | None => Ok 0 end)
    as [total | e] eqn:Htotal.
  2:{ injection Hrun as <- <-.
      apply (Stop ([mk] ++ [dl])); auto using grows_extend; repeat constructor. }
  unfold bind at 1, open_write, bind at 1 in Hrun.
  set (op := EvOpen file "wb") in *.
  destruct (os_call_cases env op (extend ([mk] ++ [dl]) s)) as [[e Hop] | Hop];
    rewrite Hop in Hrun.
  { rewrite extend_extend in Hrun. injection Hrun as <- <-.
    apply (Stop (([mk] ++ [dl]) ++ [op])); auto using grows_extend; repeat constructor. }
  cbv beta iota in Hrun. rewrite extend_extend in Hrun.
  set (opened := with_fs _ _) in Hrun.
  assert (Hopened : grows s opened (([mk] ++ [dl]) ++ [op])) by apply grows_with_fs.
  assert (Hempty : fs opened !! file = Some []) by (unfold opened; cbn; apply lookup_insert_eq).
  unfold bind at 1 in Hrun.
  destruct (download_chunks env uid file total 0 (dl_chunks d) opened) as [loop s2] eqn:Hloop.
  apply download_chunks_shape in Hloop
    as (evs & ps & Hg & Hni & Hfile & Hrep & Hnone & Hmono & Hcount).
  assert (Hpre : written_to file (([mk] ++ [dl]) ++ [op]) = []) by reflexivity.
  assert (Hhonest :
            within_announced_length env (trace s) ((([mk] ++ [dl]) ++ [op]) ++ evs) = true ->
            Forall (fun p => 0 <= p <= 50) ps /\ nondecreasing ps = true).
  { intros Hh. destruct (Z.ltb_spec 0 total) as [Hpos | Hneg].
    - destruct (dl_content_length d) as [v |] eqn:Hcl; [| injection Htotal as <-; lia].
      subst v.
      pose proof (within_announced_length_at env [mk] url (op :: evs) (trace s) d total
                    Hh Hd Hcl Hpos) as Hle.
      change (bytes_received (op :: evs)) with (bytes_received evs) in Hle.
      destruct Hmono as [Hall Hsorted]; [lia | lia |]. split; [| exact Hsorted].
      eapply Forall_impl; [exact Hall |]. cbv beta. intros p.
      rewrite FloatFacts.raw_progress_zero by lia. lia.
    - rewrite (Hnone Hneg). split; [constructor | reflexivity]. }
  assert (Hs' : s' = s2).
  { destruct loop; [destruct (dl_broken d) |]; by injection Hrun as _ <-. }
  subst s'.
  exists ((([mk] ++ [dl]) ++ [op]) ++ evs), ps.
  split; [eapply grows_trans; eauto |].
  split; [repeat constructor; auto |].
  split; [exact Hrep |]. split; [exact Hhonest |].
  intros f Hf. subst r.
  destruct loop as [n | e]; [| discriminate].
  destruct (dl_broken d) as [e |]; [discriminate |].
  injection Hrun as <-. split; [reflexivity |].
  rewrite (Hfile eq_refl [] Hempty). reflexivity.
Qed.


Lemma eq_str_true (v : json) (t : string) : eq_str v t = true <-> v = JStr t.
Proof.
  destruct v; cbn; try (split; [discriminate | intros [=]]).
  rewrite String.eqb_eq. split; [by intros -> | by intros [= ->]].
Qed.

(** [_verify_checksum] opens the file and compares the digest of all of it
    with the expected value. *)
Lemma verify_run env path expected s data :
  fs s !! path = Some data ->
  (exists e, _verify_checksum env path expected s
             = (Raise e, extend [EvOpen path "rb"] s))
  \/ _verify_checksum env path expected s
     = (Ok (eq_str expected (Sha256.hexdigest data)), extend [EvOpen path "rb"] s).
Proof.
  intros Hdata.
  destruct (os_call_cases env (EvOpen path "rb") s) as [[e He] | He];
    [left; exists e | right];
    unfold _verify_checksum, open_read, bind; rewrite He; [reflexivity |].
  change (fs (extend [EvOpen path "rb"] s)) with (fs s).
  rewrite Hdata. unfold ret.
  by rewrite HashFacts.read_blocks_whole.
Qed.

(** The runs of the [try] block of the update handler: the first report,
    the download, and then one of three endings. *)
Lemma update_body_shape env id payload uid url checksum s r s' :
  update_body env id payload uid url checksum s = (r, s') ->
  exists dl ps tail,
    grows s s' ([report uid "downloading" (Some 0) None] ++ dl ++ tail)
    /\ Forall (fun ev => is_install ev = false) dl
    /\ reports dl = map (fun p => ("downloading", Some p)) ps
    /\ (within_announced_length env
          (trace s ++ [report uid "downloading" (Some 0) None]) dl = true ->
        Forall (fun p => 0 <= p <= 50) ps /\ nondecreasing ps = true)
    /\ ((tail = [] /\ is_ok r = false)
        \/ (tail = after_download uid (update_path env uid) /\ is_ok r = false)
        \/ (exists rest,
              tail = after_download uid (update_path env uid)
                     ++ after_verify id uid (update_path env uid) ++ rest
              /\ reports rest = []
              /\ Forall (fun ev => is_install ev = false) rest
              /\ fs s' !! update_path env uid
                 = Some (written_to (update_path env uid) dl)
              /\ checksum
                 = JStr (Sha256.hexdigest (written_to (update_path env uid) dl)))).
Proof.
  unfold update_body. intros Hrun.
  unfold bind at 1 in Hrun. rewrite report_run in Hrun.
  fold (report uid "downloading" (Some 0) None) in Hrun.
  set (first := report uid "downloading" (Some 0) None) in *.
  unfold bind at 1 in Hrun.
  destruct (_download_update env url uid (extend [first] s)) as [got s1] eqn:Hdl.
  apply download_update_shape in Hdl as (dl & ps & Hg & Hni & Hrep & Hmono & Hfile).
  assert (G1 : grows s s1 ([first] ++ dl))
    by (eapply grows_trans; [apply grows_extend | exact Hg]).
  exists dl, ps.
  destruct got as [file | e].
  2:{ injection Hrun as <- <-. exists []. rewrite app_nil_r. auto 10. }
  destruct (Hfile file eq_refl) as [-> Hdata]. clear Hfile.
  set (file := update_path env uid) in *.
  unfold bind at 1 in Hrun. rewrite report_run in Hrun.
  fold (report uid "verifying" (Some 50) None) in Hrun.
  unfold bind at 1 in Hrun.
  destruct (verify_run env file checksum
              (extend [report uid "verifying" (Some 50) None] s1) _ Hdata)
    as [[e Hv] | Hv]; rewrite Hv in Hrun; rewrite extend_extend in Hrun.
  { injection Hrun as <- <-. exists (after_download uid file).
    split; [| auto 10].
    rewrite app_assoc. eapply grows_trans; [exact G1 | apply grows_extend]. }
  destruct (eq_str checksum _) eqn:Hsum; cbn [negb] in Hrun.
  2:{ injection Hrun as <- <-. exists (after_download uid file).
      split; [| auto 10].
      rewrite app_assoc. eapply grows_trans; [exact G1 | apply grows_extend]. }
  apply eq_str_true in Hsum.
  unfold bind at 1 in Hrun. rewrite report_run, extend_extend in Hrun.
  unfold bind at 1, _install_update, emit in Hrun. rewrite extend_extend in Hrun.
  unfold bind at 1 in Hrun. rewrite report_run, extend_extend in Hrun.
  unfold bind at 1 in Hrun. rewrite acknowledge_run, extend_extend in Hrun.
  cbn [app] in Hrun.
  change [report uid "verifying" (Some 50) None; EvOpen file "rb";
          EvPost (EpUpdateStatus uid) (status_data "installing" (Some 75) None);
          EvInstall file;
          EvPost (EpUpdateStatus uid) (status_data "completed" (Some 100) None);
          EvPost (EpAck id) (ack_data "completed" None None None)]
    with (after_download uid file ++ after_verify id uid file) in Hrun.
  set (done := after_download uid file ++ after_verify id uid file) in *.
  assert (Finish : forall rest, s' = extend (done ++ rest) s1 -> reports rest = [] ->
            Forall (fun ev => is_install ev = false) rest ->
            exists tail,
              grows s s' ([first] ++ dl ++ tail)
              /\ Forall (fun ev => is_install ev = false) dl
              /\ reports dl = map (fun p => ("downloading", Some p)) ps
              /\ (within_announced_length env (trace s ++ [first]) dl = true ->
                  Forall (fun p => 0 <= p <= 50) ps /\ nondecreasing ps = true)
              /\ ((tail = [] /\ is_ok r = false)
                  \/ (tail = after_download uid file /\ is_ok r = false)
                  \/ (exists rest,
                        tail = after_download uid file ++ after_verify id uid file ++ rest
                        /\ reports rest = []
                        /\ Forall (fun ev => is_install ev = false) rest
                        /\ fs s' !! file = Some (written_to file dl)
                        /\ checksum = JStr (Sha256.hexdigest (written_to file dl))))).
  { intros rest -> Hrest Hquiet. exists (done ++ rest).
    split; [rewrite app_assoc; eapply grows_trans; [exact G1 | apply grows_extend] |].
    do 3 (split; [assumption |]).
    right. right. exists rest. unfold done. rewrite <- app_assoc.
    repeat split; auto. }
  unfold bind at 1, lift in Hrun.
  destruct (get payload "reboot_required" JNull) as [flag | e].
  2:{ injection Hrun as <- <-. apply (Finish []); [by rewrite app_nil_r | reflexivity | constructor]. }
  destruct (truthy flag).
  2:{ injection Hrun as <- <-. apply (Finish []); [by rewrite app_nil_r | reflexivity | constructor]. }
  unfold bind at 1, emit in Hrun. rewrite extend_extend in Hrun.
  unfold bind at 1, proc_call in Hrun.
  destruct (proc env _ _); rewrite extend_extend, <- app_assoc in Hrun;
    injection Hrun as <- <-;
    apply (Finish [EvSleep 10; EvRun ["sudo"; "reboot"] false]);
    by repeat constructor.
Qed.


(** The runs of [_handle_update_command] on a payload that is a dict. *)
Lemma handle_update_shape env id payload uid url checksum s :
  get payload "update_id" JNull = Ok uid ->
  get payload "download_url" JNull = Ok url ->
  get payload "checksum" JNull = Ok checksum ->
  exists dl ps tail close s',
    _handle_update_command env id payload s = (Ok tt, s')
    /\ grows s s' ([report uid "downloading" (Some 0) None] ++ dl ++ tail ++ close)
    /\ Forall (fun ev => is_install ev = false) dl
    /\ reports dl = map (fun p => ("downloading", Some p)) ps
    /\ (within_announced_length env
          (trace s ++ [report uid "downloading" (Some 0) None]) dl = true ->
        Forall (fun p => 0 <= p <= 50) ps /\ nondecreasing ps = true)
    /\ (((tail = [] \/ tail = after_download uid (update_path env uid))
         /\ exists e, close = closing id uid e)
        \/ (exists rest,
              tail = after_download uid (update_path env uid)
                     ++ after_verify id uid (update_path env uid) ++ rest
              /\ reports rest = []
              /\ Forall (fun ev => is_install ev = false) rest
              /\ fs s' !! update_path env uid
                 = Some (written_to (update_path env uid) dl)
              /\ checksum
                 = JStr (Sha256.hexdigest (written_to (update_path env uid) dl))
              /\ (close = [] \/ exists e, close = closing id uid e))).
Proof.
  intros H1 H2 H3.
  unfold _handle_update_command, bind, lift, try_except. rewrite H1, H2, H3.
  destruct (update_body env id payload uid url checksum s) as [r s1] eqn:Hbody.
  apply update_body_shape in Hbody
    as (dl & ps & tail & Hg & Hni & Hrep & Hmono & Hend).
  exists dl, ps, tail.
  destruct r as [[] | e].
  - exists [], s1. rewrite app_nil_r.
    do 4 (split; [by auto |]). split; [exact Hmono |].
    destruct Hend as [[_ [=]] | [[_ [=]] | (rest & ? & ? & ? & ? & ?)]].
    right. exists rest. auto 10.
  - rewrite report_run, acknowledge_run, extend_extend.
    exists (closing id uid e), (extend (closing id uid e) s1).
    split; [reflexivity |].
    split.
    { replace ([report uid "downloading" (Some 0) None] ++ dl ++ tail ++ closing id uid e)
        with (([report uid "downloading" (Some 0) None] ++ dl ++ tail) ++ closing id uid e)
        by (by rewrite <- !app_assoc).
      eapply grows_trans; [exact Hg | apply grows_extend]. }
    do 3 (split; [assumption |]).
    destruct Hend as [[-> _] | [[-> _] | (rest & ? & ? & ? & ? & ?)]]; [left | left | right];
      eauto 10.
Qed.

End UpdateFacts.

(** ** Properties of the update handler *)

Module UpdateProperties.
Import Agent ExecutorFacts UpdateFacts.

Lemma no_install_not_in (evs : list Event) (f : string) :
  Forall (fun ev => is_install ev = false) evs -> ~ In (EvInstall f) evs.
Proof.
  intros Hall Hin. rewrite Forall_forall in Hall.
  apply list_elem_of_In in Hin. specialize (Hall _ Hin). discriminate.
Qed.

Ltac quiet :=
  repeat first [ assumption | apply Forall_app_2 | apply Forall_cons_2
               | apply Forall_nil_2 | reflexivity ].

Lemma written_to_app file (a b : list Event) :
  written_to file (a ++ b) = written_to file a ++ written_to file b.
Proof. unfold written_to. by rewrite omap_app, concat_app. Qed.

(** C1. Take an update job whose payload names [uid], [url] and
    [checksum].  If what is stored at the artifact path when the handler
    returns does not hash to [checksum], then the handler returned
    normally, its last two calls are the failed update-status report and the
    failed acknowledgment, and [_install_update] was not entered.
    Whenever [_install_update] is entered, it is entered once, after the
    stored file was opened for verification, and [checksum] is the digest
    of exactly the bytes written to that file before. *)
Theorem checksum_mismatch_never_installs env id payload uid url checksum s :
  get payload "update_id" JNull = Ok uid ->
  get payload "download_url" JNull = Ok url ->
  get payload "checksum" JNull = Ok checksum ->
  let run := _handle_update_command env id payload s in
  let file := update_path env uid in
  let evs := new_events s (snd run) in
  ((forall data, fs (snd run) !! file = Some data ->
                 checksum <> JStr (Sha256.hexdigest data)) ->
   fst run = Ok tt
   /\ (exists before e, evs = before ++ closing id uid e)
   /\ Forall (fun ev => is_install ev = false) evs)
  /\ (forall f, In (EvInstall f) evs ->
        exists before after,
          evs = before ++ EvInstall file :: after
          /\ In (EvOpen file "rb") before
          /\ Forall (fun ev => is_install ev = false) (before ++ after)
          /\ checksum = JStr (Sha256.hexdigest (written_to file before))).
Proof.
  intros H1 H2 H3 run file evs.
  destruct (handle_update_shape env id payload uid url checksum s H1 H2 H3)
    as (dl & ps & tail & close & s' & Hrun & Hg & Hni & _ & _ & Hend).
  fold file in Hend.
  assert (Hevs : evs = [report uid "downloading" (Some 0) None] ++ dl ++ tail ++ close).
  { unfold evs, run. rewrite Hrun. cbn [snd]. by apply grows_new_events. }
  assert (Hfs : fs (snd run) = fs s') by (unfold run; by rewrite Hrun).
  split.
  - intros Hbad. rewrite Hfs in Hbad.
    destruct Hend as [[Htail (e & ->)] | (rest & _ & _ & _ & Hdata & Hsum & _)].
    + split; [unfold run; by rewrite Hrun |]. split.
      * exists ([report uid "downloading" (Some 0) None] ++ dl ++ tail), e.
        rewrite Hevs. by rewrite <- !app_assoc.
      * rewrite Hevs. destruct Htail as [-> | ->]; quiet.
    + exfalso. exact (Hbad _ Hdata Hsum).
  - intros f Hin. rewrite Hevs in Hin.
    destruct Hend as [[Htail (e & ->)] | (rest & -> & _ & Hquiet & _ & Hsum & Hclosed)].
    + exfalso. revert Hin. apply no_install_not_in.
      destruct Htail as [-> | ->]; quiet.
    + exists ([report uid "downloading" (Some 0) None] ++ dl
              ++ after_download uid file ++ [report uid "installing" (Some 75) None]),
             ([report uid "completed" (Some 100) None; ack id "completed" None]
              ++ rest ++ close).
      split; [| split; [| split]].
      * rewrite Hevs. unfold after_verify. cbn [app]. rewrite <- !app_assoc. reflexivity.
      * apply in_or_app. right. apply in_or_app. right. cbn. auto.
      * destruct Hclosed as [-> | (e & ->)]; quiet.
      * rewrite Hsum. do 2 f_equal.
        rewrite !written_to_app. cbn [app].
        change (written_to file [report uid "downloading" (Some 0) None]) with (@nil Byte.byte).
        change (written_to file (after_download uid file)) with (@nil Byte.byte).
        change (written_to file [report uid "installing" (Some 75) None]) with (@nil Byte.byte).
        by rewrite !app_nil_r.
Qed.


Lemma checksum_mismatch_witness :
  let env := Scenario.download_world (Some 5) [Scenario.five_bytes] in
  let run := _handle_update_command env (JStr "c1")
               (Scenario.update_payload "0123") (Scenario.state0 env) in
  fst run = Ok tt
  /\ (exists before e,
        new_events (Scenario.state0 env) (snd run)
        = before ++ closing (JStr "c1") (JStr "u1") e)
  /\ Forall (fun ev => is_install ev = false)
       (new_events (Scenario.state0 env) (snd run)).
Proof.
  intros env run.
  destruct (checksum_mismatch_never_installs env (JStr "c1")
              (Scenario.update_payload "0123") (JStr "u1")
              (JStr "https://cdn/u1.bin") (JStr "0123") (Scenario.state0 env)
              eq_refl eq_refl eq_refl) as [Hfail _].
  apply Hfail. intros data Hdata.
  vm_compute in Hdata. injection Hdata as <-.
  vm_compute. discriminate.
Defined.

(** C2, as the code has it.  When the stored file can be opened,
    [_verify_checksum] returns normally, and it returns [True] exactly when
    the expected checksum is the string [hexdigest] prints, character for
    character.  That string is lower-case, so an expected checksum that
    differs from it only in letter case is rejected. *)
Theorem verify_checksum_is_exact env path expected s data :
  fs s !! path = Some data ->
  os_fault env (trace s) (EvOpen path "rb") = None ->
  exists ok,
    _verify_checksum env path expected s = (Ok ok, extend [EvOpen path "rb"] s)
    /\ (ok = true <-> expected = JStr (Sha256.hexdigest data))
    /\ lower (Sha256.hexdigest data) = Sha256.hexdigest data
    /\ (forall e, expected = JStr e ->
          lower e = Sha256.hexdigest data -> e <> Sha256.hexdigest data ->
          ok = false).
Proof.
  intros Hdata Hfault.
  exists (eq_str expected (Sha256.hexdigest data)).
  split; [| split; [apply eq_str_true | split; [apply HashFacts.hexdigest_lower |]]].
  - destruct (verify_run env path expected s data Hdata) as [[e He] | He]; [| exact He].
    unfold _verify_checksum, open_read, bind, os_call in He. rewrite Hfault in He.
    change (fs (extend [EvOpen path "rb"] s)) with (fs s) in He.
    rewrite Hdata in He. discriminate He.
  - intros e -> _ Hne. apply not_true_is_false. rewrite eq_str_true.
    intros [= ->]. by apply Hne.
Qed.

Lemma verify_checksum_witness :
  let env := Scenario.download_world (Some 5) [Scenario.five_bytes] in
  let s := with_fs {["/tmp/u1.bin" := Scenario.five_bytes]} (Scenario.state0 env) in
  exists ok,
    fst (_verify_checksum env "/tmp/u1.bin" (JStr Scenario.digest_upper) s) = Ok ok
    /\ ok = false.
Proof.
  intros env s.
  destruct (verify_checksum_is_exact env "/tmp/u1.bin" (JStr Scenario.digest_upper)
              s Scenario.five_bytes) as (ok & Hrun & _ & _ & Hcase);
    [reflexivity | reflexivity |].
  exists ok. split; [by rewrite Hrun |].
  apply (Hcase Scenario.digest_upper); [reflexivity | | ].
  - vm_compute. reflexivity.
  - vm_compute. discriminate.
Defined.

(** An update whose expected checksum is the upper-case spelling of the
    digest of the artifact is refused. *)
Lemma uppercase_checksum_rejected :
  let env := Scenario.download_world (Some 5) [Scenario.five_bytes] in
  let run := _execute_command env (Scenario.update_command Scenario.digest_upper)
               (Scenario.state0 env) in
  lower Scenario.digest_upper = Sha256.hexdigest Scenario.five_bytes
  /\ fs (snd run) !! "/home/pi/.fleetd/updates/u1.bin" = Some Scenario.five_bytes
  /\ fst (_verify_checksum env "/home/pi/.fleetd/updates/u1.bin"
            (JStr Scenario.digest_upper) (snd run)) = Ok false
  /\ last (trace (snd run))
     = Some (ack (JStr "c1") "failed" (Some "Checksum verification failed"))
  /\ existsb is_install (trace (snd run)) = false.
Proof. vm_compute. repeat split. Qed.


Lemma reports_app (a b : list Event) : reports (a ++ b) = reports a ++ reports b.
Proof. unfold reports. apply omap_app. Qed.

Lemma progress_through_download (ps : list Z) (rs : list (string * option Z)) :
  progress_until_terminal (map (fun p => ("downloading", Some p)) ps ++ rs)
  = ps ++ progress_until_terminal rs.
Proof.
  induction ps as [| p ps IH]; [reflexivity |].
  cbn [map app progress_until_terminal]. rewrite IH. reflexivity.
Qed.

Lemma nondecreasing_step (p q : Z) (l : list Z) :
  nondecreasing (p :: q :: l) = (p <=? q) && nondecreasing (q :: l).
Proof. reflexivity. Qed.

(** Values up to 50 that never decrease, followed by values from 50 on
    that never decrease. *)
Lemma nondecreasing_join (tl : list Z) :
  nondecreasing tl = true ->
  Forall (fun q => 50 <= q) tl ->
  forall ps lo,
    lo <= 50 -> Forall (fun p => p <= 50) ps ->
    nondecreasing (lo :: ps) = true ->
    nondecreasing (lo :: ps ++ tl) = true.
Proof.
  intros Htl Hge. induction ps as [| p ps IH]; intros lo Hlo Hall Hps.
  - cbn [app]. destruct tl as [| t tl]; [reflexivity |].
    rewrite nondecreasing_step, Htl, andb_true_r.
    apply Forall_cons_1 in Hge as [Ht _]. apply Z.leb_le. lia.
  - rewrite nondecreasing_step in Hps. apply andb_true_iff in Hps as [Hp Hps].
    apply Forall_cons_1 in Hall as [Hp50 Hall].
    cbn [app]. rewrite nondecreasing_step, Hp. cbn [andb]. by apply IH.
Qed.

(** The progress values of a whole update job, given those of its
    download. *)
Lemma job_progress_sorted (ps tl : list Z) :
  Forall (fun p => 0 <= p <= 50) ps -> nondecreasing ps = true ->
  nondecreasing tl = true -> Forall (fun q => 50 <= q) tl ->
  nondecreasing (0 :: ps ++ tl) = true.
Proof.
  intros Hall Hps Htl Hge. apply nondecreasing_join; auto; try lia.
  - eapply Forall_impl; [exact Hall |]. cbv beta. lia.
  - apply nondecreasing_cons; [| exact Hps].
    eapply Forall_impl; [exact Hall |]. cbv beta. lia.
Qed.

Lemma new_events_same (s : St) : new_events s s = [].
Proof. unfold new_events. apply drop_all. Qed.

Lemma progress_closing id uid e :
  progress_until_terminal (reports (closing id uid e)) = [].
Proof.
  unfold closing, report, ack, status_data, ack_data, opt_field.
  destruct (truthy _); reflexivity.
Qed.

(** C5, as the code has it.  When the bytes an update job receives after
    its download request never exceed a positive content-length announced
    for it (nothing is asked when the length announced is missing or not
    positive, or when no download is made), the progress values the job
    reports, up to and including its first terminal report, never
    decrease. *)
Theorem progress_never_decreases env id payload s :
  let job := new_events s (snd (_handle_update_command env id payload s)) in
  within_announced_length env (trace s) job = true ->
  nondecreasing (progress_until_terminal (reports job)) = true.
Proof.
  cbv zeta.
  destruct (get payload "update_id" JNull) as [uid | e] eqn:H1.
  2:{ unfold _handle_update_command, bind, lift. rewrite H1. cbn [snd].
      by rewrite new_events_same. }
  assert (Hd : exists d, payload = JDict d) by (destruct payload; try discriminate; eauto).
  destruct Hd as [d ->].
  destruct (handle_update_shape env id (JDict d) uid
              (match assoc "download_url" d with Some x => x | None => JNull end)
              (match assoc "checksum" d with Some x => x | None => JNull end)
              s H1 eq_refl eq_refl)
    as (dl & ps & tail & close & s' & Hrun & Hg & _ & Hrep & Hmono & Hend).
  rewrite Hrun. cbn [snd]. rewrite (grows_new_events _ _ _ Hg).
  intros Hwithin.
  apply within_announced_length_suffix, within_announced_length_prefix in Hwithin.
  destruct (Hmono Hwithin) as [Hall Hsorted].
  rewrite !reports_app, Hrep.
  change (reports [report uid "downloading" (Some 0) None])
    with [("downloading", Some 0)].
  cbn [app progress_until_terminal is_terminal String.eqb Ascii.eqb Bool.eqb orb].
  rewrite progress_through_download.
  destruct Hend as [[Htail (e & ->)] | (rest & -> & Hrest & _ & _ & _ & Hclosed)].
  - destruct Htail as [-> | ->].
    + cbn [reports omap list_omap app]. rewrite progress_closing.
      apply (job_progress_sorted ps []); auto.
    + change (reports (after_download uid (update_path env uid)))
        with [("verifying", Some 50)].
      cbn [app progress_until_terminal is_terminal String.eqb Ascii.eqb Bool.eqb orb].
      rewrite progress_closing.
      apply (job_progress_sorted ps [50]); auto. repeat constructor. lia.
  - rewrite !reports_app.
    change (reports (after_download uid (update_path env uid)))
      with [("verifying", Some 50)].
    change (reports (after_verify id uid (update_path env uid)))
      with [("installing", Some 75); ("completed", Some 100)].
    cbn [app progress_until_terminal is_terminal String.eqb Ascii.eqb Bool.eqb orb].
    apply (job_progress_sorted ps [50; 75; 100]); auto.
    repeat constructor; lia.
Qed.

Lemma progress_never_decreases_witness :
  (let env := Scenario.download_world (Some 10) Scenario.two_chunks in
   let s := Scenario.state0 env in
   let job := new_events s
                (snd (_handle_update_command env (JStr "c1")
                        (Scenario.update_payload Scenario.digest_lower) s)) in
   within_announced_length env (trace s) job = true
   /\ nondecreasing (progress_until_terminal (reports job)) = true)
  /\ (let env := Scenario.download_world (Some 0) [Scenario.five_bytes] in
      let s := Scenario.state0 env in
      let job := new_events s
                   (snd (_handle_update_command env (JStr "c1")
                           (Scenario.update_payload Scenario.digest_lower) s)) in
      within_announced_length env (trace s) job = true
      /\ nondecreasing (progress_until_terminal (reports job)) = true).
Proof.
  split.
  - assert (H : within_announced_length
                  (Scenario.download_world (Some 10) Scenario.two_chunks)
                  (trace (Scenario.state0
                            (Scenario.download_world (Some 10) Scenario.two_chunks)))
                  (new_events
                     (Scenario.state0
                        (Scenario.download_world (Some 10) Scenario.two_chunks))
                     (snd (_handle_update_command
                             (Scenario.download_world (Some 10) Scenario.two_chunks)
                             (JStr "c1")
                             (Scenario.update_payload Scenario.digest_lower)
                             (Scenario.state0
                                (Scenario.download_world (Some 10)
                                   Scenario.two_chunks)))))
                = true) by (vm_compute; reflexivity).
    split; [exact H |].
    exact (progress_never_decreases
             (Scenario.download_world (Some 10) Scenario.two_chunks) (JStr "c1")
             (Scenario.update_payload Scenario.digest_lower)
             (Scenario.state0 (Scenario.download_world (Some 10) Scenario.two_chunks))
             H).
  - assert (H : within_announced_length
                  (Scenario.download_world (Some 0) [Scenario.five_bytes])
                  (trace (Scenario.state0
                            (Scenario.download_world (Some 0) [Scenario.five_bytes])))
                  (new_events
                     (Scenario.state0
                        (Scenario.download_world (Some 0) [Scenario.five_bytes]))
                     (snd (_handle_update_command
                             (Scenario.download_world (Some 0) [Scenario.five_bytes])
                             (JStr "c1")
                             (Scenario.update_payload Scenario.digest_lower)
                             (Scenario.state0
                                (Scenario.download_world (Some 0)
                                   [Scenario.five_bytes])))))
                = true) by (vm_compute; reflexivity).
    split; [exact H |].
    exact (progress_never_decreases
             (Scenario.download_world (Some 0) [Scenario.five_bytes]) (JStr "c1")
             (Scenario.update_payload Scenario.digest_lower)
             (Scenario.state0 (Scenario.download_world (Some 0) [Scenario.five_bytes]))
             H).
Defined.

(** Five bytes arrive where two were announced: the job reports 0, then
    125, then 50. *)
Lemma progress_decreases_when_body_exceeds_announced_length :
  let env := Scenario.download_world (Some 2) [Scenario.five_bytes] in
  let run := _handle_update_command env (JStr "c1")
               (Scenario.update_payload Scenario.digest_lower) (Scenario.state0 env) in
  progress_until_terminal (reports (new_events (Scenario.state0 env) (snd run)))
  = [0; 125; 50; 75; 100]
  /\ nondecreasing
       (progress_until_terminal (reports (new_events (Scenario.state0 env) (snd run))))
     = false.
Proof. vm_compute. split; reflexivity. Qed.

(** C6, as the code has it.  With a known, positive total size the loop
    posts one progress report after every chunk it writes: when it ends
    normally, the number of reports equals the number of chunks. *)
Theorem one_report_per_chunk env uid file total downloaded chunks s n s' :
  0 < total ->
  download_chunks env uid file total downloaded chunks s = (Ok n, s') ->
  List.length (reports (new_events s s')) = List.length chunks
  /\ List.length (List.filter is_chunk_write (new_events s s')) = List.length chunks.
Proof.
  intros Hpos Hrun.
  apply download_chunks_shape in Hrun
    as (evs & ps & Hg & _ & _ & Hrep & _ & _ & Hcount).
  rewrite (grows_new_events _ _ _ Hg), Hrep, length_map.
  destruct (Hcount eq_refl) as [Hwrites Hreports].
  split; [by apply Hreports | exact Hwrites].
Qed.

Lemma one_report_per_chunk_witness :
  let env := Scenario.download_world (Some 10) Scenario.two_chunks in
  let run := download_chunks env (JStr "u1") "/home/pi/.fleetd/updates/u1.bin" 10 0
               Scenario.two_chunks (Scenario.state0 env) in
  List.length (reports (new_events (Scenario.state0 env) (snd run))) = 2%nat.
Proof.
  intros env run.
  apply (one_report_per_chunk env (JStr "u1") "/home/pi/.fleetd/updates/u1.bin" 10 0
           Scenario.two_chunks (Scenario.state0 env) 5 (snd run)).
  - lia.
  - vm_compute. reflexivity.
Defined.

(** A download of two chunks with a known size posts two progress reports,
    not fewer. *)
Lemma two_chunks_two_reports :
  let env := Scenario.download_world (Some 10) Scenario.two_chunks in
  let run := _download_update env (JStr "https://cdn/u1.bin") (JStr "u1")
               (Scenario.state0 env) in
  fst run = Ok "/home/pi/.fleetd/updates/u1.bin"
  /\ List.length Scenario.two_chunks = 2%nat
  /\ List.length (reports (new_events (Scenario.state0 env) (snd run))) = 2%nat
  /\ ~ (List.length (reports (new_events (Scenario.state0 env) (snd run)))
        < List.length Scenario.two_chunks)%nat.
Proof. vm_compute. repeat split. lia. Qed.

End UpdateProperties.

(** ** Enrollment and startup *)

Module StartupFacts.
Import Agent ExecutorFacts UpdateFacts.

(** On 409 [enroll] returns [True] having made one call and changed
    nothing. *)
Lemma enroll_conflict env s r :
  http env (trace s) (enroll_post env s) = HttpDone r ->
  status_code r = 409 ->
  enroll env s = (Ok true, extend [enroll_post env s] s).
Proof.
  intros Hhttp Hcode.
  unfold enroll, try_except, bind, http_call. fold (enroll_post env s).
  rewrite Hhttp, Hcode. reflexivity.
Qed.

Lemma load_credentials_absent env s :
  fs s !! credentials_file env = None ->
  _load_credentials env s = (Ok false, s).
Proof. intros H. unfold _load_credentials. by rewrite H. Qed.

(** [start] when no credentials are stored and enrollment answers 409. *)
Lemma start_after_conflict env s r :
  fs s !! credentials_file env = None ->
  http env (trace s) (enroll_post env s) = HttpDone r ->
  status_code r = 409 ->
  start env s
  = (Ok true,
     with_running true
       (extend (enroll_post env s
                :: startup_tail env (trace s ++ [enroll_post env s])) s)).
Proof.
  intros Hfile Hhttp Hcode.
  unfold start. unfold bind at 1. rewrite (load_credentials_absent env s Hfile).
  cbn [negb]. unfold bind at 1. rewrite (enroll_conflict env s r Hhttp Hcode).
  cbn [negb]. unfold bind at 1, try_except, bind at 1.
  cbv beta iota. rewrite trace_extend.
  unfold bind at 1, http_call. rewrite trace_extend.
  set (put := EvPut EpSystem (system_info env (trace s ++ [enroll_post env s]))).
  assert (E : forall (x : Res unit * St), snd x = extend [put] (extend [enroll_post env s] s) ->
            (let (r0, s') := let (r0, s') := x in
                             match r0 with Ok a => (Ok a, s') | Raise _ => ret tt s' end in
             match r0 with
             | Ok _ =>
                 ((fun s0 => (Ok tt, with_running true s0)) ;>
                  emit (EvThreadStart "_heartbeat_loop") ;>
                  emit (EvThreadStart "_telemetry_loop") ;>
                  emit (EvThreadStart "_command_loop") ;> ret true) s'
             | Raise e => (Raise e, s')
             end)
            = (Ok true,
               with_running true
                 (extend (enroll_post env s
                          :: startup_tail env (trace s ++ [enroll_post env s])) s))).
  { intros [[[] | e] s1] Hs1; cbn [snd] in Hs1; subst s1;
      unfold bind, emit, ret; cbv beta iota;
      destruct s; unfold extend, with_running, with_trace, startup_tail; cbn;
      do 2 f_equal; rewrite <- !app_assoc; reflexivity. }
  apply E.
  destruct (http env _ put) as [e | resp]; [reflexivity |].
  unfold raise_for_status. destruct (_ && _); reflexivity.
Qed.


(** C8. When the enrollment endpoint answers 409, [enroll] returns [True]
    having made that one call: no file is opened or written and the files
    are as before.  If no credentials were stored, [start] then goes on: it
    returns with [running] set and the three duty threads started, still
    without touching a file. *)
Theorem conflict_enrollment_proceeds env s r :
  http env (trace s) (enroll_post env s) = HttpDone r ->
  status_code r = 409 ->
  (fst (enroll env s) = Ok true
   /\ new_events s (snd (enroll env s)) = [enroll_post env s]
   /\ fs (snd (enroll env s)) = fs s)
  /\ (fs s !! credentials_file env = None ->
      fst (start env s) = Ok true
      /\ running (snd (start env s)) = true
      /\ new_events s (snd (start env s))
         = enroll_post env s :: startup_tail env (trace s ++ [enroll_post env s])
      /\ existsb is_file_write (new_events s (snd (start env s))) = false
      /\ fs (snd (start env s)) = fs s).
Proof.
  intros Hhttp Hcode. split.
  - rewrite (enroll_conflict env s r Hhttp Hcode). cbn [fst snd].
    repeat split. unfold new_events. rewrite trace_extend. apply drop_app_length.
  - intros Hfile. rewrite (start_after_conflict env s r Hfile Hhttp Hcode).
    cbn [fst snd].
    assert (Hnew : new_events s
                     (with_running true
                        (extend (enroll_post env s
                                 :: startup_tail env (trace s ++ [enroll_post env s])) s))
                   = enroll_post env s
                     :: startup_tail env (trace s ++ [enroll_post env s])).
    { unfold new_events. cbn [trace with_running]. rewrite trace_extend.
      apply drop_app_length. }
    rewrite Hnew. repeat split.
Qed.

Lemma conflict_enrollment_proceeds_witness :
  let env := Scenario.conflict_world in
  fst (start env (Scenario.state0 env)) = Ok true
  /\ running (snd (start env (Scenario.state0 env))) = true
  /\ fs (snd (start env (Scenario.state0 env))) = fs (Scenario.state0 env).
Proof.
  intros env.
  destruct (conflict_enrollment_proceeds env (Scenario.state0 env)
              {| status_code := 409; reason_text := "409 Client Error: Conflict";
                 json_body := Ok (JDict [("error", JStr "already enrolled")]) |}
              eq_refl eq_refl) as [_ Hstart].
  destruct (Hstart eq_refl) as (H1 & H2 & _ & _ & H3).
  auto.
Defined.

(** C10. On the 409 branch [enroll] returns [True] and leaves the device
    id, the configuration with its device token, the session headers and
    the files as they were.  Hence an agent built from a configuration
    without a device token, on a machine without stored credentials, comes
    out of [start] running its three duties with [device_id] still [None],
    no device token in the configuration, and the session headers of a
    fresh session. *)
Theorem conflict_enrollment_leaves_agent_unidentified env :
  (forall s r,
     http env (trace s) (enroll_post env s) = HttpDone r ->
     status_code r = 409 ->
     fst (enroll env s) = Ok true
     /\ device_id (snd (enroll env s)) = device_id s
     /\ config (snd (enroll env s)) = config s
     /\ session_headers (snd (enroll env s)) = session_headers s
     /\ fs (snd (enroll env s)) = fs s)
  /\ (forall cfg files r,
        device_token cfg = JNull ->
        files !! credentials_file env = None ->
        http env [] (enroll_post env (init env cfg files)) = HttpDone r ->
        status_code r = 409 ->
        let s' := snd (start env (init env cfg files)) in
        fst (start env (init env cfg files)) = Ok true
        /\ running s' = true
        /\ device_id s' = JNull
        /\ device_token (config s') = JNull
        /\ session_headers s' = default_headers env
        /\ fs s' = files
        /\ (exists before,
              trace s' = before ++ [EvThreadStart "_heartbeat_loop";
                                    EvThreadStart "_telemetry_loop";
                                    EvThreadStart "_command_loop"])).
Proof.
  split.
  - intros s r Hhttp Hcode. rewrite (enroll_conflict env s r Hhttp Hcode).
    cbn [fst snd]. repeat split.
  - intros cfg files r Htoken Hfile Hhttp Hcode s'.
    assert (Hrun := start_after_conflict env (init env cfg files) r Hfile Hhttp Hcode).
    unfold s'. rewrite Hrun. cbn [fst snd].
    split; [reflexivity |]. split; [reflexivity |]. split; [reflexivity |].
    split; [| split; [| split; [reflexivity |]]].
    + cbn. destruct (truthy (hardware_id cfg)); exact Htoken.
    + cbn. rewrite Htoken. reflexivity.
    + eexists [_; _]. cbn. reflexivity.
Qed.

Lemma conflict_enrollment_leaves_agent_unidentified_witness :
  let env := Scenario.conflict_world in
  let s' := snd (start env (init env Scenario.config0 ∅)) in
  running s' = true /\ device_id s' = JNull /\ device_token (config s') = JNull.
Proof.
  intros env s'.
  destruct (conflict_enrollment_leaves_agent_unidentified env) as [_ Hstart].
  destruct (Hstart Scenario.config0 ∅
              {| status_code := 409; reason_text := "409 Client Error: Conflict";
                 json_body := Ok (JDict [("error", JStr "already enrolled")]) |}
              eq_refl (lookup_empty _) eq_refl eq_refl) as (_ & H1 & H2 & H3 & _).
  auto.
Defined.

End StartupFacts.

(** ** The wake queue *)

Module QueueFacts.
Import Agent ExecutorFacts.

(** A heartbeat that is told of pending commands puts one notification at
    the back of the queue, whatever the queue holds. *)
Lemma heartbeat_signals env s :
  always_pending env ->
  exists post,
    send_heartbeat env s
    = (Ok true, with_queue (command_queue s ++ ["poll_commands"]) (extend [post] s)).
Proof.
  intros Hp.
  unfold send_heartbeat, try_except, bind, clock, http_call, raise_for_status,
    lift, queue_put, ret.
  match goal with
  | |- context [http env (trace s) ?ev] =>
      destruct (Hp (trace s) ev) as (r & body & pending & -> & -> & -> & -> & ->);
      exists ev
  end.
  reflexivity.
Qed.

(** C9, as the code has it.  The wake signal is an unbounded FIFO queue.
    While the command loop is busy, [n] heartbeats that are told of pending
    commands leave [n] more notifications pending, none is dropped and none
    of the heartbeats waits; a [get] of the command loop takes at most one
    of them. *)
Theorem wake_notifications_accumulate env s n :
  always_pending env ->
  running s = true ->
  (exists y,
     run env (repeat ActHeartbeat n) {| agent := s; poller := Busy |} = Some y
     /\ poller y = Busy
     /\ command_queue (agent y) = command_queue s ++ repeat "poll_commands" n)
  /\ List.length (command_queue (queue_get s))
     = Nat.pred (List.length (command_queue s)).
Proof.
  intros Hp Hrun. split.
  - revert s Hrun. induction n as [| n IH]; intros s Hrun.
    + eexists. cbn. rewrite app_nil_r. eauto.
    + destruct (heartbeat_signals env s Hp) as [post Hbeat].
      cbn [repeat run step poller agent]. rewrite Hrun, Hbeat. cbn [snd].
      destruct (IH (with_queue (command_queue s ++ ["poll_commands"]) (extend [post] s)))
        as (y & Hy & Hbusy & Hqueue); [exact Hrun |].
      exists y. split; [exact Hy |]. split; [exact Hbusy |].
      rewrite Hqueue. cbn [command_queue with_queue]. by rewrite <- app_assoc.
  - unfold queue_get. destruct (command_queue s) eqn:E; cbn; by rewrite ?E.
Qed.

Lemma busy_world_always_pending : always_pending Scenario.busy_world.
Proof.
  intros hist ev. eexists _, _, _. cbn. repeat split.
Qed.

Lemma wake_notifications_accumulate_witness :
  let env := Scenario.busy_world in
  let s := with_running true (Scenario.state0 env) in
  exists y,
    run env (repeat ActHeartbeat 3) {| agent := s; poller := Busy |} = Some y
    /\ poller y = Busy
    /\ command_queue (agent y) = ["poll_commands"; "poll_commands"; "poll_commands"].
Proof.
  intros env s.
  destruct (wake_notifications_accumulate env s 3 busy_world_always_pending eq_refl)
    as [Hacc _].
  exact Hacc.
Defined.

(** Two heartbeats while the command loop is busy polling: two
    notifications are pending. *)
Lemma two_notifications_pending :
  let env := Scenario.busy_world in
  let y0 := {| agent := with_running true (Scenario.state0 env); poller := Waiting |} in
  exists y,
    run env [ActGet; ActHeartbeat; ActHeartbeat] y0 = Some y
    /\ poller y = Busy
    /\ command_queue (agent y) = ["poll_commands"; "poll_commands"]
    /\ ~ (List.length (command_queue (agent y)) <= 1)%nat.
Proof.
  intros env y0. eexists. split; [vm_compute; reflexivity |].
  cbn. repeat split. lia.
Qed.

End QueueFacts.

(** ** The library models agree with Python on known values *)

Module Checks.

Example sha256_of_nothing :
  Sha256.hexdigest []
  = "e3b0c44298fc1c149afbf4c8996fb92427ae41e4649b934ca495991b7852b855".
Proof. vm_compute. reflexivity. Qed.

Example sha256_of_abc :
  Sha256.hexdigest [Byte.x61; Byte.x62; Byte.x63]
  = "ba7816bf8f01cfea414140de5dae2223b00361a396177a9cb410ff61f20015ad".
Proof. vm_compute. reflexivity. Qed.

Example sha256_of_two_blocks :
  Sha256.hexdigest (repeat Byte.x61 70)
  = "6bd5e5034855a11241f0dee8fc72850ffd9955b28347a86428b5fa19119f6ad0".
Proof. vm_compute. reflexivity. Qed.

Example sha256_of_five_bytes :
  Sha256.hexdigest Scenario.five_bytes = Scenario.digest_lower.
Proof. vm_compute. reflexivity. Qed.

(** [int((29 / 50) * 50)] is 28 in Python: the quotient rounds down and
    the product stays just below 29. *)
Example progress_29_of_50 : Agent.download_progress 29 50 = Ok 28.
Proof. vm_compute. reflexivity. Qed.

Example progress_1_of_3 : Agent.download_progress 1 3 = Ok 16.
Proof. vm_compute. reflexivity. Qed.

Example progress_large :
  Agent.download_progress 123456789 987654321 = Ok 6.
Proof. vm_compute. reflexivity. Qed.

Example progress_overshoot : Agent.download_progress 5 2 = Ok 125.
Proof. vm_compute. reflexivity. Qed.

Example progress_overflow :
  Agent.download_progress (2 ^ 1030) 1
  = Raise (Exn "OverflowError" "integer division result too large for a float").
Proof. vm_compute. reflexivity. Qed.

End Checks.

(** ** What command execution leaves alone *)

Module FrameFacts.
Import Agent ExecutorFacts UpdateFacts.

Lemma frames_ret {A} (a : A) : frames (ret a).
Proof. intros s. exists []. apply grows_refl. Qed.

Lemma frames_raise {A} (e : exn) : frames (@raise A e).
Proof. intros s. exists []. apply grows_refl. Qed.

Lemma frames_lift {A} (r : Res A) : frames (lift r).
Proof. intros s. exists []. apply grows_refl. Qed.

Lemma frames_read {A} (f : St -> A) : frames (fun s => (Ok (f s), s)).
Proof. intros s. exists []. apply grows_refl. Qed.

Lemma frames_bind {A B} (m : M A) (k : A -> M B) :
  frames m -> (forall a, frames (k a)) -> frames (bind m k).
Proof.
  intros Hm Hk s. unfold bind.
  destruct (Hm s) as [evs1 H1]. destruct (m s) as [[a | e] s1]; cbn [snd] in H1.
  - destruct (Hk a s1) as [evs2 H2]. exists (evs1 ++ evs2). eapply grows_trans; eauto.
  - exists evs1. exact H1.
Qed.

Lemma frames_try {A} (body : M A) (handler : exn -> M A) :
  frames body -> (forall e, frames (handler e)) -> frames (try_except body handler).
Proof.
  intros Hm Hk s. unfold try_except.
  destruct (Hm s) as [evs1 H1]. destruct (body s) as [[a | e] s1]; cbn [snd] in H1.
  - exists evs1. exact H1.
  - destruct (Hk e s1) as [evs2 H2]. exists (evs1 ++ evs2). eapply grows_trans; eauto.
Qed.

Lemma frames_emit ev : frames (emit ev).
Proof. intros s. exists [ev]. apply grows_extend. Qed.

Lemma frames_http env ev : frames (http_call env ev).
Proof.
  intros s. exists [ev]. unfold http_call.
  destruct (http env _ _); apply grows_extend.
Qed.

Lemma frames_download env ev : frames (download_call env ev).
Proof.
  intros s. exists [ev]. unfold download_call.
  destruct (download env _ _); apply grows_extend.
Qed.

Lemma frames_proc env ev : frames (proc_call env ev).
Proof.
  intros s. exists [ev]. unfold proc_call.
  destruct (proc env _ _); apply grows_extend.
Qed.

Lemma frames_os env ev : frames (os_call env ev).
Proof.
  intros s. exists [ev]. unfold os_call.
  destruct (os_fault env _ _); apply grows_extend.
Qed.

Lemma frames_set_fs (f : St -> gmap string (list Byte.byte)) :
  frames (fun s => (Ok tt, with_fs (f s) s)).
Proof.
  intros s. exists []. cbn [snd]. unfold grows. rewrite extend_nil. by destruct s.
Qed.

Lemma frames_status code reason : frames (raise_for_status code reason).
Proof. unfold raise_for_status. destruct (_ && _); [apply frames_raise | apply frames_ret]. Qed.

Lemma frames_acknowledge env id st m r e : frames (_acknowledge_command env id st m r e).
Proof. intros s. rewrite acknowledge_run. eexists. apply grows_extend. Qed.

Lemma frames_report env id st p e : frames (_report_update_status env id st p e).
Proof. intros s. rewrite report_run. eexists. apply grows_extend. Qed.

Lemma frames_open_read env path mode : frames (open_read env path mode).
Proof.
  unfold open_read. apply frames_bind; [apply frames_os |]. intros _ s.
  exists []. destruct (fs s !! path); apply grows_refl.
Qed.

Create HintDb frames.
#[local] Hint Resolve frames_ret frames_raise frames_lift frames_emit frames_http
  frames_download frames_proc frames_os frames_status frames_acknowledge
  frames_report frames_open_read frames_set_fs frames_read : frames.

(** Peels one layer of agent code: a known piece, or else a bind, a
    [try], a branch. *)
Ltac frame_step :=
  first
    [ solve [auto 1 with frames nocore]
    | apply frames_bind; [| intros ?]
    | apply frames_try; [| intros ?]
    | match goal with
      | |- frames (if ?b then _ else _) => destruct b
      | |- frames (match ?x with _ => _ end) => destruct x
      end ].

Ltac frame := repeat frame_step.

Lemma frames_download_chunks env uid file total chunks :
  forall downloaded, frames (download_chunks env uid file total downloaded chunks).
Proof.
  induction chunks as [| chunk rest IH]; intros downloaded; cbn [download_chunks].
  - apply frames_ret.
  - unfold file_write, download_progress. frame.
Qed.
#[local] Hint Resolve frames_download_chunks : frames.

Lemma frames_open_write env path mode : frames (open_write env path mode).
Proof. unfold open_write. frame. Qed.
#[local] Hint Resolve frames_open_write : frames.

Lemma frames_download_update env url uid : frames (_download_update env url uid).
Proof. unfold _download_update. frame. Qed.
#[local] Hint Resolve frames_download_update : frames.

Lemma frames_verify env path expected : frames (_verify_checksum env path expected).
Proof. unfold _verify_checksum. frame. Qed.
#[local] Hint Resolve frames_verify : frames.

Lemma frames_handle_update env id payload : frames (_handle_update_command env id payload).
Proof. unfold _handle_update_command, update_body, _install_update. frame. Qed.
#[local] Hint Resolve frames_handle_update : frames.

Lemma frames_proc_checked env ev : frames (proc_call_checked env ev).
Proof. unfold proc_call_checked. frame. Qed.
#[local] Hint Resolve frames_proc_checked : frames.

Lemma frames_collect_logs env id payload : frames (_collect_and_upload_logs env id payload).
Proof. unfold _collect_and_upload_logs, collect_logs_body, clock. frame. Qed.
#[local] Hint Resolve frames_collect_logs : frames.

Lemma frames_execute_command env command : frames (_execute_command env command).
Proof. unfold _execute_command, execute_body. frame. Qed.
#[local] Hint Resolve frames_execute_command : frames.

Lemma frames_execute_all env commands : frames (execute_all env commands).
Proof.
  induction commands as [| command rest IH]; cbn [execute_all].
  - apply frames_ret.
  - apply frames_bind; [apply frames_execute_command | intros _; exact IH].
Qed.
#[local] Hint Resolve frames_execute_all : frames.

Lemma frames_poll_commands env : frames (poll_commands env).
Proof. unfold poll_commands. frame. Qed.

Lemma frames_send_telemetry env : frames (send_telemetry env).
Proof. unfold send_telemetry, clock. frame. Qed.

Lemma grows_identity (s s' : St) (evs : list Event) :
  grows s s' evs -> identity s' = identity s /\ command_queue s' = command_queue s.
Proof. unfold grows. intros ->. by destruct s. Qed.

End FrameFacts.

(** ** More on the command executor *)

Module ExecutorProperties.
Import Agent ExecutorFacts UpdateFacts FrameFacts.

(** X1. Reporting is best effort: whatever the server answers, an
    acknowledgment or an update-status report returns normally, having
    made exactly its one post and changed nothing else. *)
Theorem reporting_is_best_effort env s :
  (forall id st m r e,
     _acknowledge_command env id st m r e s
     = (Ok tt, extend [EvPost (EpAck id) (ack_data st m r e)] s))
  /\ (forall uid st p e,
        _report_update_status env uid st p e s
        = (Ok tt, extend [EvPost (EpUpdateStatus uid) (status_data st p e)] s)).
Proof. split; intros; [apply acknowledge_run | apply report_run]. Qed.

(** X2. Executing a command, and polling a whole batch, only makes calls
    and changes files: the configuration with its device token, the device
    id, the running flag, the session headers and the wake queue are as
    before, and the trace only grows. *)
Theorem execution_keeps_identity env s :
  (forall command,
     let s' := snd (_execute_command env command s) in
     identity s' = identity s
     /\ command_queue s' = command_queue s
     /\ exists evs, trace s' = trace s ++ evs)
  /\ (let s' := snd (poll_commands env s) in
      identity s' = identity s
      /\ command_queue s' = command_queue s
      /\ exists evs, trace s' = trace s ++ evs).
Proof.
  split; [intros command |]; cbv zeta.
  - destruct (frames_execute_command env command s) as [evs Hg].
    destruct (grows_identity _ _ _ Hg). eauto using grows_trace.
  - destruct (frames_poll_commands env s) as [evs Hg].
    destruct (grows_identity _ _ _ Hg). eauto using grows_trace.
Qed.

Lemma has_id_and_type_true (command : json) :
  has_id_and_type command = true ->
  exists id ty, getitem command "id" = Ok id /\ getitem command "command" = Ok ty.
Proof.
  unfold has_id_and_type. intros H. apply andb_true_iff in H as [H1 H2].
  destruct (getitem command "id"); [| discriminate].
  destruct (getitem command "command"); [| discriminate]. eauto.
Qed.

(** A command with an id and a type is always executed to the end. *)
Lemma execute_command_returns env command s :
  has_id_and_type command = true -> fst (_execute_command env command s) = Ok tt.
Proof.
  intros H. destruct (has_id_and_type_true _ H) as (id & ty & Hid & Hty).
  destruct (getitem_dict _ _ _ Hid) as [d ->].
  unfold _execute_command, bind, lift, try_except. rewrite Hid, Hty. cbn [get].
  destruct (execute_body _ _ _ _ _) as [[[] | e] s1]; [reflexivity |].
  by rewrite acknowledge_run.
Qed.

(** A command without an id or without a type raises at once. *)
Lemma execute_command_rejects env command s :
  has_id_and_type command = false ->
  exists e, _execute_command env command s = (Raise e, s).
Proof.
  unfold has_id_and_type, _execute_command, bind, lift. intros H.
  destruct (getitem command "id") as [id | e]; [| eauto].
  destruct (getitem command "command") as [ty | e]; [discriminate | eauto].
Qed.

Lemma execute_all_returns env commands : forall s,
  Forall (fun c => has_id_and_type c = true) commands ->
  fst (execute_all env commands s) = Ok tt.
Proof.
  induction commands as [| c rest IH]; intros s Hall; [reflexivity |].
  apply Forall_cons_1 in Hall as [Hc Hrest].
  cbn [execute_all]. unfold bind.
  pose proof (execute_command_returns env c s Hc) as Hok.
  destruct (_execute_command env c s) as [[[] | e] s1]; [| discriminate].
  by apply IH.
Qed.

Lemma execute_all_app env first second : forall s,
  Forall (fun c => has_id_and_type c = true) first ->
  execute_all env (first ++ second) s
  = execute_all env second (snd (execute_all env first s)).
Proof.
  induction first as [| c rest IH]; intros s Hall; [reflexivity |].
  apply Forall_cons_1 in Hall as [Hc Hrest].
  cbn [app execute_all]. unfold bind.
  pose proof (execute_command_returns env c s Hc) as Hok.
  destruct (_execute_command env c s) as [[[] | e] s1]; [| discriminate].
  by apply IH.
Qed.

(** What [poll_commands] does with a response that carries a list. *)
Lemma poll_runs_the_list env s r body items :
  http env (trace s) (EvGet EpCommands) = HttpDone r ->
  status_code r <> 204 ->
  (400 <=? status_code r) && (status_code r <? 600) = false ->
  json_body r = Ok body ->
  get body "commands" (JList []) = Ok (JList items) ->
  poll_commands env s
  = (Ok tt, snd (execute_all env items (extend [EvGet EpCommands] s))).
Proof.
  intros Hhttp H204 Hstatus Hbody Hitems.
  unfold poll_commands, try_except, bind, http_call, raise_for_status, lift.
  rewrite Hhttp. destruct (Z.eqb_spec (status_code r) 204) as [E | _]; [contradiction |].
  rewrite Hstatus. unfold ret. rewrite Hbody, Hitems. cbn [iterate].
  by destruct (execute_all env items _) as [[[] | e] s1].
Qed.

(** X3. The commands of a polled batch are executed serially, in the order
    of the response.  When the response carries the list [first ++ command
    :: rest] and the commands up to [command] have an id and a type, then
    the commands of [first] run to their end from the state right after
    the GET, [command] is executed in the state they left, and [rest] is run
    from the state [command] left: that is the state [poll_commands] ends
    in. *)
Theorem batch_runs_in_order env s r body first command rest :
  http env (trace s) (EvGet EpCommands) = HttpDone r ->
  status_code r <> 204 ->
  (400 <=? status_code r) && (status_code r <? 600) = false ->
  json_body r = Ok body ->
  get body "commands" (JList []) = Ok (JList (first ++ command :: rest)) ->
  Forall (fun c => has_id_and_type c = true) first ->
  has_id_and_type command = true ->
  let polled := extend [EvGet EpCommands] s in
  let before := execute_all env first polled in
  let this := _execute_command env command (snd before) in
  fst before = Ok tt
  /\ fst this = Ok tt
  /\ poll_commands env s = (Ok tt, snd (execute_all env rest (snd this)))
  /\ exists done later,
       trace (snd before) = trace s ++ EvGet EpCommands :: done
       /\ trace (snd (poll_commands env s))
          = trace s ++ EvGet EpCommands :: done
            ++ new_events (snd before) (snd this) ++ later.
Proof.
  intros Hhttp H204 Hstatus Hbody Hitems Hfirst Hcommand polled before this.
  assert (Hthis : fst this = Ok tt) by (by apply execute_command_returns).
  assert (Hpoll : poll_commands env s = (Ok tt, snd (execute_all env rest (snd this)))).
  { rewrite (poll_runs_the_list env s r body _ Hhttp H204 Hstatus Hbody Hitems).
    fold polled. rewrite execute_all_app by assumption. fold before.
    cbn [execute_all]. unfold bind. fold this.
    destruct this as [[[] | e] s1]; [reflexivity | discriminate]. }
  split; [by apply execute_all_returns |]. split; [exact Hthis |].
  split; [exact Hpoll |].
  destruct (frames_execute_all env first polled) as [done Hdone].
  destruct (frames_execute_command env command (snd before)) as [mine Hmine].
  destruct (frames_execute_all env rest (snd this)) as [later Hlater].
  exists done, later. fold before in Hdone. fold this in Hlater, Hmine.
  apply grows_trace in Hdone as Tdone. apply grows_trace in Hlater as Tlater.
  rewrite (grows_new_events _ _ _ Hmine). apply grows_trace in Hmine as Tmine.
  rewrite Hpoll. cbn [snd]. rewrite Tlater, Tmine, Tdone.
  unfold polled. rewrite trace_extend, <- !app_assoc. split; reflexivity.
Qed.

Lemma batch_runs_in_order_witness :
  let a := JDict [("id", JStr "a"); ("command", JStr "dance")] in
  let b := JDict [("id", JStr "b"); ("command", JStr "sing")] in
  let c := JDict [("id", JStr "c"); ("command", JStr "jump")] in
  let body := JDict [("commands", JList ([a] ++ b :: [c]))] in
  let env := Scenario.world (Scenario.ok_response body) Scenario.no_download
               Scenario.exit0 in
  let s := Scenario.state0 env in
  acks (new_events s (snd (poll_commands env s)))
  = ["received"; "failed"; "received"; "failed"; "received"; "failed"]
  /\ poll_commands env s
     = (Ok tt,
        snd (execute_all env [c]
               (snd (_execute_command env b
                       (snd (execute_all env [a] (extend [EvGet EpCommands] s))))))).
Proof.
  intros a b c body env s. split; [vm_compute; reflexivity |].
  apply (batch_runs_in_order env s (Scenario.ok_response body) body [a] b [c]);
    try reflexivity.
  - discriminate.
  - repeat constructor.
Defined.

(** X4. A descriptor without an id or without a type stops the batch: the
    commands before it are executed, the exception leaves [execute_all]
    from the state they left, and neither the bad descriptor nor any
    command after it causes a single call. *)
Theorem malformed_command_aborts_batch env good bad rest s :
  Forall (fun c => has_id_and_type c = true) good ->
  has_id_and_type bad = false ->
  exists e,
    execute_all env (good ++ bad :: rest) s
    = (Raise e, snd (execute_all env good s)).
Proof.
  intros Hgood Hbad.
  assert (Hsplit : execute_all env (good ++ bad :: rest) s
                   = execute_all env (bad :: rest) (snd (execute_all env good s))).
  { clear Hbad. revert s. induction good as [| c more IH]; intros s; [reflexivity |].
    apply Forall_cons_1 in Hgood as [Hc Hmore].
    cbn [app execute_all]. unfold bind.
    pose proof (execute_command_returns env c s Hc) as Hok.
    destruct (_execute_command env c s) as [[[] | e] s1]; [| discriminate].
    by apply IH. }
  rewrite Hsplit. cbn [execute_all]. unfold bind.
  destruct (execute_command_rejects env bad (snd (execute_all env good s)) Hbad)
    as [e ->].
  eauto.
Qed.

Lemma malformed_command_aborts_batch_witness :
  let env := Scenario.busy_world in
  let a := JDict [("id", JStr "a"); ("command", JStr "dance")] in
  let bad := JDict [("command", JStr "reboot")] in
  let c := JDict [("id", JStr "c"); ("command", JStr "reboot")] in
  exists e,
    execute_all env ([a] ++ bad :: [c]) (Scenario.state0 env)
    = (Raise e, snd (execute_all env [a] (Scenario.state0 env))).
Proof.
  intros env a bad c.
  apply (malformed_command_aborts_batch env [a] bad [c] (Scenario.state0 env)).
  - repeat constructor.
  - reflexivity.
Defined.

(** X5. [poll_commands] never raises.  When the server answers 204, or
    the request itself fails, the GET is the only call it makes. *)
Theorem poll_never_raises env s :
  fst (poll_commands env s) = Ok tt
  /\ (forall r, http env (trace s) (EvGet EpCommands) = HttpDone r ->
                status_code r = 204 ->
                snd (poll_commands env s) = extend [EvGet EpCommands] s)
  /\ (forall e, http env (trace s) (EvGet EpCommands) = HttpFail e ->
                snd (poll_commands env s) = extend [EvGet EpCommands] s).
Proof.
  split; [| split].
  - unfold poll_commands, try_except.
    match goal with |- context [match ?b s with _ => _ end] => destruct (b s) as [[[] | e] s1] end;
      reflexivity.
  - intros r Hr Hcode. unfold poll_commands, try_except, bind, http_call.
    rewrite Hr, Hcode. reflexivity.
  - intros e He. unfold poll_commands, try_except, bind, http_call.
    rewrite He. reflexivity.
Qed.


Lemma poll_never_raises_witness :
  let env := Scenario.world {| status_code := 204; reason_text := "No Content";
                               json_body := Raise (Exn "JSONDecodeError" "Expecting value") |}
               Scenario.no_download Scenario.exit0 in
  snd (poll_commands env (Scenario.state0 env))
  = extend [EvGet EpCommands] (Scenario.state0 env).
Proof.
  intros env.
  destruct (poll_never_raises env (Scenario.state0 env)) as (_ & Hquiet & _).
  apply (Hquiet {| status_code := 204; reason_text := "No Content";
                   json_body := Raise (Exn "JSONDecodeError" "Expecting value") |});
    reflexivity.
Defined.

(** X6. A reboot command is acknowledged as received and as executing,
    then [sudo reboot] is run with [check=True].  What follows is decided by
    what that call gives: on exit status zero nothing more is sent; on any
    other exit status the command is acknowledged as failed with the text
    of the CalledProcessError; when the call itself raises, it is
    acknowledged as failed with the text of that exception.  A reboot is
    never acknowledged as completed. *)
Theorem reboot_is_never_completed env command id s :
  getitem command "id" = Ok id ->
  getitem command "command" = Ok (JStr "reboot") ->
  let run := _execute_command env command s in
  let launch := EvRun ["sudo"; "reboot"] true in
  let answer := proc env (trace s ++ [received id; executing id]) launch in
  fst run = Ok tt
  /\ (forall out err,
        answer = ProcExit 0 out err ->
        snd run = extend [received id; executing id; launch] s)
  /\ (forall rc out err,
        answer = ProcExit rc out err -> rc <> 0 ->
        snd run = extend [received id; executing id; launch;
                          ack id "failed" (Some (called_process_error env rc))] s)
  /\ (forall e,
        answer = ProcFail e ->
        snd run = extend [received id; executing id; launch;
                          ack id "failed" (Some (exn_text e))] s)
  /\ ~ In "completed" (acks (new_events s (snd run))).
Proof.
  intros Hid Hty run launch answer.
  destruct (getitem_dict _ _ _ Hid) as [d ->].
  assert (Hrun :
    run = match answer with
          | ProcExit rc _ _ =>
              if rc =? 0
              then (Ok tt, extend [received id; executing id; launch] s)
              else (Ok tt, extend [received id; executing id; launch;
                                   ack id "failed"
                                     (Some (called_process_error env rc))] s)
          | ProcFail e =>
              (Ok tt, extend [received id; executing id; launch;
                              ack id "failed" (Some (exn_text e))] s)
          end).
  { unfold run, _execute_command, bind, lift, try_except. rewrite Hid, Hty. cbn [get].
    unfold execute_body, bind. rewrite acknowledge_run.
    cbn [eq_str String.eqb]. simpl (Ascii.eqb _ _). cbv beta iota.
    rewrite acknowledge_run, extend_extend.
    unfold proc_call_checked, bind, proc_call. fold launch.
    change (proc env _ launch) with answer. clearbody answer.
    destruct answer as [e | rc out err].
    - rewrite extend_extend, acknowledge_run, extend_extend. reflexivity.
    - cbn [fst]. destruct (rc =? 0).
      + unfold ret. rewrite extend_extend. reflexivity.
      + unfold raise. rewrite extend_extend, acknowledge_run, extend_extend.
        reflexivity. }
  split; [| split; [| split; [| split]]].
  - rewrite Hrun. destruct answer as [e | rc out err]; [| destruct (rc =? 0)]; reflexivity.
  - intros out err E. rewrite Hrun, E. reflexivity.
  - intros rc out err E Hrc. rewrite Hrun, E.
    destruct (Z.eqb_spec rc 0); [contradiction | reflexivity].
  - intros e E. rewrite Hrun, E. reflexivity.
  - rewrite Hrun.
    destruct answer as [e | rc out err]; [| destruct (rc =? 0)]; cbn [snd];
      unfold new_events; rewrite trace_extend, drop_app_length; cbn;
      intuition discriminate.
Qed.

Lemma reboot_is_never_completed_witness :
  let env := Scenario.world (Scenario.ok_response (JDict [])) Scenario.no_download
               (ProcExit 1 "" "sudo: a password is required") in
  let command := JDict [("id", JStr "r1"); ("command", JStr "reboot")] in
  let s := Scenario.state0 env in
  snd (_execute_command env command s)
  = extend [received (JStr "r1"); executing (JStr "r1");
            EvRun ["sudo"; "reboot"] true;
            ack (JStr "r1") "failed"
              (Some "Command returned non-zero exit status.")] s.
Proof.
  intros env command s.
  destruct (reboot_is_never_completed env command (JStr "r1") s eq_refl eq_refl)
    as (_ & _ & Hfailed & _).
  apply (Hfailed 1 "" "sudo: a password is required"); [reflexivity | lia].
Defined.


(** X7. A collect_logs command for a log type other than "system" never
    runs journalctl: it uploads the one line "Log collection not
    implemented for type: ..." and, when the upload is accepted,
    acknowledges the command as completed. *)
Theorem unsupported_log_type_is_completed env command id payload t s :
  getitem command "id" = Ok id ->
  getitem command "command" = Ok (JStr "collect_logs") ->
  get command "payload" (JDict []) = Ok payload ->
  get payload "log_type" (JStr "system") = Ok (JStr t) ->
  String.eqb t "system" = false ->
  let run := _execute_command env command s in
  let upload :=
    EvPost EpLogs
      (JDict [("logs",
         JList [JDict [("timestamp", JStr (utcnow env (trace s ++ [received id]) +:+ "Z"));
                       ("level", JStr "info");
                       ("message",
                        JStr ("Log collection not implemented for type: " +:+ t))]])]) in
  fst run = Ok tt
  /\ existsb is_journal (new_events s (snd run)) = false
  /\ (forall r,
        http env (trace s ++ [received id]) upload = HttpDone r ->
        (400 <=? status_code r) && (status_code r <? 600) = false ->
        snd run = extend [received id; upload; ack id "completed" None] s).
Proof.
  intros Hid Hty Hpl Hlog Ht run upload.
  assert (Hd : exists d, payload = JDict d) by (destruct payload; try discriminate; eauto).
  destruct Hd as [d ->].
  assert (Hrun : exists tail,
            run = (Ok tt, extend ([received id; upload] ++ tail) s)
            /\ existsb is_journal tail = false
            /\ (forall r,
                  http env (trace s ++ [received id]) upload = HttpDone r ->
                  (400 <=? status_code r) && (status_code r <? 600) = false ->
                  tail = [ack id "completed" None])).
  { unfold run, _execute_command, bind, lift, try_except. rewrite Hid, Hty, Hpl.
    unfold execute_body, bind. rewrite acknowledge_run.
    cbn [eq_str String.eqb]. simpl (Ascii.eqb _ _). cbv beta iota.
    unfold _collect_and_upload_logs, try_except, collect_logs_body, bind, lift, clock.
    rewrite Hlog. cbn [get]. cbn [eq_str]. rewrite Ht. cbn [str_concat].
    rewrite trace_extend. unfold http_call. rewrite trace_extend.
    change (EvPost EpLogs _) with upload.
    change [EvPost (EpAck id) (ack_data "received" None None None)] with [received id].
    destruct (http env (trace s ++ [received id]) upload) as [e | r].
    - rewrite extend_extend, acknowledge_run, extend_extend.
      eexists. split; [reflexivity |]. split; [reflexivity |]. intros r [=].
    - unfold raise_for_status.
      destruct ((400 <=? status_code r) && (status_code r <? 600)) eqn:Hcode.
      + unfold raise. rewrite extend_extend, acknowledge_run, extend_extend.
        eexists. split; [reflexivity |]. split; [reflexivity |].
        intros r' [= <-] Hok. congruence.
      + unfold ret. rewrite extend_extend, acknowledge_run, extend_extend.
        eexists. split; [reflexivity |]. split; [reflexivity |]. reflexivity. }
  destruct Hrun as (tail & Hr & Hquiet & Hdone).
  rewrite Hr. cbn [fst snd]. split; [reflexivity |]. split.
  - unfold new_events. rewrite trace_extend, drop_app_length. cbn [app existsb is_journal].
    exact Hquiet.
  - intros r H1 H2. by rewrite (Hdone r H1 H2).
Qed.

Lemma unsupported_log_type_witness :
  let env := Scenario.world (Scenario.ok_response (JDict [])) Scenario.no_download
               Scenario.exit0 in
  let command := JDict [("id", JStr "l1"); ("command", JStr "collect_logs");
                        ("payload", JDict [("log_type", JStr "kernel")])] in
  acks (new_events (Scenario.state0 env)
          (snd (_execute_command env command (Scenario.state0 env))))
  = ["received"; "completed"].
Proof.
  intros env command.
  destruct (unsupported_log_type_is_completed env command (JStr "l1")
              (JDict [("log_type", JStr "kernel")]) "kernel" (Scenario.state0 env)
              eq_refl eq_refl eq_refl eq_refl eq_refl)
    as (_ & _ & Hdone).
  rewrite (Hdone (Scenario.ok_response (JDict []))); reflexivity.
Defined.

End ExecutorProperties.

(** ** More on the update handler *)

Module UpdateMore.
Import Agent ExecutorFacts UpdateFacts.

(** A loop that ends normally has appended every chunk to the file and
    touched no other file. *)
Lemma download_chunks_stores env uid file total :
  forall chunks downloaded s n s',
    download_chunks env uid file total downloaded chunks s = (Ok n, s') ->
    n = downloaded + Z.of_nat (List.length (concat chunks))
    /\ (forall cur, fs s !! file = Some cur ->
          fs s' !! file = Some (cur ++ concat chunks))
    /\ (forall other, other <> file -> fs s' !! other = fs s !! other).
Proof.
  induction chunks as [| chunk rest IH]; intros downloaded s n s' Hrun.
  - injection Hrun as <- <-. cbn. split; [lia |]. split; [| reflexivity].
    intros cur ->. by rewrite app_nil_r.
  - apply download_chunks_cons in Hrun. cbv zeta in Hrun.
    set (written := with_fs _ _) in Hrun.
    assert (Hfs : forall cur, fs s !! file = Some cur ->
                    fs written !! file = Some (cur ++ chunk)).
    { intros cur Hcur. unfold written. cbn. rewrite Hcur. apply lookup_insert_eq. }
    assert (Hother : forall other, other <> file -> fs written !! other = fs s !! other).
    { intros other Hne. unfold written. cbn. by apply lookup_insert_ne. }
    assert (Hlen : downloaded + Z.of_nat (List.length chunk)
                   + Z.of_nat (List.length (concat rest))
                   = downloaded + Z.of_nat (List.length (concat (chunk :: rest)))).
    { cbn [concat]. rewrite length_app. lia. }
    destruct Hrun as [(e & [=] & _) | [(_ & e & [=] & _) | [(_ & p & _ & Hrest) | (_ & Hrest)]]];
      apply IH in Hrest as (Hn & Hfile & Hframe).
    all: split; [lia |]; split.
    all: try (intros cur Hcur; cbn [concat]; rewrite app_assoc; apply Hfile; cbn; auto).
    all: intros other Hne; rewrite (Hframe other Hne); cbn; auto.
Qed.

(** X8. When [_download_update] returns, it returns the artifact path of
    the update id, the stream was not interrupted, and the file at that path
    holds exactly the chunks received, in order: whatever was stored there
    before is gone.  No other file has changed. *)
Theorem download_stores_the_stream env url uid s file s' :
  _download_update env url uid s = (Ok file, s') ->
  exists d,
    download env (trace s ++ [EvMakedirs (home env +:+ "/.fleetd/updates")])
      (EvDownload url) = DlOpen d
    /\ dl_broken d = None
    /\ file = update_path env uid
    /\ fs s' !! file = Some (concat (dl_chunks d))
    /\ (forall other, other <> file -> fs s' !! other = fs s !! other).
Proof.
  unfold _download_update. fold (update_path env uid).
  set (dir := home env +:+ "/.fleetd/updates"). set (path := update_path env uid).
  set (mk := EvMakedirs dir). set (dl := EvDownload url).
  intros Hrun.
  unfold bind at 1 in Hrun.
  destruct (os_call_cases env mk s) as [[e Hmk] | Hmk]; rewrite Hmk in Hrun;
    [discriminate |].
  unfold bind at 1, download_call in Hrun. rewrite trace_extend in Hrun.
  destruct (download env (trace s ++ [mk]) dl) as [e | d] eqn:Hd; [discriminate |].
  exists d. split; [reflexivity |].
  rewrite extend_extend in Hrun. unfold bind at 1 in Hrun.
  destruct (raise_for_status_cases (dl_status d) (dl_reason d) (extend ([mk] ++ [dl]) s))
    as [[e Hst] | Hst]; rewrite Hst in Hrun; [discriminate |].
  unfold bind at 1, lift in Hrun.
  destruct (match dl_content_length d with Some v => v | None => Ok 0 end)
    as [total | e]; [| discriminate].
  unfold bind at 1, open_write, bind at 1 in Hrun.
  set (op := EvOpen path "wb") in *.
  destruct (os_call_cases env op (extend ([mk] ++ [dl]) s)) as [[e Hop] | Hop];
    rewrite Hop in Hrun; [discriminate |].
  cbv beta iota in Hrun. rewrite extend_extend in Hrun.
  set (opened := with_fs _ _) in Hrun.
  assert (Hempty : fs opened !! path = Some []) by (unfold opened; cbn; apply lookup_insert_eq).
  assert (Hkeep : forall other, other <> path -> fs opened !! other = fs s !! other).
  { intros other Hne. unfold opened. cbn. by apply lookup_insert_ne. }
  unfold bind at 1 in Hrun.
  destruct (download_chunks env uid path total 0 (dl_chunks d) opened) as [[n | e] s2] eqn:Hloop;
    [| discriminate].
  apply download_chunks_stores in Hloop as (_ & Hfile & Hframe).
  destruct (dl_broken d) as [e |]; [discriminate |].
  injection Hrun as <- <-.
  split; [reflexivity |]. split; [reflexivity |]. split.
  - exact (Hfile [] Hempty).
  - intros other Hne. rewrite (Hframe other Hne). by apply Hkeep.
Qed.

Lemma download_stores_the_stream_witness :
  let env := Scenario.download_world (Some 10) Scenario.two_chunks in
  let s := with_fs {["/home/pi/.fleetd/updates/u1.bin" := [Byte.xff; Byte.xff]]}
             (Scenario.state0 env) in
  let run := _download_update env (JStr "https://cdn/u1.bin") (JStr "u1") s in
  fs (snd run) !! "/home/pi/.fleetd/updates/u1.bin" = Some Scenario.five_bytes.
Proof.
  intros env s run.
  destruct (download_stores_the_stream env (JStr "https://cdn/u1.bin") (JStr "u1") s
              "/home/pi/.fleetd/updates/u1.bin" (snd run))
    as (d & Hd & _ & _ & Hfile & _).
  - vm_compute. reflexivity.
  - vm_compute in Hd. injection Hd as <-. exact Hfile.
Defined.

(** X9. Without a positive total size (no content-length header counts as
    0) the download loop posts no progress report at all, however many
    chunks arrive and however the loop ends. *)
Theorem no_report_without_total_size env uid file total downloaded chunks s :
  total <= 0 ->
  reports (new_events s
             (snd (download_chunks env uid file total downloaded chunks s))) = [].
Proof.
  intros Hneg.
  destruct (download_chunks env uid file total downloaded chunks s) as [r s'] eqn:Hrun.
  apply download_chunks_shape in Hrun as (evs & ps & Hg & _ & _ & Hrep & Hnone & _).
  cbn [snd]. rewrite (grows_new_events _ _ _ Hg), Hrep, (Hnone Hneg). reflexivity.
Qed.

Lemma no_report_without_total_size_witness :
  let env := Scenario.download_world None Scenario.two_chunks in
  reports (new_events (Scenario.state0 env)
             (snd (download_chunks env (JStr "u1") "/home/pi/.fleetd/updates/u1.bin"
                     0 0 Scenario.two_chunks (Scenario.state0 env)))) = [].
Proof.
  intros env.
  apply (no_report_without_total_size env (JStr "u1") "/home/pi/.fleetd/updates/u1.bin"
           0 0 Scenario.two_chunks (Scenario.state0 env)).
  lia.
Defined.


(** X10. Within the announced size the progress computation
    [int((downloaded / total_size) * 50)] cannot overflow, its value lies
    between 0 and 50, it is 0 when nothing arrived and 50 when everything
    did, and it is at least the value computed for any smaller byte count. *)
Theorem progress_within_announced_size downloaded total :
  0 <= downloaded <= total -> 0 < total ->
  exists p,
    download_progress downloaded total = Ok p
    /\ 0 <= p <= 50
    /\ (downloaded = 0 -> p = 0)
    /\ (downloaded = total -> p = 50)
    /\ (forall earlier q,
          0 <= earlier <= downloaded ->
          download_progress earlier total = Ok q -> q <= p).
Proof.
  intros Hd Ht. exists (Float64.raw_progress downloaded total).
  split; [by apply FloatFacts.download_progress_defined |].
  split; [by apply FloatFacts.raw_progress_bounds |].
  split; [intros ->; by apply FloatFacts.raw_progress_zero |].
  split; [intros ->; by apply FloatFacts.raw_progress_full |].
  intros earlier q He Hq. apply FloatFacts.download_progress_value in Hq. subst q.
  apply FloatFacts.raw_progress_mono; lia.
Qed.

Lemma progress_within_announced_size_witness :
  exists p, download_progress 29 50 = Ok p /\ 0 <= p <= 50.
Proof.
  destruct (progress_within_announced_size 29 50) as (p & Hp & Hb & _); [lia | lia |].
  eauto.
Defined.

(** X11. An update job whose payload has no checksum entry is never
    installed: whatever is downloaded, the handler returns normally, its
    last two calls are the failed report and the failed acknowledgment,
    and [_install_update] is not entered. *)
Theorem job_without_checksum_never_installs env id d s :
  assoc "checksum" d = None ->
  let run := _handle_update_command env id (JDict d) s in
  let uid := match assoc "update_id" d with Some x => x | None => JNull end in
  fst run = Ok tt
  /\ (exists before e, new_events s (snd run) = before ++ closing id uid e)
  /\ Forall (fun ev => is_install ev = false) (new_events s (snd run)).
Proof.
  intros Hmissing run uid.
  destruct (handle_update_shape env id (JDict d) uid
              (match assoc "download_url" d with Some x => x | None => JNull end)
              JNull s eq_refl eq_refl)
    as (dl & ps & tail & close & s' & Hrun & Hg & Hni & _ & _ & Hend).
  { cbn [get]. by rewrite Hmissing. }
  unfold run. rewrite Hrun. cbn [fst snd]. rewrite (grows_new_events _ _ _ Hg).
  destruct Hend as [[Htail (e & ->)] | (rest & _ & _ & _ & _ & [=] & _)].
  split; [reflexivity |]. split.
  - exists ([report uid "downloading" (Some 0) None] ++ dl ++ tail), e.
    by rewrite <- !app_assoc.
  - destruct Htail as [-> | ->];
      repeat first [ assumption | apply Forall_app_2 | apply Forall_cons_2
                   | apply Forall_nil_2 | reflexivity ].
Qed.

Lemma job_without_checksum_witness :
  let env := Scenario.download_world (Some 5) [Scenario.five_bytes] in
  let payload := [("update_id", JStr "u1"); ("download_url", JStr "https://cdn/u1.bin")] in
  Forall (fun ev => is_install ev = false)
    (new_events (Scenario.state0 env)
       (snd (_handle_update_command env (JStr "c1") (JDict payload) (Scenario.state0 env)))).
Proof.
  intros env payload.
  apply (job_without_checksum_never_installs env (JStr "c1") payload (Scenario.state0 env)).
  reflexivity.
Defined.

(** X12. The install step cannot fail: once [_install_update] is entered,
    the next two calls are the completed report with progress 100 and the
    completed acknowledgment. *)
Theorem install_is_followed_by_completed env id payload uid url checksum s f :
  get payload "update_id" JNull = Ok uid ->
  get payload "download_url" JNull = Ok url ->
  get payload "checksum" JNull = Ok checksum ->
  In (EvInstall f) (new_events s (snd (_handle_update_command env id payload s))) ->
  exists before after,
    new_events s (snd (_handle_update_command env id payload s))
    = before ++ [EvInstall (update_path env uid);
                 report uid "completed" (Some 100) None;
                 ack id "completed" None] ++ after.
Proof.
  intros H1 H2 H3 Hin.
  destruct (handle_update_shape env id payload uid url checksum s H1 H2 H3)
    as (dl & ps & tail & close & s' & Hrun & Hg & Hni & _ & _ & Hend).
  rewrite Hrun in *. cbn [snd] in *. rewrite (grows_new_events _ _ _ Hg) in *.
  destruct Hend as [[Htail (e & ->)] | (rest & -> & _ & _ & _ & _ & _)].
  - exfalso. revert Hin. apply UpdateProperties.no_install_not_in.
    destruct Htail as [-> | ->];
      repeat first [ assumption | apply Forall_app_2 | apply Forall_cons_2
                   | apply Forall_nil_2 | reflexivity ].
  - exists ([report uid "downloading" (Some 0) None] ++ dl
            ++ after_download uid (update_path env uid)
            ++ [report uid "installing" (Some 75) None]), (rest ++ close).
    unfold after_verify. cbn [app]. rewrite <- !app_assoc. reflexivity.
Qed.

Lemma install_is_followed_by_completed_witness :
  let env := Scenario.download_world (Some 5) [Scenario.five_bytes] in
  let run := _handle_update_command env (JStr "c1")
               (Scenario.update_payload Scenario.digest_lower) (Scenario.state0 env) in
  exists before after,
    new_events (Scenario.state0 env) (snd run)
    = before ++ [EvInstall "/home/pi/.fleetd/updates/u1.bin";
                 report (JStr "u1") "completed" (Some 100) None;
                 ack (JStr "c1") "completed" None] ++ after.
Proof.
  intros env run.
  apply (install_is_followed_by_completed env (JStr "c1")
           (Scenario.update_payload Scenario.digest_lower) (JStr "u1")
           (JStr "https://cdn/u1.bin") (JStr Scenario.digest_lower)
           (Scenario.state0 env) "/home/pi/.fleetd/updates/u1.bin"
           eq_refl eq_refl eq_refl).
  vm_compute. tauto.
Defined.


End UpdateMore.

(** ** Digests and blocks *)

Module DigestFacts.
Import Agent ExecutorFacts UpdateFacts.

Lemma round_length (st : list Z) (kw : Z * Z) :
  List.length (Sha256.round st kw) = List.length st.
Proof.
  destruct st as [| a [| b [| c [| d [| e [| f [| g [| h [| i l]]]]]]]]]; reflexivity.
Qed.

Lemma rounds_length (kws : list (Z * Z)) : forall st,
  List.length (fold_left Sha256.round kws st) = List.length st.
Proof.
  induction kws as [| kw kws IH]; intros st; [reflexivity |].
  cbn [fold_left]. by rewrite IH, round_length.
Qed.

Lemma compress_length (hs block : list Z) :
  List.length (Sha256.compress hs block) = List.length hs.
Proof.
  unfold Sha256.compress.
  rewrite length_map, length_combine, rounds_length. lia.
Qed.

Lemma compress_all_length (blocks : list (list Z)) : forall hs,
  List.length (fold_left Sha256.compress blocks hs) = List.length hs.
Proof.
  induction blocks as [| b blocks IH]; intros hs; [reflexivity |].
  cbn [fold_left]. by rewrite IH, compress_length.
Qed.

Lemma be_bytes_length (n : nat) (x : Z) : List.length (Sha256.be_bytes n x) = n.
Proof. induction n as [| n IH]; cbn; [reflexivity | by rewrite IH]. Qed.

Lemma flat_map_length_const {A B} (f : A -> list B) (k : nat) (l : list A) :
  (forall x, List.length (f x) = k) -> List.length (flat_map f l) = (k * List.length l)%nat.
Proof.
  intros Hf. induction l as [| x l IH]; cbn [flat_map List.length]; [lia |].
  rewrite length_app, Hf, IH. lia.
Qed.

Lemma string_of_list_length (l : list ascii) :
  String.length (String.string_of_list_ascii l) = List.length l.
Proof. induction l as [| c l IH]; cbn; [reflexivity | by rewrite IH]. Qed.

Lemma hexdigest_length (msg : list Byte.byte) :
  String.length (Sha256.hexdigest msg) = 64%nat.
Proof.
  unfold Sha256.hexdigest, Sha256.digest_words.
  rewrite string_of_list_length.
  rewrite (flat_map_length_const Sha256.hex_of_byte 2) by reflexivity.
  rewrite (flat_map_length_const (Sha256.be_bytes 4) 4) by (intros; apply be_bytes_length).
  rewrite compress_all_length. reflexivity.
Qed.

(** X13. The digest [_verify_checksum] compares with is always 64
    characters long, so an expected checksum of any other length is
    rejected whenever the verification returns at all. *)
Theorem checksum_of_wrong_length_is_rejected env path expected s ok s' :
  _verify_checksum env path (JStr expected) s = (Ok ok, s') ->
  String.length expected <> 64%nat ->
  ok = false
  /\ forall data, String.length (Sha256.hexdigest data) = 64%nat.
Proof.
  intros Hrun Hlen. split; [| apply hexdigest_length].
  destruct (fs s !! path) as [data |] eqn:Hdata.
  - destruct (verify_run env path (JStr expected) s data Hdata) as [[e He] | He];
      rewrite He in Hrun; [discriminate |].
    injection Hrun as <- _. cbn [eq_str]. apply String.eqb_neq. intros ->.
    apply Hlen, hexdigest_length.
  - unfold _verify_checksum, open_read, bind in Hrun.
    destruct (os_call_cases env (EvOpen path "rb") s) as [[e He] | He];
      rewrite He in Hrun; [discriminate |].
    change (fs (extend [EvOpen path "rb"] s)) with (fs s) in Hrun.
    rewrite Hdata in Hrun. discriminate.
Qed.

Lemma checksum_of_wrong_length_witness :
  let env := Scenario.download_world (Some 5) [Scenario.five_bytes] in
  let s := with_fs {["/tmp/u1.bin" := Scenario.five_bytes]} (Scenario.state0 env) in
  fst (_verify_checksum env "/tmp/u1.bin" (JStr "08bb5e5d") s) = Ok false.
Proof.
  intros env s.
  destruct (verify_run env "/tmp/u1.bin" (JStr "08bb5e5d") s Scenario.five_bytes eq_refl)
    as [[e He] | He].
  - unfold _verify_checksum, open_read, bind, os_call in He. discriminate He.
  - destruct (checksum_of_wrong_length_is_rejected env "/tmp/u1.bin" "08bb5e5d" s _ _ He)
      as [Hok _]; [cbn; lia |].
    by rewrite He, Hok.
Defined.

Lemma read_blocks_concat (fuel : nat) : forall (data : list Byte.byte),
  (List.length data < fuel)%nat ->
  concat (read_blocks fuel data) = data
  /\ Forall (fun block => 0 < List.length block <= read_size)%nat (read_blocks fuel data).
Proof.
  induction fuel as [| fuel IH]; intros data Hlen; [lia |].
  cbn [read_blocks].
  destruct (firstn read_size data) as [| b block] eqn:E.
  - apply HashFacts.firstn_read_size_nil in E. subst. split; [reflexivity | constructor].
  - destruct (IH (skipn read_size data)) as [Hcat Hall].
    { destruct data as [| x data]; [discriminate |].
      rewrite length_skipn. unfold read_size. cbn [List.length] in *. lia. }
    split.
    + cbn [concat]. rewrite Hcat, <- E. apply firstn_skipn.
    + constructor; [| exact Hall].
      rewrite <- E. rewrite length_firstn.
      assert (0 < List.length (firstn read_size data))%nat
        by (rewrite E; cbn; lia).
      rewrite length_firstn in H. lia.
Qed.

(** X14. Reading a file for verification cuts it into blocks of at most
    4096 bytes, none of them empty, that put together are the file; the
    hash object is fed exactly the file. *)
Theorem blocks_cover_the_file (data : list Byte.byte) :
  let blocks := read_blocks (S (List.length data)) data in
  concat blocks = data
  /\ Forall (fun block => 0 < List.length block <= 4096)%nat blocks
  /\ fold_left sha256_update blocks [] = data.
Proof.
  cbv zeta. destruct (read_blocks_concat (S (List.length data)) data) as [H1 H2]; [lia |].
  split; [exact H1 |]. split; [exact H2 |]. apply HashFacts.read_blocks_whole.
Qed.

End DigestFacts.

(** ** Credentials, enrollment and startup *)

Module LifecycleFacts.
Import Agent ExecutorFacts UpdateFacts FrameFacts.

Section Preserve.

Variable R : St -> St -> Prop.
Hypothesis R_refl : forall s, R s s.
Hypothesis R_trans : forall a b c, R a b -> R b c -> R a c.

Lemma preserves_ret {A} (a : A) : preserves R (ret a).
Proof. intros s. apply R_refl. Qed.

Lemma preserves_raise {A} (e : exn) : preserves R (@raise A e).
Proof. intros s. apply R_refl. Qed.

Lemma preserves_lift {A} (r : Res A) : preserves R (lift r).
Proof. intros s. apply R_refl. Qed.

Lemma preserves_read {A} (f : St -> A) : preserves R (fun s => (Ok (f s), s)).
Proof. intros s. apply R_refl. Qed.

Lemma preserves_bind {A B} (m : M A) (k : A -> M B) :
  preserves R m -> (forall a, preserves R (k a)) -> preserves R (bind m k).
Proof.
  intros Hm Hk s. unfold bind. specialize (Hm s).
  destruct (m s) as [[a | e] s1]; cbn [snd] in Hm; [| exact Hm].
  eapply R_trans; [exact Hm | apply Hk].
Qed.

Lemma preserves_try {A} (body : M A) (handler : exn -> M A) :
  preserves R body -> (forall e, preserves R (handler e)) ->
  preserves R (try_except body handler).
Proof.
  intros Hm Hk s. unfold try_except. specialize (Hm s).
  destruct (body s) as [[a | e] s1]; cbn [snd] in Hm; [exact Hm |].
  eapply R_trans; [exact Hm | apply Hk].
Qed.

End Preserve.

Lemma before_duties_refl (s : St) : before_duties s s.
Proof.
  repeat split. exists []. split; [by rewrite app_nil_r | constructor].
Qed.

Lemma before_duties_trans (a b c : St) :
  before_duties a b -> before_duties b c -> before_duties a c.
Proof.
  intros (R1 & Q1 & e1 & T1 & F1) (R2 & Q2 & e2 & T2 & F2).
  split; [congruence |]. split; [congruence |].
  exists (e1 ++ e2). split; [by rewrite T2, T1, app_assoc | by apply Forall_app_2].
Qed.

(** A call that is not a thread start, with whatever change to the
    credentials or the files. *)
Lemma before_duties_call (ev : Event) (s s' : St) :
  is_thread_start ev = false ->
  running s' = running s -> command_queue s' = command_queue s ->
  trace s' = trace s ++ [ev] ->
  before_duties s s'.
Proof. intros Hev Hr Hq Ht. repeat split; auto. exists [ev]. split; auto. Qed.

Lemma quiet_http env ev :
  is_thread_start ev = false -> preserves before_duties (http_call env ev).
Proof.
  intros Hev s. unfold http_call.
  destruct (http env _ _); by apply (before_duties_call ev).
Qed.

Lemma quiet_os env ev :
  is_thread_start ev = false -> preserves before_duties (os_call env ev).
Proof.
  intros Hev s. unfold os_call.
  destruct (os_fault env _ _); by apply (before_duties_call ev).
Qed.

Lemma quiet_update (f : St -> St) :
  (forall s, running (f s) = running s /\ command_queue (f s) = command_queue s
             /\ trace (f s) = trace s) ->
  preserves before_duties (fun s => (Ok tt, f s)).
Proof.
  intros Hf s. destruct (Hf s) as (H1 & H2 & H3). cbn [snd].
  repeat split; auto. exists []. split; [by rewrite app_nil_r | constructor].
Qed.

Lemma quiet_status code reason : preserves before_duties (raise_for_status code reason).
Proof.
  unfold raise_for_status. destruct (_ && _);
    [apply preserves_raise | apply preserves_ret]; apply before_duties_refl.
Qed.

Ltac quiet_step :=
  first
    [ apply preserves_bind; [apply before_duties_trans | | intros ?]
    | apply preserves_try; [apply before_duties_trans | | intros ?]
    | apply preserves_ret; apply before_duties_refl
    | apply preserves_raise; apply before_duties_refl
    | apply preserves_lift; apply before_duties_refl
    | apply quiet_http; reflexivity
    | apply quiet_os; reflexivity
    | apply quiet_status
    | apply quiet_update; intros; by repeat split
    | apply preserves_read; apply before_duties_refl
    | match goal with
      | |- preserves _ (if ?b then _ else _) => destruct b
      | |- preserves _ (match ?x with _ => _ end) => destruct x
      end ].

Lemma quiet_open_read env path mode : preserves before_duties (open_read env path mode).
Proof.
  unfold open_read. apply preserves_bind;
    [apply before_duties_trans | apply quiet_os; reflexivity |].
  intros _ s. destruct (fs s !! path); apply before_duties_refl.
Qed.

Lemma quiet_save env data : preserves before_duties (_save_credentials env data).
Proof. unfold _save_credentials, open_write, file_write, clock. repeat quiet_step. Qed.

Lemma quiet_enroll env : preserves before_duties (enroll env).
Proof. unfold enroll. repeat first [apply quiet_save | quiet_step]. Qed.

Lemma quiet_load env : preserves before_duties (_load_credentials env).
Proof.
  intros s. unfold _load_credentials.
  destruct (fs s !! credentials_file env); [| apply before_duties_refl].
  revert s. change (preserves before_duties
    (try_except
       (let* data := open_read env (credentials_file env) "r" in
        let* credentials := lift (json_loads env data) in
        let* id := lift (getitem credentials "device_id") in
        (fun s1 => (Ok tt, with_device_id id s1)) ;>
        let* token := lift (getitem credentials "device_token") in
        (fun s1 => (Ok tt,
           with_headers (<["X-Device-Token" := token]> (session_headers s1))
             (with_config (set_device_token token) s1))) ;>
        ret true)
       (fun _ => ret false))).
  repeat first [apply quiet_open_read | quiet_step].
Qed.

Lemma load_never_raises env s : exists b, fst (_load_credentials env s) = Ok b.
Proof.
  unfold _load_credentials. destruct (fs s !! credentials_file env); [| eauto].
  unfold try_except.
  match goal with |- context [match ?b s with _ => _ end] => destruct (b s) as [[x | e] s1] end;
    eauto.
Qed.

Lemma enroll_never_raises env s : exists b, fst (enroll env s) = Ok b.
Proof.
  unfold enroll, try_except.
  match goal with |- context [match ?b s with _ => _ end] => destruct (b s) as [[x | e] s1] end;
    eauto.
Qed.

End LifecycleFacts.

(** ** Properties of credentials, enrollment and startup *)

Module LifecycleProperties.
Import Agent ExecutorFacts UpdateFacts FrameFacts LifecycleFacts.

(** What [start] does once credentials are established. *)
Lemma startup_tail_run env s :
  (try_except
     (let* info := (fun s => (Ok (system_info env (trace s)), s)) in
      let* response := http_call env (EvPut EpSystem info) in
      raise_for_status (status_code response) (reason_text response))
     (fun _ => ret tt) ;>
   (fun s => (Ok tt, with_running true s)) ;>
   emit (EvThreadStart "_heartbeat_loop") ;>
   emit (EvThreadStart "_telemetry_loop") ;>
   emit (EvThreadStart "_command_loop") ;>
   ret true) s
  = (Ok true, with_running true (extend (startup_tail env (trace s)) s)).
Proof.
  unfold bind at 1.
  assert (Hput : try_except
            (let* info := (fun s => (Ok (system_info env (trace s)), s)) in
             let* response := http_call env (EvPut EpSystem info) in
             raise_for_status (status_code response) (reason_text response))
            (fun _ => ret tt) s
          = (Ok tt, extend [EvPut EpSystem (system_info env (trace s))] s)).
  { unfold try_except, bind, http_call, raise_for_status.
    destruct (http env _ _) as [e | r]; [reflexivity |].
    destruct (_ && _); reflexivity. }
  rewrite Hput. unfold bind, emit, ret.
  destruct s. unfold extend, with_running, with_trace, startup_tail. cbn.
  do 2 f_equal. rewrite <- !app_assoc. reflexivity.
Qed.

(** X15. [start] never raises and is all or nothing.  When it returns
    [False] the running flag and the wake queue are untouched and no thread
    was started; when it goes on, [running] is set and its last three calls
    start the heartbeat, telemetry and command threads, the only threads
    started. *)
Theorem start_is_all_or_nothing env s :
  exists b,
    fst (start env s) = Ok b
    /\ (b = false -> before_duties s (snd (start env s)))
    /\ (b = true ->
        running (snd (start env s)) = true
        /\ exists before,
             new_events s (snd (start env s))
             = before ++ [EvThreadStart "_heartbeat_loop";
                          EvThreadStart "_telemetry_loop";
                          EvThreadStart "_command_loop"]
             /\ Forall (fun ev => is_thread_start ev = false) before).
Proof.
  assert (H : exists b s',
            start env s = (Ok b, s')
            /\ (b = false -> before_duties s s')
            /\ (b = true ->
                running s' = true
                /\ exists before,
                     new_events s s'
                     = before ++ [EvThreadStart "_heartbeat_loop";
                                  EvThreadStart "_telemetry_loop";
                                  EvThreadStart "_command_loop"]
                     /\ Forall (fun ev => is_thread_start ev = false) before)).
  2:{ destruct H as (b & s' & -> & H). exists b. cbn [fst snd]. auto. }
  unfold start. unfold bind at 1.
  destruct (load_never_raises env s) as [loaded Hl].
  pose proof (quiet_load env s) as Q1.
  destruct (_load_credentials env s) as [r1 s1]. cbn [fst snd] in Hl, Q1. subst r1.
  unfold bind at 1.
  assert (H2 : exists enrolled,
            fst ((if negb loaded then enroll env else ret true) s1) = Ok enrolled
            /\ before_duties s1 (snd ((if negb loaded then enroll env else ret true) s1))).
  { destruct loaded; cbn [negb].
    - exists true. split; [reflexivity | apply before_duties_refl].
    - destruct (enroll_never_raises env s1) as [b Hb]. exists b.
      split; [exact Hb | apply quiet_enroll]. }
  destruct H2 as (enrolled & He & Q2).
  destruct ((if negb loaded then enroll env else ret true) s1) as [r2 s2].
  cbn [fst snd] in He, Q2. subst r2.
  pose proof (before_duties_trans _ _ _ Q1 Q2) as Q.
  destruct enrolled; cbn [negb].
  - rewrite startup_tail_run. exists true. eexists. split; [reflexivity |].
    split; [discriminate |]. intros _. split; [reflexivity |].
    destruct Q as (_ & _ & evs & Ht & Hquiet).
    exists (evs ++ [EvPut EpSystem (system_info env (trace s2))]). split.
    + unfold new_events. cbn [trace with_running]. rewrite trace_extend, Ht.
      unfold startup_tail. rewrite <- !app_assoc. apply drop_app_length.
    + apply Forall_app_2; [exact Hquiet | by repeat constructor].
  - exists false, s2. split; [reflexivity |]. split; [auto | discriminate].
Qed.


(** The runs of one heartbeat. *)
Lemma heartbeat_run env s :
  exists b post q,
    send_heartbeat env s = (Ok b, with_queue q (extend [post] s))
    /\ (q = command_queue s
        \/ (b = true /\ q = command_queue s ++ ["poll_commands"])).
Proof.
  unfold send_heartbeat, try_except, bind, clock, http_call, raise_for_status,
      lift, queue_put, ret.
    match goal with
    | |- context [http env (trace s) ?ev] =>
        set (post := ev); destruct (http env (trace s) post) as [e | r]
    end.
    - exists false, post, (command_queue s). split; [by destruct s | by left].
    - destruct (_ && _).
      + exists false, post, (command_queue s). split; [by destruct s | by left].
      + destruct (json_body r) as [body | e].
        2:{ exists false, post, (command_queue s). split; [by destruct s | by left]. }
        destruct (get body "pending_commands" (JInt 0)) as [pending | e].
        2:{ exists false, post, (command_queue s). split; [by destruct s | by left]. }
        destruct (gt_zero pending) as [[] | e].
        * exists true, post, (command_queue s ++ ["poll_commands"]).
          split; [reflexivity | by right].
        * exists true, post, (command_queue s). split; [by destruct s | by left].
        * exists false, post, (command_queue s). split; [by destruct s | by left].
Qed.

(** X16. A heartbeat never raises and makes exactly one call: the POST to
    the heartbeat endpoint, with the time, the uptime, status idle and
    version 1.0.0.  It changes nothing but the wake queue, and the queue only
    by appending one "poll_commands" at the back, which it does when the
    answer reports pending commands; a heartbeat that returns [False] leaves
    the queue as it was. *)
Theorem heartbeat_wakes_only_on_success env s :
  let post :=
    EvPost EpHeartbeat
      (JDict [("timestamp", JStr (utcnow env (trace s) +:+ "Z"));
              ("uptime", JInt (uptime env (trace s)));
              ("status", JStr "idle"); ("version", JStr "1.0.0")]) in
  let after := snd (send_heartbeat env s) in
  exists b,
    fst (send_heartbeat env s) = Ok b
    /\ new_events s after = [post]
    /\ identity after = identity s
    /\ fs after = fs s
    /\ (command_queue after = command_queue s
        \/ (b = true /\ command_queue after = command_queue s ++ ["poll_commands"]))
    /\ (forall r body pending,
          http env (trace s) post = HttpDone r ->
          (400 <=? status_code r) && (status_code r <? 600) = false ->
          json_body r = Ok body ->
          get body "pending_commands" (JInt 0) = Ok pending ->
          gt_zero pending = Ok true ->
          b = true /\ command_queue after = command_queue s ++ ["poll_commands"]).
Proof.
  intros post after.
  assert (Hrun : exists b q,
    send_heartbeat env s = (Ok b, with_queue q (extend [post] s))
    /\ (q = command_queue s \/ (b = true /\ q = command_queue s ++ ["poll_commands"]))
    /\ (forall r body pending,
          http env (trace s) post = HttpDone r ->
          (400 <=? status_code r) && (status_code r <? 600) = false ->
          json_body r = Ok body ->
          get body "pending_commands" (JInt 0) = Ok pending ->
          gt_zero pending = Ok true ->
          b = true /\ q = command_queue s ++ ["poll_commands"])).
  { unfold send_heartbeat, try_except, bind, clock, http_call, raise_for_status,
      lift, queue_put, ret. fold post.
    destruct (http env (trace s) post) as [e | r].
    - exists false, (command_queue s).
      split; [by destruct s |]. split; [by left | discriminate].
    - destruct (_ && _) eqn:Hstatus.
      + exists false, (command_queue s).
        split; [by destruct s |]. split; [by left |].
        intros r' ? ? [= <-] H. congruence.
      + destruct (json_body r) as [body | e] eqn:Hbody.
        2:{ exists false, (command_queue s).
            split; [by destruct s |]. split; [by left |].
            intros r' ? ? [= <-] _ H. congruence. }
        destruct (get body "pending_commands" (JInt 0)) as [pending | e] eqn:Hp.
        2:{ exists false, (command_queue s).
            split; [by destruct s |]. split; [by left |].
            intros r' ? ? [= <-] _ H1 H2. congruence. }
        destruct (gt_zero pending) as [[] | e] eqn:Hgt.
        * exists true, (command_queue s ++ ["poll_commands"]).
          split; [reflexivity |]. split; [by right | auto].
        * exists true, (command_queue s).
          split; [by destruct s |]. split; [by left |].
          intros r' ? ? [= <-] _ H1 H2 H3. congruence.
        * exists false, (command_queue s).
          split; [by destruct s |]. split; [by left |].
          intros r' ? ? [= <-] _ H1 H2 H3. congruence. }
  destruct Hrun as (b & q & Hrun & Hq & Hwake). exists b.
  unfold after. rewrite Hrun. cbn [fst snd].
  split; [reflexivity |]. split.
  { unfold new_events. cbn [trace with_queue]. rewrite trace_extend.
    apply drop_app_length. }
  split; [by destruct s |]. split; [by destruct s |].
  split; [destruct Hq as [-> | [-> ->]]; [left | right]; by destruct s |].
  intros r body pending H1 H2 H3 H4 H5.
  destruct (Hwake r body pending H1 H2 H3 H4 H5) as [-> ->]. by destruct s.
Qed.

Lemma heartbeat_wakes_witness :
  let env := Scenario.busy_world in
  let s := Scenario.state0 env in
  command_queue (snd (send_heartbeat env s)) = command_queue s ++ ["poll_commands"].
Proof.
  intros env s.
  destruct (heartbeat_wakes_only_on_success env s) as (b & _ & _ & _ & _ & _ & Hwake).
  apply (Hwake (Scenario.ok_response (JDict [("pending_commands", JInt 1)]))
           (JDict [("pending_commands", JInt 1)]) (JInt 1)); reflexivity.
Defined.

(** X17. Stored credentials that parse but lack the device token make
    [_load_credentials] return [False] after it has already replaced the
    device id: the token and the session headers are as before, the device
    id is the stored one. *)
Theorem partial_credentials_replace_device_id env s data credentials id :
  fs s !! credentials_file env = Some data ->
  os_fault env (trace s) (EvOpen (credentials_file env) "r") = None ->
  json_loads env data = Ok credentials ->
  getitem credentials "device_id" = Ok id ->
  is_ok (getitem credentials "device_token") = false ->
  _load_credentials env s
  = (Ok false, with_device_id id (extend [EvOpen (credentials_file env) "r"] s)).
Proof.
  intros Hfile Hfault Hparse Hid Htoken.
  unfold _load_credentials. rewrite Hfile.
  unfold try_except, open_read, bind, os_call, lift. rewrite Hfault.
  change (fs (extend [EvOpen (credentials_file env) "r"] s)) with (fs s).
  rewrite Hfile, Hparse, Hid.
  destruct (getitem credentials "device_token"); [discriminate | reflexivity].
Qed.

Lemma partial_credentials_witness :
  let env := Scenario.enrolling_world Scenario.enrolled_response
               (JDict [("device_id", JStr "dev-7")]) in
  let s := init env Scenario.config0 {["/home/pi/.fleetd/credentials.json" := [Byte.x7b]]} in
  fst (_load_credentials env s) = Ok false
  /\ device_id (snd (_load_credentials env s)) = JStr "dev-7".
Proof.
  intros env s.
  rewrite (partial_credentials_replace_device_id env s [Byte.x7b]
             (JDict [("device_id", JStr "dev-7")]) (JStr "dev-7")
             eq_refl eq_refl eq_refl eq_refl eq_refl).
  by split.
Defined.

(** A first enrollment that the server accepts and that can be stored. *)
Lemma enroll_success_effects env s r body id token fleet :
  no_faults env ->
  http env (trace s) (enroll_post env s) = HttpDone r ->
  status_code r <> 409 ->
  (400 <=? status_code r) && (status_code r <? 600) = false ->
  json_body r = Ok body ->
  getitem body "device_id" = Ok id ->
  getitem body "device_token" = Ok token ->
  get body "fleet_id" JNull = Ok fleet ->
  let file := credentials_file env in
  let post := enroll_post env s in
  let now := utcnow env (trace s ++ [post; EvMakedirs (credentials_dir env);
                                     EvOpen file "w"]) in
  let data := json_dumps env (credentials_record id token fleet now) in
  exists s',
    enroll env s = (Ok true, s')
    /\ device_id s' = id
    /\ config s' = set_device_token token (config s)
    /\ session_headers s' = <["X-Device-Token" := token]> (session_headers s)
    /\ fs s' !! file = Some data
    /\ (forall other, other <> file -> fs s' !! other = fs s !! other)
    /\ running s' = running s
    /\ trace s' = trace s ++ [post; EvMakedirs (credentials_dir env); EvOpen file "w";
                              EvWrite file data; EvChmod file 384].
Proof.
  intros Hnf Hhttp H409 Hcode Hbody Hid Htoken Hfleet. cbv zeta.
  unfold enroll, try_except, bind, http_call. fold (enroll_post env s).
  rewrite Hhttp. apply Z.eqb_neq in H409. rewrite H409.
  unfold raise_for_status. rewrite Hcode. unfold ret, lift.
  rewrite Hbody, Hid, Htoken.
  unfold _save_credentials, open_write, file_write, bind, os_call, lift, clock.
  rewrite !Hnf, Hid, Htoken, Hfleet. rewrite !Hnf.
  eexists. split; [reflexivity |]. cbn -[credentials_file credentials_dir].
  split; [reflexivity |]. split; [reflexivity |]. split; [reflexivity |].
  split; [| split; [| split]].
  - rewrite lookup_insert_eq. cbn -[credentials_file credentials_dir].
    rewrite lookup_insert_eq.
    unfold credentials_record. cbn -[credentials_file credentials_dir].
    rewrite <- !app_assoc. reflexivity.
  - intros other Hne. by rewrite !lookup_insert_ne.
  - reflexivity.
  - unfold credentials_record. rewrite <- !app_assoc. reflexivity.
Qed.


(** X18. A first enrollment that the server accepts, on a machine where
    file operations succeed, returns [True] with the device id and token of
    the response set on the agent and the token added to the session
    headers.  Its calls are the post, then creating the directory, opening,
    writing and restricting (mode 0o600) the credentials file, which then
    holds the dump of the credentials record; no other file changes. *)
Theorem enroll_stores_credentials env s r body id token fleet :
  no_faults env ->
  http env (trace s) (enroll_post env s) = HttpDone r ->
  status_code r <> 409 ->
  (400 <=? status_code r) && (status_code r <? 600) = false ->
  json_body r = Ok body ->
  getitem body "device_id" = Ok id ->
  getitem body "device_token" = Ok token ->
  get body "fleet_id" JNull = Ok fleet ->
  let s' := snd (enroll env s) in
  let file := credentials_file env in
  let post := enroll_post env s in
  let now := utcnow env (trace s ++ [post; EvMakedirs (credentials_dir env);
                                     EvOpen file "w"]) in
  let data := json_dumps env (credentials_record id token fleet now) in
  fst (enroll env s) = Ok true
  /\ device_id s' = id
  /\ device_token (config s') = token
  /\ session_headers s' !! "X-Device-Token" = Some token
  /\ fs s' !! file = Some data
  /\ (forall other, other <> file -> fs s' !! other = fs s !! other)
  /\ new_events s s' = [post; EvMakedirs (credentials_dir env); EvOpen file "w";
                        EvWrite file data; EvChmod file 384].
Proof.
  intros Hnf Hhttp H409 Hcode Hbody Hid Htoken Hfleet. cbv zeta.
  destruct (enroll_success_effects env s r body id token fleet
              Hnf Hhttp H409 Hcode Hbody Hid Htoken Hfleet)
    as (s' & -> & H1 & H2 & H3 & H4 & H5 & _ & H6).
  cbn [fst snd].
  split; [reflexivity |]. split; [exact H1 |]. split; [by rewrite H2 |].
  split; [rewrite H3; apply lookup_insert_eq |]. split; [exact H4 |].
  split; [exact H5 |].
  unfold new_events. rewrite H6. apply drop_app_length.
Qed.

Lemma no_faults_enrolling r stored : no_faults (Scenario.enrolling_world r stored).
Proof. intros hist ev. reflexivity. Qed.

Lemma enroll_stores_credentials_witness :
  let env := Scenario.enrolling_world Scenario.enrolled_response JNull in
  let s' := snd (enroll env (Scenario.state0 env)) in
  device_id s' = JStr "dev-7" /\ device_token (config s') = JStr "tok-7".
Proof.
  intros env s'.
  assert (H409 : status_code Scenario.enrolled_response <> 409) by (cbn; lia).
  destruct (enroll_stores_credentials env (Scenario.state0 env)
              Scenario.enrolled_response
              (JDict [("device_id", JStr "dev-7"); ("device_token", JStr "tok-7")])
              (JStr "dev-7") (JStr "tok-7") JNull
              (no_faults_enrolling _ _) eq_refl H409 eq_refl eq_refl eq_refl eq_refl
              eq_refl)
    as (_ & H1 & H2 & _).
  auto.
Defined.

(** X19. Credentials that were stored are found again: after an accepted
    enrollment, an agent started on the same files, with a [json.load] that
    reads back what [json.dump] wrote, loads them and has the same device
    id, device token and token header. *)
Theorem stored_credentials_are_loaded_back env s r body id token fleet s2 :
  no_faults env ->
  http env (trace s) (enroll_post env s) = HttpDone r ->
  status_code r <> 409 ->
  (400 <=? status_code r) && (status_code r <? 600) = false ->
  json_body r = Ok body ->
  getitem body "device_id" = Ok id ->
  getitem body "device_token" = Ok token ->
  get body "fleet_id" JNull = Ok fleet ->
  (let now := utcnow env (trace s ++ [enroll_post env s;
                                       EvMakedirs (credentials_dir env);
                                       EvOpen (credentials_file env) "w"]) in
   json_loads env (json_dumps env (credentials_record id token fleet now))
   = Ok (credentials_record id token fleet now)) ->
  fs s2 = fs (snd (enroll env s)) ->
  let loaded := _load_credentials env s2 in
  fst loaded = Ok true
  /\ device_id (snd loaded) = id
  /\ device_token (config (snd loaded)) = token
  /\ session_headers (snd loaded) !! "X-Device-Token" = Some token.
Proof.
  intros Hnf Hhttp H409 Hcode Hbody Hid Htoken Hfleet Hround Hdisk. cbv zeta in *.
  destruct (enroll_success_effects env s r body id token fleet
              Hnf Hhttp H409 Hcode Hbody Hid Htoken Hfleet)
    as (s' & Hrun & _ & _ & _ & Hfile & _).
  rewrite Hrun in Hdisk. cbn [snd] in Hdisk.
  unfold _load_credentials. rewrite Hdisk, Hfile.
  unfold try_except, open_read, bind, os_call, lift. rewrite Hnf.
  change (fs (extend [EvOpen (credentials_file env) "r"] s2)) with (fs s2).
  rewrite Hdisk, Hfile, Hround.
  cbn -[credentials_file]. repeat split. apply lookup_insert_eq.
Qed.


Lemma stored_credentials_witness :
  let record := credentials_record (JStr "dev-7") (JStr "tok-7") JNull
                  "2024-01-01T00:00:00" in
  let env := Scenario.enrolling_world Scenario.enrolled_response record in
  let disk := fs (snd (enroll env (Scenario.state0 env))) in
  let loaded := _load_credentials env (init env Scenario.config0 disk) in
  fst loaded = Ok true /\ device_id (snd loaded) = JStr "dev-7".
Proof.
  intros record env disk loaded.
  assert (H409 : status_code Scenario.enrolled_response <> 409) by (cbn; lia).
  destruct (stored_credentials_are_loaded_back env (Scenario.state0 env)
              Scenario.enrolled_response
              (JDict [("device_id", JStr "dev-7"); ("device_token", JStr "tok-7")])
              (JStr "dev-7") (JStr "tok-7") JNull (init env Scenario.config0 disk)
              (no_faults_enrolling _ _) eq_refl H409 eq_refl eq_refl eq_refl eq_refl
              eq_refl eq_refl eq_refl)
    as (H1 & H2 & _).
  auto.
Defined.

End LifecycleProperties.

(** ** Failure to store, the duties and shutdown *)

Module DutyProperties.
Import Agent ExecutorFacts UpdateFacts FrameFacts LifecycleFacts LifecycleProperties.

(** X20. When the server accepts the enrollment but the credentials
    directory cannot be created, [enroll] returns [False] although it has
    already put the new device id and token on the agent and the token in
    the session headers; no file is changed. *)
Theorem failed_save_keeps_new_identity env s r body id token e :
  http env (trace s) (enroll_post env s) = HttpDone r ->
  status_code r <> 409 ->
  (400 <=? status_code r) && (status_code r <? 600) = false ->
  json_body r = Ok body ->
  getitem body "device_id" = Ok id ->
  getitem body "device_token" = Ok token ->
  os_fault env (trace s ++ [enroll_post env s]) (EvMakedirs (credentials_dir env))
    = Some e ->
  let s' := snd (enroll env s) in
  fst (enroll env s) = Ok false
  /\ device_id s' = id
  /\ device_token (config s') = token
  /\ session_headers s' !! "X-Device-Token" = Some token
  /\ fs s' = fs s.
Proof.
  intros Hhttp H409 Hcode Hbody Hid Htoken Hfault. cbv zeta.
  assert (Hrun : exists s',
            enroll env s = (Ok false, s')
            /\ device_id s' = id /\ device_token (config s') = token
            /\ session_headers s' !! "X-Device-Token" = Some token
            /\ fs s' = fs s).
  { unfold enroll, try_except, bind, http_call. fold (enroll_post env s).
    rewrite Hhttp. apply Z.eqb_neq in H409. rewrite H409.
    unfold raise_for_status. rewrite Hcode. unfold ret, lift.
    rewrite Hbody, Hid, Htoken.
    unfold _save_credentials, bind, os_call.
    change (trace (with_headers _ _)) with (trace s ++ [enroll_post env s]).
    rewrite Hfault. eexists. split; [reflexivity |].
    cbn. repeat split. apply lookup_insert_eq. }
  destruct Hrun as (s' & -> & H). cbn [fst snd]. split; [reflexivity | exact H].
Qed.

Lemma failed_save_witness :
  let env :=
    {| py_str := Scenario.str_of; json_dumps := fun _ => [];
       json_loads := fun _ => Ok JNull; home := "/home/pi";
       http := fun _ _ => HttpDone Scenario.enrolled_response;
       download := fun _ _ => Scenario.no_download;
       proc := fun _ _ => Scenario.exit0;
       os_fault := fun _ _ => Some (Exn "PermissionError" "[Errno 13] Permission denied");
       called_process_error := fun _ => "";
       system_info := fun _ => JDict [];
       telemetry_metrics := fun _ => JList [];
       utcnow := fun _ => "2024-01-01T00:00:00";
       uptime := fun _ => 1;
       detected_hardware_id := "00000000deadbeef";
       default_headers := ∅ |} in
  fst (enroll env (Scenario.state0 env)) = Ok false
  /\ device_id (snd (enroll env (Scenario.state0 env))) = JStr "dev-7".
Proof.
  intros env.
  assert (H409 : status_code Scenario.enrolled_response <> 409) by (cbn; lia).
  destruct (failed_save_keeps_new_identity env (Scenario.state0 env)
              Scenario.enrolled_response
              (JDict [("device_id", JStr "dev-7"); ("device_token", JStr "tok-7")])
              (JStr "dev-7") (JStr "tok-7")
              (Exn "PermissionError" "[Errno 13] Permission denied")
              eq_refl H409 eq_refl eq_refl eq_refl eq_refl eq_refl)
    as (H1 & H2 & _).
  auto.
Defined.

Lemma step_keeps_identity env a y y' :
  step env a y = Some y' ->
  identity (agent y') = identity (agent y)
  /\ (Forall (fun item => item = "poll_commands") (command_queue (agent y)) ->
      Forall (fun item => item = "poll_commands") (command_queue (agent y')))
  /\ exists evs, trace (agent y') = trace (agent y) ++ evs.
Proof.
  destruct y as [s p]. unfold step. cbn [agent poller].
  destruct a.
  - destruct (running s) eqn:Hr; [| discriminate]. intros [= <-]. cbn [agent].
    destruct (heartbeat_run env s) as (b & post & q & -> & Hq). cbn [snd].
    split; [by destruct s |]. split.
    + cbn [command_queue with_queue].
      destruct Hq as [-> | [_ ->]]; [by destruct s |].
      intros H. apply Forall_app_2; [by destruct s | by repeat constructor].
    + exists [post]. by destruct s.
  - destruct (running s) eqn:Hr; [| discriminate]. intros [= <-]. cbn [agent].
    destruct (frames_send_telemetry env s) as [evs Hg].
    destruct (grows_identity _ _ _ Hg) as [Hi Hq].
    split; [exact Hi |]. split; [by rewrite Hq |]. exists evs. by apply grows_trace.
  - destruct p; [| discriminate].
    destruct (running s) eqn:Hr; [| discriminate]. intros [= <-]. cbn [agent].
    unfold queue_get. destruct (command_queue s) as [| item rest] eqn:Hq.
    + split; [reflexivity |]. split; [by rewrite Hq |]. exists []. by rewrite app_nil_r.
    + split; [by destruct s |]. split.
      * cbn [command_queue with_queue]. intros H. by apply Forall_cons_1 in H as [_ H].
      * exists []. rewrite app_nil_r. by destruct s.
  - destruct p; [discriminate |]. intros [= <-]. cbn [agent].
    destruct (frames_poll_commands env s) as [evs Hg].
    destruct (grows_identity _ _ _ Hg) as [Hi Hq].
    split; [exact Hi |]. split; [by rewrite Hq |]. exists evs. by apply grows_trace.
Qed.

(** X21. However the three duty threads interleave, they leave the
    configuration with its device token, the device id, the running flag and
    the session headers as they found them; the trace only grows; and a
    wake queue that holds nothing but "poll_commands" keeps holding nothing
    else. *)
Theorem duties_keep_identity env acts : forall y y',
  run env acts y = Some y' ->
  identity (agent y') = identity (agent y)
  /\ (Forall (fun item => item = "poll_commands") (command_queue (agent y)) ->
      Forall (fun item => item = "poll_commands") (command_queue (agent y')))
  /\ exists evs, trace (agent y') = trace (agent y) ++ evs.
Proof.
  induction acts as [| a acts IH]; intros y y' Hrun.
  - injection Hrun as <-. split; [reflexivity |]. split; [auto |].
    exists []. by rewrite app_nil_r.
  - cbn [run] in Hrun. destruct (step env a y) as [y1 |] eqn:Hstep; [| discriminate].
    destruct (step_keeps_identity env a y y1 Hstep) as (I1 & Q1 & e1 & T1).
    destruct (IH y1 y' Hrun) as (I2 & Q2 & e2 & T2).
    split; [congruence |]. split; [auto |].
    exists (e1 ++ e2). by rewrite T2, T1, app_assoc.
Qed.

Lemma duties_keep_identity_witness :
  let env := Scenario.busy_world in
  let y0 := {| agent := with_running true (Scenario.state0 env); poller := Waiting |} in
  exists y',
    run env [ActHeartbeat; ActGet; ActPoll; ActTelemetry] y0 = Some y'
    /\ identity (agent y') = identity (agent y0).
Proof.
  intros env y0. eexists. split; [vm_compute; reflexivity |].
  apply (duties_keep_identity env [ActHeartbeat; ActGet; ActPoll; ActTelemetry] y0).
  vm_compute. reflexivity.
Defined.

(** X22. [stop] only keeps new iterations from starting.  Once the flag
    is cleared no heartbeat, telemetry or queue wait can begin; a poll that
    is in flight still runs to its end; and after it nothing more can
    happen. *)
Theorem stop_lets_the_poll_finish env s p :
  let stopped := snd (stop s) in
  fst (stop s) = Ok tt
  /\ running stopped = false
  /\ step env ActHeartbeat {| agent := stopped; poller := p |} = None
  /\ step env ActTelemetry {| agent := stopped; poller := p |} = None
  /\ step env ActGet {| agent := stopped; poller := p |} = None
  /\ step env ActPoll {| agent := stopped; poller := Busy |}
     = Some {| agent := snd (poll_commands env stopped); poller := Waiting |}
  /\ forall a,
       step env a {| agent := snd (poll_commands env stopped); poller := Waiting |}
       = None.
Proof.
  cbv zeta. unfold stop. cbn [fst snd].
  split; [reflexivity |]. split; [reflexivity |].
  split; [reflexivity |]. split; [reflexivity |].
  split; [by destruct p |]. split; [reflexivity |].
  intros a.
  destruct (frames_poll_commands env (with_running false s)) as [evs Hg].
  destruct (grows_identity _ _ _ Hg) as [Hi _].
  assert (Hr : running (snd (poll_commands env (with_running false s))) = false).
  { unfold identity in Hi. by injection Hi as _ _ -> _. }
  unfold step. cbn [agent poller]. rewrite Hr. by destruct a.
Qed.

End DutyProperties.


(** ** The hardware id *)

Module HardwareIdProperties.
Import Agent.

Lemma hex_digit_code (n : Z) :
  0 <= n < 16 ->
  Ascii.N_of_ascii (Sha256.hex_digit n) = Z.to_N (if n <? 10 then 48 + n else 87 + n).
Proof.
  intros Hn. unfold Sha256.hex_digit. apply Ascii.N_ascii_embedding.
  destruct (n <? 10); lia.
Qed.

Lemma hex_digit_inj (a b : Z) :
  0 <= a < 16 -> 0 <= b < 16 -> Sha256.hex_digit a = Sha256.hex_digit b -> a = b.
Proof.
  intros Ha Hb H. apply (f_equal Ascii.N_of_ascii) in H.
  rewrite !hex_digit_code in H by assumption. revert H.
  destruct (Z.ltb_spec a 10), (Z.ltb_spec b 10); lia.
Qed.

Lemma hex2_inj (v w : Z) :
  0 <= v < 256 -> 0 <= w < 256 -> hex2 v = hex2 w -> v = w.
Proof.
  intros Hv Hw H. unfold hex2 in H. injection H as H1 H2.
  pose proof (Z.div_mod v 16 ltac:(lia)). pose proof (Z.mod_pos_bound v 16 ltac:(lia)).
  pose proof (Z.div_mod w 16 ltac:(lia)). pose proof (Z.mod_pos_bound w 16 ltac:(lia)).
  apply hex_digit_inj in H1; [| lia | lia].
  apply hex_digit_inj in H2; [| lia | lia].
  lia.
Qed.

Lemma octet_range (node k : Z) : 0 <= Z.land (Z.shiftr node k) 255 < 256.
Proof.
  change 255 with (Z.ones 8). rewrite Z.land_ones by lia.
  apply Z.mod_pos_bound. lia.
Qed.

Lemma octet_value (node k : Z) :
  0 <= k -> Z.land (Z.shiftr node k) 255 = (node / 2 ^ k) mod 256.
Proof.
  intros Hk. change 255 with (Z.ones 8). rewrite Z.land_ones by lia.
  by rewrite Z.shiftr_div_pow2.
Qed.

Lemma mac_address_unfold (node : Z) :
  mac_address node
  = hex2 (Z.land (Z.shiftr node 40) 255) +:+ ":" +:+
    hex2 (Z.land (Z.shiftr node 32) 255) +:+ ":" +:+
    hex2 (Z.land (Z.shiftr node 24) 255) +:+ ":" +:+
    hex2 (Z.land (Z.shiftr node 16) 255) +:+ ":" +:+
    hex2 (Z.land (Z.shiftr node 8) 255) +:+ ":" +:+
    hex2 (Z.land (Z.shiftr node 0) 255).
Proof. reflexivity. Qed.

Lemma group_split (a b : Z) (x y : string) :
  hex2 a +:+ ":" +:+ x = hex2 b +:+ ":" +:+ y -> hex2 a = hex2 b /\ x = y.
Proof.
  unfold hex2. cbv [String.append]. intros H. injection H as H1 H2 H3.
  by rewrite H1, H2, H3.
Qed.

(** The next octet up: dividing by 256 once more. *)
Lemma octet_step (node k k' : Z) :
  0 <= k -> k' = k + 8 ->
  node / 2 ^ k = 256 * (node / 2 ^ k') + (node / 2 ^ k) mod 256.
Proof.
  intros Hk ->. rewrite Z.pow_add_r by lia. rewrite <- Z.div_div by lia.
  change (2 ^ 8) with 256. apply Z.div_mod. lia.
Qed.

Lemma octets_determine (node other : Z) :
  0 <= node < 2 ^ 48 -> 0 <= other < 2 ^ 48 ->
  (forall k, In k [0; 8; 16; 24; 32; 40] ->
             (node / 2 ^ k) mod 256 = (other / 2 ^ k) mod 256) ->
  node = other.
Proof.
  intros Hn Ho H.
  assert (T1 : node / 2 ^ 48 = 0) by (apply Z.div_small; lia).
  assert (T2 : other / 2 ^ 48 = 0) by (apply Z.div_small; lia).
  pose proof (H 0 ltac:(cbn; tauto)) as E0. pose proof (H 8 ltac:(cbn; tauto)) as E1.
  pose proof (H 16 ltac:(cbn; tauto)) as E2. pose proof (H 24 ltac:(cbn; tauto)) as E3.
  pose proof (H 32 ltac:(cbn; tauto)) as E4. pose proof (H 40 ltac:(cbn; tauto)) as E5.
  pose proof (octet_step node 0 8 ltac:(lia) eq_refl) as N0.
  pose proof (octet_step node 8 16 ltac:(lia) eq_refl) as N1.
  pose proof (octet_step node 16 24 ltac:(lia) eq_refl) as N2.
  pose proof (octet_step node 24 32 ltac:(lia) eq_refl) as N3.
  pose proof (octet_step node 32 40 ltac:(lia) eq_refl) as N4.
  pose proof (octet_step node 40 48 ltac:(lia) eq_refl) as N5.
  pose proof (octet_step other 0 8 ltac:(lia) eq_refl) as O0.
  pose proof (octet_step other 8 16 ltac:(lia) eq_refl) as O1.
  pose proof (octet_step other 16 24 ltac:(lia) eq_refl) as O2.
  pose proof (octet_step other 24 32 ltac:(lia) eq_refl) as O3.
  pose proof (octet_step other 32 40 ltac:(lia) eq_refl) as O4.
  pose proof (octet_step other 40 48 ltac:(lia) eq_refl) as O5.
  rewrite !Z.pow_0_r, !Z.div_1_r in *.
  lia.
Qed.

(** X23. The MAC-address fallback of the hardware id is 17 characters
    long, and it identifies the node: two 48-bit node numbers with the same
    string are equal. *)
Theorem mac_address_identifies_the_node (node other : Z) :
  String.length (mac_address node) = 17%nat
  /\ (0 <= node < 2 ^ 48 -> 0 <= other < 2 ^ 48 ->
      mac_address node = mac_address other -> node = other).
Proof.
  split; [reflexivity |].
  intros Hn Ho H. rewrite !mac_address_unfold in H.
  apply group_split in H as [H5 H]. apply group_split in H as [H4 H].
  apply group_split in H as [H3 H]. apply group_split in H as [H2 H].
  apply group_split in H as [H1 H0].
  apply hex2_inj in H0, H1, H2, H3, H4, H5; try apply octet_range.
  rewrite !octet_value in * by lia.
  apply octets_determine; [assumption | assumption |].
  intros k Hk. cbn in Hk.
  destruct Hk as [<- | [<- | [<- | [<- | [<- | [<- | []]]]]]]; assumption.
Qed.

Lemma mac_address_witness :
  String.length (mac_address 1250999896491) = 17%nat
  /\ (mac_address 1250999896491 = mac_address 1250999896491 ->
      1250999896491 = 1250999896491).
Proof.
  destruct (mac_address_identifies_the_node 1250999896491 1250999896491) as [L I].
  split; [exact L | apply I; lia].
Defined.

(** *** The serial line of /proc/cpuinfo *)

Lemma append_cons (c : ascii) (a b : string) :
  String c a +:+ b = String c (a +:+ b).
Proof. reflexivity. Qed.

Lemma append_empty_r (a : string) : a +:+ EmptyString = a.
Proof. induction a as [| c a IH]; [reflexivity |]. by rewrite append_cons, IH. Qed.

Lemma prefix_append (p key more : string) :
  String.prefix p key = true -> String.prefix p (key +:+ more) = true.
Proof.
  revert key. induction p as [| c p IH]; intros key H.
  - by destruct (key +:+ more).
  - destruct key as [| d key]; [discriminate |]. rewrite append_cons.
    cbn in *. destruct (ascii_dec c d); [by apply IH | discriminate H].
Qed.

Lemma split_without_sep (sep : ascii) (s : string) :
  ~ In sep (String.list_ascii_of_string s) -> split sep s = [s].
Proof.
  induction s as [| c s IH]; intros H; [reflexivity |].
  cbn in *. destruct (Ascii.eqb_spec c sep) as [-> | _]; [tauto |].
  rewrite IH by tauto. reflexivity.
Qed.

Lemma split_at_first_sep (sep : ascii) (key more : string) :
  ~ In sep (String.list_ascii_of_string key) ->
  split sep (key +:+ String sep more) = key :: split sep more.
Proof.
  induction key as [| c key IH]; intros H.
  - change (EmptyString +:+ String sep more) with (String sep more).
    cbn [split]. by rewrite Ascii.eqb_refl.
  - rewrite append_cons. cbn [split String.list_ascii_of_string In] in *.
    destruct (Ascii.eqb_spec c sep) as [-> | _]; [tauto |].
    rewrite IH by tauto. reflexivity.
Qed.

Lemma scan_skips (pre rest : list string) :
  Forall (fun line => String.prefix "Serial" line = false) pre ->
  scan_cpuinfo (pre ++ rest) = scan_cpuinfo rest.
Proof.
  induction 1 as [| line pre Hline _ IH]; [reflexivity |].
  cbn [app scan_cpuinfo]. by rewrite Hline.
Qed.

(** The piece between the first and the second colon. *)
Lemma split_serial_line (key value tail : string) :
  ~ In ":"%char (String.list_ascii_of_string key) ->
  ~ In ":"%char (String.list_ascii_of_string value) ->
  tail = EmptyString \/ String.prefix ":" tail = true ->
  exists pieces, split ":" (key +:+ ":" +:+ value +:+ tail) = key :: value :: pieces.
Proof.
  intros Hkey Hvalue Htail.
  change (":" +:+ value +:+ tail) with (String ":" (value +:+ tail)).
  rewrite split_at_first_sep by assumption.
  destruct Htail as [-> | Htail].
  - rewrite append_empty_r, split_without_sep by assumption. by exists [].
  - destruct tail as [| c tail]; [discriminate |].
    change (String.prefix ":" (String c tail))
      with (if ascii_dec ":" c then String.prefix "" tail else false) in Htail.
    destruct (ascii_dec ":" c) as [<- | _]; [| discriminate Htail].
    rewrite split_at_first_sep by assumption. by eexists.
Qed.

Lemma serial_line_id (pre rest : list string) (key value tail : string) (node : Z) :
  Forall (fun line => String.prefix "Serial" line = false) pre ->
  String.prefix "Serial" key = true ->
  ~ In ":"%char (String.list_ascii_of_string key) ->
  ~ In ":"%char (String.list_ascii_of_string value) ->
  tail = EmptyString \/ String.prefix ":" tail = true ->
  _get_hardware_id (Some (pre ++ (key +:+ ":" +:+ value +:+ tail) :: rest)) node
  = strip value.
Proof.
  intros Hpre Hserial Hkey Hvalue Htail. unfold _get_hardware_id.
  rewrite scan_skips by assumption. cbn [scan_cpuinfo].
  rewrite prefix_append by assumption.
  destruct (split_serial_line key value tail Hkey Hvalue Htail) as [pieces ->].
  reflexivity.
Qed.

(** X24. The first line of /proc/cpuinfo that starts with "Serial" gives
    the hardware id: the text between its first and its second colon (or the
    end of the line), stripped.  The lines after it are not looked at. *)
Theorem first_serial_line_gives_the_id
    (pre rest : list string) (key value tail : string) (node : Z) :
  Forall (fun line => String.prefix "Serial" line = false) pre ->
  String.prefix "Serial" key = true ->
  ~ In ":"%char (String.list_ascii_of_string key) ->
  ~ In ":"%char (String.list_ascii_of_string value) ->
  tail = EmptyString \/ String.prefix ":" tail = true ->
  _get_hardware_id (Some (pre ++ (key +:+ ":" +:+ value +:+ tail) :: rest)) node
  = strip value.
Proof. apply serial_line_id. Qed.

Lemma first_serial_line_witness :
  _get_hardware_id
    (Some (["processor : 0"; "Hardware : BCM2835"]
           ++ ("Serial   " +:+ ":" +:+ " 00000000deadbeef  " +:+ "")
           :: ["Serial : ffff"; "Model : Raspberry Pi"])) 1250999896491
  = strip " 00000000deadbeef  "
  /\ strip " 00000000deadbeef  " = "00000000deadbeef".
Proof.
  split; [| reflexivity].
  apply (first_serial_line_gives_the_id
           ["processor : 0"; "Hardware : BCM2835"]
           ["Serial : ffff"; "Model : Raspberry Pi"]
           "Serial   " " 00000000deadbeef  " "" 1250999896491).
  - repeat constructor.
  - reflexivity.
  - cbn. intros H. repeat (destruct H as [H | H]; [discriminate H |]). exact H.
  - cbn. intros H. repeat (destruct H as [H | H]; [discriminate H |]). exact H.
  - by left.
Defined.

(** X25. The hardware id falls back to the MAC address when no line of
    /proc/cpuinfo starts with "Serial", and also when the first such line has
    no colon, whatever the later lines are. *)
Theorem serial_line_without_colon_falls_back
    (pre rest : list string) (line : string) (node : Z) :
  Forall (fun line => String.prefix "Serial" line = false) pre ->
  _get_hardware_id (Some pre) node = mac_address node
  /\ (String.prefix "Serial" line = true ->
      ~ In ":"%char (String.list_ascii_of_string line) ->
      _get_hardware_id (Some (pre ++ line :: rest)) node = mac_address node).
Proof.
  intros Hpre. unfold _get_hardware_id. split.
  - rewrite <- (app_nil_r pre), scan_skips by assumption. reflexivity.
  - intros Hserial Hline. rewrite scan_skips by assumption. cbn [scan_cpuinfo].
    rewrite Hserial, split_without_sep by assumption. reflexivity.
Qed.

Lemma serial_line_without_colon_witness :
  _get_hardware_id (Some ["processor : 0"]) 1250999896491 = "01:23:45:67:89:ab"
  /\ _get_hardware_id
       (Some (["processor : 0"] ++ "Serial 00000000deadbeef" :: ["Serial : ffff"]))
       1250999896491
     = "01:23:45:67:89:ab".
Proof.
  destruct (serial_line_without_colon_falls_back
              ["processor : 0"] ["Serial : ffff"] "Serial 00000000deadbeef"
              1250999896491) as [A B].
  - repeat constructor.
  - split; [exact A |]. apply B; [reflexivity |].
    cbn. intros H. repeat (destruct H as [H | H]; [discriminate H |]). exact H.
Defined.

(** *** Stripping *)

Lemma lstrip_head (s : string) (c : ascii) (rest : string) :
  lstrip s = String c rest -> is_space c = false.
Proof.
  induction s as [| d s IH]; [discriminate |]. cbn [lstrip].
  destruct (is_space d) eqn:E; [exact IH |]. intros [= <- _]. exact E.
Qed.

Lemma lstrip_is_suffix (s : string) : exists p, s = p +:+ lstrip s.
Proof.
  induction s as [| d s [p IH]]; [by exists EmptyString |]. cbn [lstrip].
  destruct (is_space d).
  - exists (String d p). by rewrite append_cons, <- IH.
  - by exists EmptyString.
Qed.

Lemma list_of_append (a b : string) :
  String.list_ascii_of_string (a +:+ b)
  = String.list_ascii_of_string a ++ String.list_ascii_of_string b.
Proof. induction a as [| c a IH]; [reflexivity |]. rewrite append_cons. cbn. by rewrite IH. Qed.

Lemma string_of_app (a b : list ascii) :
  String.string_of_list_ascii (a ++ b)
  = String.string_of_list_ascii a +:+ String.string_of_list_ascii b.
Proof. induction a as [| c a IH]; [reflexivity |]. cbn. by rewrite IH. Qed.

Lemma reverse_append (a b : string) : reverse (a +:+ b) = reverse b +:+ reverse a.
Proof. unfold reverse. by rewrite list_of_append, rev_app_distr, string_of_app. Qed.

Lemma reverse_involutive (s : string) : reverse (reverse s) = s.
Proof.
  unfold reverse.
  by rewrite String.list_ascii_of_string_of_list_ascii, rev_involutive,
    String.string_of_list_ascii_of_string.
Qed.

Lemma strip_ends (s : string) :
  (forall c rest, strip s = String c rest -> is_space c = false)
  /\ (forall c rest, reverse (strip s) = String c rest -> is_space c = false).
Proof.
  unfold strip. split; intros c rest H.
  - destruct (lstrip_is_suffix (reverse (lstrip s))) as [p Hp].
    apply (f_equal reverse) in Hp.
    rewrite reverse_involutive, reverse_append, H, append_cons in Hp.
    exact (lstrip_head _ _ _ Hp).
  - rewrite reverse_involutive in H. exact (lstrip_head _ _ _ H).
Qed.

(** X26. A hardware id read from the serial line has no white space at
    either end: neither its first nor its last character is a space, a tab
    or the newline that ends the line. *)
Theorem serial_id_has_no_surrounding_space
    (pre rest : list string) (key value tail : string) (node : Z) :
  Forall (fun line => String.prefix "Serial" line = false) pre ->
  String.prefix "Serial" key = true ->
  ~ In ":"%char (String.list_ascii_of_string key) ->
  ~ In ":"%char (String.list_ascii_of_string value) ->
  tail = EmptyString \/ String.prefix ":" tail = true ->
  let id := _get_hardware_id
              (Some (pre ++ (key +:+ ":" +:+ value +:+ tail) :: rest)) node in
  (forall c more, id = String c more -> is_space c = false)
  /\ (forall c more, reverse id = String c more -> is_space c = false).
Proof.
  intros Hpre Hserial Hkey Hvalue Htail id. subst id.
  rewrite serial_line_id by assumption. apply strip_ends.
Qed.

Lemma serial_id_space_witness :
  let id := _get_hardware_id
              (Some ([] ++ ("Serial" +:+ ":" +:+ " 00000000deadbeef  " +:+ "") :: []))
              1250999896491 in
  (forall c more, id = String c more -> is_space c = false)
  /\ (forall c more, reverse id = String c more -> is_space c = false).
Proof.
  apply (serial_id_has_no_surrounding_space [] [] "Serial" " 00000000deadbeef  " ""
           1250999896491).
  - constructor.
  - reflexivity.
  - cbn. intros H. repeat (destruct H as [H | H]; [discriminate H |]). exact H.
  - cbn. intros H. repeat (destruct H as [H | H]; [discriminate H |]). exact H.
  - by left.
Defined.

End HardwareIdProperties.
